(** * PerpSpot: a shallow embedding of the arbitrage core

    The development follows the Python services of the repository:
    - [Slippage]  : services/slippage_model.py
    - [Arbitrage] : services/arbitrage_service.py
    - [Bridge]    : services/bridge_service.py
    - [Cache]     : services/cache_service.py
    - [Listener]  : services/ws_listener.py

    - [SlippageDouble], [ArbitrageDouble] : the depth walk and the
      detector once more, in double precision

    Python floats are modelled by exact numbers: reals where the code
    needs [math.sqrt] or [**], rationals where only field operations and
    comparisons occur.  Rounding, NaN and overflow are outside these
    models; what is stated on them are bounds, orders and equalities of
    two runs of one computation, which rounding keeps.  Where rounding
    decides the outcome (a comparison with a threshold, a sum compared
    with its terms) the code is embedded on binary64 floats, whose
    operations round as Python's do.  A Python exception caught by a
    [try/except] is modelled by [None] in the body and by the fallback
    value of the handler. *)

From Stdlib Require Import Reals Lra Lia ZArith QArith Qabs List String Ascii Bool.
From Stdlib Require Import Permutation Sorted.
From Stdlib Require Floats.
From Stdlib Require Lqa.
From stdpp Require Import base option gmap strings.
Import ListNotations.
Set Warnings "-inexact-float".

(** ** Python helpers shared by the services *)

Module Py.

(** [str.upper] on the ASCII range. *)
Definition upper_ascii (c : ascii) : ascii :=
  let n := nat_of_ascii c in
  if ((97 <=? n)%nat && (n <=? 122)%nat)%bool then ascii_of_nat (n - 32) else c.

Fixpoint upper (s : string) : string :=
  match s with
  | EmptyString => EmptyString
  | String c rest => String (upper_ascii c) (upper rest)
  end.

(** Truth value of a string: the empty string is falsy. *)
Definition truthy_str (s : string) : bool :=
  match s with EmptyString => false | _ => true end.

(** Lookup in a dict literal kept in source order. *)
Fixpoint dict_get {V : Type} (d : list (string * V)) (key : string) : option V :=
  match d with
  | [] => None
  | (k, v) :: rest => if String.eqb k key then Some v else dict_get rest key
  end.

(** [x or d] for an optional float: [None] and [0.0] are both falsy. *)
Definition float_or (x : option R) (d : R) : R :=
  match x with
  | Some v => if Req_dec_T v 0%R then d else v
  | None => d
  end.

(** [l[-n:]] for a positive [n]. *)
Definition last_n {A : Type} (n : nat) (l : list A) : list A :=
  skipn (length l - n) l.

End Py.

(** ** services/slippage_model.py *)

Module Slippage.
Local Open Scope R_scope.

Record SlippageConfig := {
  k_sqrt : R;
  a_coeff : R;
  b_power : R;
  decay_rate : R;
  min_slippage_bps : R;
  max_slippage_bps : R
}.

Definition default_config : SlippageConfig := {|
  k_sqrt := 7 / 10;
  a_coeff := 3 / 10;
  b_power := 6 / 10;
  decay_rate := 8 / 10;
  min_slippage_bps := 1 / 2;
  max_slippage_bps := 500
|}.

Record token_config := {
  typical_adv_usd : R;
  depth_multiplier : R;
  volatility_factor : R
}.

(** [_load_token_configs] *)
Definition token_configs : list (string * token_config) :=
  [ ("SOL"%string,
     {| typical_adv_usd := 100000000; depth_multiplier := 1; volatility_factor := 12 / 10 |});
    ("ETH"%string,
     {| typical_adv_usd := 500000000; depth_multiplier := 8 / 10; volatility_factor := 1 |});
    ("BTC"%string,
     {| typical_adv_usd := 1000000000; depth_multiplier := 6 / 10; volatility_factor := 9 / 10 |});
    ("USDC"%string,
     {| typical_adv_usd := 200000000; depth_multiplier := 3 / 10; volatility_factor := 1 / 10 |});
    ("USDT"%string,
     {| typical_adv_usd := 300000000; depth_multiplier := 3 / 10; volatility_factor := 1 / 10 |}) ].

(** [token and token.upper() in self.token_configs], returning the entry. *)
Definition token_entry (token : option string) : option token_config :=
  match token with
  | Some t => if Py.truthy_str t then Py.dict_get token_configs (Py.upper t) else None
  | None => None
  end.

(** The [if / elif] that bounds the square-root estimate, in bps. *)
Definition apply_bounds (cfg : SlippageConfig) (slippage_bps : R) : R :=
  if Rlt_dec slippage_bps (min_slippage_bps cfg)
  then Rmax slippage_bps (min_slippage_bps cfg)
  else if Rlt_dec (max_slippage_bps cfg) slippage_bps
       then Rmin slippage_bps (max_slippage_bps cfg)
       else slippage_bps.

(** The coefficient and the volume in force after the token adjustment
    and the division-by-zero guard. *)
Definition k_effective (cfg : SlippageConfig) (k : option R) (token : option string) : R :=
  let k0 := Py.float_or k (k_sqrt cfg) in
  match token_entry token with
  | Some tc => k0 * volatility_factor tc
  | None => k0
  end.

Definition adv_effective (adv_usd : R) (token : option string) : R :=
  let adv1 := match token_entry token with
              | Some tc => Rmax adv_usd (typical_adv_usd tc)
              | None => adv_usd
              end in
  if Rle_dec adv1 0 then 10000000 else adv1.

(** Body of the [try] of [estimate_slippage_by_notional]; [None] is the
    [ValueError] of [math.sqrt] on a negative argument. *)
Definition slippage_by_notional_body (cfg : SlippageConfig)
    (notional_usd adv_usd : R) (k : option R) (token : option string) : option R :=
  let k_eff := k_effective cfg k token in
  let adv := adv_effective adv_usd token in
  let participation_rate := notional_usd / adv in
  if Rlt_dec participation_rate 0 then None
  else
    let slippage_pct := k_eff * sqrt participation_rate in
    let slippage_bps := slippage_pct * 10000 in
    Some (apply_bounds cfg slippage_bps / 10000).

Definition estimate_slippage_by_notional (cfg : SlippageConfig)
    (notional_usd adv_usd : R) (k : option R) (token : option string) : R :=
  match slippage_by_notional_body cfg notional_usd adv_usd k token with
  | Some r => r
  | None => 5 / 1000
  end.

(** The estimate in basis points before [apply_bounds]. *)
Definition raw_bps (cfg : SlippageConfig) (notional adv : R) (k : option R)
    (token : option string) : R :=
  k_effective cfg k token * sqrt (notional / adv_effective adv token) * 10000.

(** Python's [x ** b] on floats with a real result; [None] stands for
    the [ZeroDivisionError] of [0.0 ** negative] and for the complex
    result of a negative base with a fractional exponent, on which the
    later [min] raises [TypeError]. *)
Definition float_pow (x b : R) : option R :=
  if Rlt_dec 0 x then Some (Rpower x b)
  else if Req_dec_T x 0 then
    (if Rlt_dec 0 b then Some 0 else if Req_dec_T b 0 then Some 1 else None)
  else
    (if Req_dec_T b (IZR (Int_part b)) then Some (powerRZ x (Int_part b)) else None).

Definition almgren_chriss_body (cfg : SlippageConfig)
    (notional_usd daily_vol_usd : R) (a b : option R) (token : option string) : option R :=
  let a0 := Py.float_or a (a_coeff cfg) in
  let b_effective := Py.float_or b (b_power cfg) in
  let a_effective := match token_entry token with
                     | Some tc => a0 * volatility_factor tc
                     | None => a0
                     end in
  let daily_vol := if Rle_dec daily_vol_usd 0 then 50000000 else daily_vol_usd in
  let volume_ratio := notional_usd / daily_vol in
  match float_pow volume_ratio b_effective with
  | None => None
  | Some p =>
      let impact_pct := a_effective * p in
      let impact_bps := impact_pct * 10000 in
      Some (Rmax (1 / 10) (Rmin impact_bps 1000) / 10000)
  end.

Definition estimate_almgren_chriss_impact (cfg : SlippageConfig)
    (notional_usd daily_vol_usd : R) (a b : option R) (token : option string) : R :=
  match almgren_chriss_body cfg notional_usd daily_vol_usd a b token with
  | Some r => r
  | None => 3 / 1000
  end.

(** *** Depth walk *)

(** A book level is the tuple [(price, available_size)]. *)
Abbreviation level := (R * R)%type (only parsing).

(** The [depth] argument: a list of levels, a dict that may hold the
    keys ['asks'] and ['bids'] (and possibly others), or anything else. *)
Inductive Depth :=
| DepthList (levels : list level)
| DepthDict (asks bids : option (list level)) (other_keys : bool)
| DepthOther.

(** Truth value of [depth] as tested by [if depth and current_price]. *)
Definition truthy_depth (d : option Depth) : bool :=
  match d with
  | None => false
  | Some (DepthList levels) => match levels with [] => false | _ => true end
  | Some (DepthDict asks bids other) =>
      match asks, bids with
      | None, None => other
      | _, _ => true
      end
  | Some DepthOther => true
  end.

Definition is_buy (side : string) : bool := String.eqb side "buy".

(** [sorted(levels, key=lambda x: x[0])]: a stable insertion sort. *)
Fixpoint insert_asc (x : level) (l : list level) : list level :=
  match l with
  | [] => [x]
  | y :: rest => if Rle_dec (fst x) (fst y) then x :: y :: rest
                 else y :: insert_asc x rest
  end.

Definition sorted_asc (l : list level) : list level := fold_right insert_asc [] l.

(** [sorted(levels, key=lambda x: x[0], reverse=True)]: descending, and
    still stable. *)
Fixpoint insert_desc (x : level) (l : list level) : list level :=
  match l with
  | [] => [x]
  | y :: rest => if Rle_dec (fst y) (fst x) then x :: y :: rest
                 else y :: insert_desc x rest
  end.

Definition sorted_desc (l : list level) : list level := fold_right insert_desc [] l.

Definition sort_levels (side : string) (l : list level) : list level :=
  if is_buy side then sorted_asc l else sorted_desc l.

(** The three accumulators of the [for price, available_size in levels] loop. *)
Record walk_state := {
  remaining_size : R;
  total_cost : R;
  total_executed : R
}.

Definition walk_init (size_token : R) : walk_state :=
  {| remaining_size := size_token; total_cost := 0; total_executed := 0 |}.

Fixpoint walk (levels : list level) (st : walk_state) : walk_state :=
  match levels with
  | [] => st
  | (price, available_size) :: rest =>
      if Rle_dec (remaining_size st) 0 then st
      else
        let executed_at_level := Rmin (remaining_size st) available_size in
        walk rest {| remaining_size := remaining_size st - executed_at_level;
                     total_cost := total_cost st + executed_at_level * price;
                     total_executed := total_executed st + executed_at_level |}
  end.

(** The per-level record of the same loop: for every level the loop
    visits before its [break], the level and [executed_at_level]. *)
Fixpoint fills (levels : list level) (remaining : R) : list (level * R) :=
  match levels with
  | [] => []
  | (price, available_size) :: rest =>
      if Rle_dec remaining 0 then []
      else
        let executed_at_level := Rmin remaining available_size in
        ((price, available_size), executed_at_level)
          :: fills rest (remaining - executed_at_level)
  end.

(** Levels that received a positive fill. *)
Definition consumed (fs : list (level * R)) : list level :=
  map fst (List.filter (fun lf => if Rlt_dec 0 (snd lf) then true else false) fs).

(** Totals of a fill record: the filled size and its cost. *)
Definition filled_total (fs : list (level * R)) : R :=
  fold_right (fun f acc => snd f + acc) 0 fs.

Definition filled_cost (fs : list (level * R)) : R :=
  fold_right (fun f acc => snd f * fst (fst f) + acc) 0 fs.

(** A book whose levels have positive prices and non-negative sizes. *)
Definition well_formed_levels (levels : list level) : Prop :=
  Forall (fun l => 0 < fst l /\ 0 <= snd l) levels.

Definition nonneg_sizes (levels : list level) : Prop :=
  Forall (fun l => 0 <= snd l) levels.


(** How [estimate_execution_price_from_depth] left its [try]. *)
Inductive depth_outcome :=
| EmptyBook                      (* "Empty orderbook depth" *)
| NoExecution                    (* "No execution possible with given depth" *)
| Executed (avg_execution_price slippage_pct : R)
| Raised.                        (* the [except Exception] handler *)

Definition depth_levels (depth : Depth) (side : string) : option (list level) :=
  match depth with
  | DepthList levels => Some levels
  | DepthDict asks bids _ =>
      Some (if is_buy side then match asks with Some l => l | None => [] end
            else match bids with Some l => l | None => [] end)
  | DepthOther => None
  end.

Definition depth_outcome_of (size_token : R) (depth : Depth) (side : string)
    (current_price : option R) : depth_outcome :=
  match depth_levels depth side with
  | None => Raised
  | Some [] => EmptyBook
  | Some levels0 =>
      let levels := sort_levels side levels0 in
      let st := walk levels (walk_init size_token) in
      if Req_dec_T (total_executed st) 0 then NoExecution
      else
        let avg_execution_price := total_cost st / total_executed st in
        let raw :=
          match current_price with
          | Some cp =>
              if Req_dec_T cp 0 then None
              else if Rlt_dec 0 cp then
                Some (if is_buy side then (avg_execution_price - cp) / cp
                      else (cp - avg_execution_price) / cp)
              else None
          | None => None
          end in
        let slip :=
          match raw with
          | Some s => Some s
          | None =>
              let best_price := match levels with
                                | l :: _ => fst l
                                | [] => avg_execution_price
                                end in
              if Req_dec_T best_price 0 then None
              else Some (Rabs (avg_execution_price - best_price) / best_price)
          end in
        match slip with
        | None => Raised
        | Some s =>
            let slippage_pct := Rmax 0 (Rmin (Rabs s) (20 / 100)) in
            if Rlt_dec 0 (remaining_size st) then
              let fill_ratio := total_executed st / size_token in
              let penalty := (1 - fill_ratio) * (1 / 10) in
              Executed avg_execution_price (slippage_pct + penalty)
            else Executed avg_execution_price slippage_pct
        end
  end.

Definition estimate_execution_price_from_depth (size_token : R) (depth : Depth)
    (side : string) (current_price : option R) : R * R :=
  match depth_outcome_of size_token depth side current_price with
  | EmptyBook => (Py.float_or current_price 100, 1 / 100)
  | NoExecution => (Py.float_or current_price 100, 5 / 100)
  | Executed p s => (p, s)
  | Raised => (Py.float_or current_price 100 * (101 / 100), 1 / 100)
  end.

(** *** Combined estimate *)

(** The [results] dict: the three optional method entries,
    ['recommended'] and the metadata entries ['notional_usd'], ['token']
    and ['methods_used']. *)
Record combined := {
  sqrt_model : option R;
  almgren_chriss : option R;
  depth_based : option R;
  recommended : R;
  result_notional_usd : R;
  result_token : string;
  methods_used : list string
}.

(** The key of a method entry, when the entry is present. *)
Definition key_if (x : option R) (key : string) : list string :=
  match x with Some _ => [key] | None => [] end.

Definition get0 (x : option R) : R := match x with Some v => v | None => 0 end.
Definition weight_if (x : option R) (w : R) : R := match x with Some _ => w | None => 0 end.

Definition truthy_float (x : option R) : bool :=
  match x with
  | Some v => if Req_dec_T v 0 then false else true
  | None => false
  end.

Definition estimate_combined_slippage (cfg : SlippageConfig) (notional_usd : R)
    (token : string) (adv_usd : option R) (depth : option Depth)
    (current_price : option R) (side : string) : combined :=
  let r_sqrt :=
    match adv_usd with
    | Some adv => if truthy_float adv_usd
                  then Some (estimate_slippage_by_notional cfg notional_usd adv None (Some token))
                  else None
    | None => None
    end in
  let r_ac :=
    match adv_usd with
    | Some adv => if truthy_float adv_usd
                  then Some (estimate_almgren_chriss_impact cfg notional_usd adv None None (Some token))
                  else None
    | None => None
    end in
  let r_depth :=
    match depth, current_price with
    | Some d, Some cp =>
        if (truthy_depth depth && truthy_float current_price)%bool
        then Some (snd (estimate_execution_price_from_depth (notional_usd / cp) d side current_price))
        else None
    | _, _ => None
    end in
  let rec :=
    match r_sqrt, r_ac, r_depth with
    | None, None, None => 1 / 100
    | _, _, _ =>
        let weighted_sum := get0 r_sqrt * (4 / 10) + get0 r_ac * (3 / 10)
                            + get0 r_depth * (3 / 10) in
        let total_weight := weight_if r_sqrt (4 / 10) + weight_if r_ac (3 / 10)
                            + weight_if r_depth (3 / 10) in
        if Rlt_dec 0 total_weight then weighted_sum / total_weight else 1 / 100
    end in
  {| sqrt_model := r_sqrt; almgren_chriss := r_ac; depth_based := r_depth;
     recommended := rec;
     result_notional_usd := notional_usd;
     result_token := token;
     (* [list(results.keys())], taken before ['methods_used'] is stored *)
     methods_used := key_if r_sqrt "sqrt_model" ++ key_if r_ac "almgren_chriss"
                     ++ key_if r_depth "depth_based"
                     ++ ["recommended"; "notional_usd"; "token"]%string |}.

(** *** Basis-point estimate of the API *)

(** [tc.get(key, ...)] on an entry of [token_configs]: the three keys of
    the dict literals, and nothing else. *)
Definition token_config_get (tc : token_config) (key : string) : option R :=
  if String.eqb key "typical_adv_usd" then Some (typical_adv_usd tc)
  else if String.eqb key "depth_multiplier" then Some (depth_multiplier tc)
  else if String.eqb key "volatility_factor" then Some (volatility_factor tc)
  else None.

(** [self.token_configs.get(token, self.token_configs.get('DEFAULT', {}))
    .get(key, d)] *)
Definition token_setting (token key : string) (d : R) : R :=
  match Py.dict_get token_configs token with
  | Some tc => default d (token_config_get tc key)
  | None =>
      match Py.dict_get token_configs "DEFAULT" with
      | Some tc => default d (token_config_get tc key)
      | None => d
      end
  end.

Definition _liquidity_penalty_calculation (token : string) : R :=
  token_setting token "liquidity_penalty_bps" 5.

Definition _volatility_adjustment_calculation (token : string) : R :=
  token_setting token "volatility_adjustment_bps" 3.

(** [self.config.k_sqrt * (trade_size_usd ** 0.5) * self.config.a_coeff] *)
Definition _size_impact_calculation (cfg : SlippageConfig) (trade_size_usd : R)
    : option R :=
  match float_pow trade_size_usd (1 / 2) with
  | Some p => Some (k_sqrt cfg * p * a_coeff cfg)
  | None => None
  end.

Definition _calculate_slippage_bps (cfg : SlippageConfig) (token : string)
    (trade_size_usd : R) : option R :=
  if Rle_dec trade_size_usd 0 then Some 0
  else
    match _size_impact_calculation cfg trade_size_usd with
    | None => None
    | Some size_impact =>
        let liquidity_penalty := _liquidity_penalty_calculation (Py.upper token) in
        let volatility_adjustment := _volatility_adjustment_calculation (Py.upper token) in
        let total_slippage := size_impact + liquidity_penalty + volatility_adjustment in
        let total_slippage := Rmax (min_slippage_bps cfg) total_slippage in
        let total_slippage := Rmin (max_slippage_bps cfg) total_slippage in
        Some total_slippage
    end.

Definition calculate_slippage (cfg : SlippageConfig) (token : string)
    (trade_size_usd : R) : R :=
  match _calculate_slippage_bps cfg token trade_size_usd with
  | Some r => r
  | None => 50
  end.

(** *** Synthetic depth *)

(** "Token-specific depth adjustments" of [generate_synthetic_depth]. *)
Definition scaled_base_size (base_size : R) (token : option string) : R :=
  match token_entry token with
  | Some tc => base_size * depth_multiplier tc
  | None => base_size
  end.

(** [generate_synthetic_depth]; [range(depth_levels)] is empty for a
    count below one. *)
Definition generate_synthetic_depth (mid_price spread_bps : R) (depth_levels : Z)
    (base_size : R) (token : option string) : Depth :=
  let spread_pct := spread_bps / 10000 in
  let bid_price := mid_price * (1 - spread_pct / 2) in
  let ask_price := mid_price * (1 + spread_pct / 2) in
  let base_size := scaled_base_size base_size token in
  let bids := map (fun i => (bid_price * (1 - INR i * (1 / 1000)),
                             base_size * (1 + INR i * (1 / 2))))
                  (seq 0 (Z.to_nat depth_levels)) in
  let asks := map (fun i => (ask_price * (1 + INR i * (1 / 1000)),
                             base_size * (1 + INR i * (1 / 2))))
                  (seq 0 (Z.to_nat depth_levels)) in
  DepthDict (Some asks) (Some bids) false.

(** Price orders of a sorted book. *)
Definition price_asc (a b : level) : Prop := fst a <= fst b.
Definition price_desc (a b : level) : Prop := fst b <= fst a.

End Slippage.

(** ** services/arbitrage_service.py *)

Module Arbitrage.
Local Open Scope Q_scope.

(** The per-venue dicts stored under ['hyperliquid'] and ['jupiter'];
    a field is [None] when the key is absent. *)
Record hl_data := {
  mark_price : option Q;
  funding_rate : option Q;
  hl_other_keys : bool
}.

Record jupiter_data := {
  spot_price : option Q;
  price : option Q;
  jup_other_keys : bool
}.

Record token_data := {
  hyperliquid : option hl_data;
  jupiter : option jupiter_data
}.

(** [not d] for a dict: true exactly when it has no key. *)
Definition hl_empty (d : hl_data) : bool :=
  match mark_price d, funding_rate d with
  | None, None => negb (hl_other_keys d)
  | _, _ => false
  end.

Definition jup_empty (d : jupiter_data) : bool :=
  match spot_price d, price d with
  | None, None => negb (jup_other_keys d)
  | _, _ => false
  end.

Definition get_or0 (x : option Q) : Q := match x with Some v => v | None => 0 end.

(** [hl_data.get('mark_price', 0)] *)
Definition perp_price_of (d : hl_data) : Q := get_or0 (mark_price d).

(** [jupiter_data.get('spot_price', 0) or jupiter_data.get('price', 0)] *)
Definition spot_price_of (d : jupiter_data) : Q :=
  let s := get_or0 (spot_price d) in
  if Qeq_bool s 0 then get_or0 (price d) else s.

Inductive Strategy := long_spot_short_perp | short_spot_long_perp.

Record profit := {
  gross_profit : Q;
  total_fees : Q;
  net_profit : Q;
  roi_pct : Q;
  margin_required : Q
}.

(** The opportunity dict; ['liquidity_score'] (a base-10 logarithm) and
    ['timestamp'] (the clock) are left out. *)
Record opportunity := {
  opp_token : string;
  opp_spot_price : Q;
  opp_perp_price : Q;
  spread_pct : Q;
  spread_abs : Q;
  strategy : Strategy;
  direction : string;
  potential_profit : profit;
  opp_funding_rate : Q
}.

Record service := {
  price_data : gmap string token_data;
  arbitrage_opportunities : list (string * opportunity);
  min_spread_threshold : Q;
  supported_tokens : list string
}.

Definition default_supported_tokens : list string :=
  ["SOL"; "ETH"; "USDC"; "USDT"; "JUP"; "BONK"; "ORCA"; "HL"]%string.

(** [d[key] = v] on an insertion-ordered dict: an existing key keeps
    its place, a new key goes last. *)
Fixpoint dict_set {V : Type} (d : list (string * V)) (key : string) (v : V)
    : list (string * V) :=
  match d with
  | [] => [(key, v)]
  | (k, v0) :: rest =>
      if String.eqb k key then (k, v) :: rest else (k, v0) :: dict_set rest key v
  end.

Definition _calculate_potential_profit (spread : Q) (notional : Q) : profit :=
  let jupiter_fee := notional * (3 # 1000) in
  let hyperliquid_fee := notional * (2 # 10000) in
  let gross := (spread / 100) * notional in
  let fees := jupiter_fee + hyperliquid_fee in
  let net := gross - fees in
  let margin := notional * (1 # 10) in
  {| gross_profit := gross; total_fees := fees; net_profit := net;
     roi_pct := if Qlt_le_dec 0 margin then (net / margin) * 100 else 0;
     margin_required := margin |}.

(** One iteration of the loop of [_calculate_arbitrage_opportunities]:
    the entry written for [token], or [None] when the iteration leaves
    the dict alone. *)
Definition opportunity_for (s : service) (token : string) : option opportunity :=
  match price_data s !! token with
  | None => None
  | Some td =>
      match hyperliquid td, jupiter td with
      | Some hl, Some jd =>
          if (hl_empty hl || jup_empty jd)%bool then None
          else
            let perp := perp_price_of hl in
            let spot := spot_price_of jd in
            if Qlt_le_dec 0 perp then
              if Qlt_le_dec 0 spot then
                let spread := ((perp - spot) / spot) * 100 in
                if Qle_bool (min_spread_threshold s) (Qabs spread) then
                  Some {| opp_token := token;
                          opp_spot_price := spot;
                          opp_perp_price := perp;
                          spread_pct := spread;
                          spread_abs := Qabs spread;
                          strategy := if Qlt_le_dec 0 spread
                                      then long_spot_short_perp
                                      else short_spot_long_perp;
                          direction := if Qlt_le_dec 0 spread
                                       then "Perp overpriced"%string
                                       else "Spot overpriced"%string;
                          potential_profit :=
                            _calculate_potential_profit (Qabs spread) 1000;
                          opp_funding_rate := get_or0 (funding_rate hl) |}
                else None
              else None
            else None
      | _, _ => None
      end
  end.

Definition record_opportunity (s : service) (d : list (string * opportunity))
    (token : string) : list (string * opportunity) :=
  match opportunity_for s token with
  | Some o => dict_set d token o
  | None => d
  end.

Definition _calculate_arbitrage_opportunities (s : service) : service :=
  {| price_data := price_data s;
     arbitrage_opportunities :=
       fold_left (record_opportunity s) (supported_tokens s) [];
     min_spread_threshold := min_spread_threshold s;
     supported_tokens := supported_tokens s |}.

(** [list.sort(key=lambda x: x['spread_abs'], reverse=True)]: descending
    and stable. *)
Fixpoint insert_by_spread (x : opportunity) (l : list opportunity) : list opportunity :=
  match l with
  | [] => [x]
  | y :: rest =>
      if Qle_bool (spread_abs y) (spread_abs x) then x :: y :: rest
      else y :: insert_by_spread x rest
  end.

Definition sort_by_spread (l : list opportunity) : list opportunity :=
  fold_right insert_by_spread [] l.

Definition get_arbitrage_opportunities (s : service) (min_spread : option Q)
    : list opportunity :=
  let opportunities := map snd (arbitrage_opportunities s) in
  let opportunities :=
    match min_spread with
    | Some m => List.filter (fun opp => Qle_bool m (spread_abs opp)) opportunities
    | None => opportunities
    end in
  sort_by_spread opportunities.

(** Ties in the key of the sort broken by token name under the order
    [le]: of two entries with the same absolute spread, the earlier one
    has the [le]-smaller token. *)
Definition ties_in_name_order (le : string -> string -> bool)
    (l : list opportunity) : Prop :=
  forall (l1 l2 l3 : list opportunity) (a b : opportunity),
    l = l1 ++ a :: l2 ++ b :: l3 ->
    spread_abs a == spread_abs b ->
    le (opp_token a) (opp_token b) = true.

(** The order of the sort: the earlier entry has the larger absolute spread. *)
Definition by_spread_desc (a b : opportunity) : Prop := spread_abs b <= spread_abs a.

(** The entries of the sorted list whose key equals [v]. *)
Definition with_spread (v : Q) (l : list opportunity) : list opportunity :=
  List.filter (fun o => Qeq_bool (spread_abs o) v) l.

(** The list that [get_arbitrage_opportunities] sorts: the dict values in
    insertion order, after the optional threshold. *)
Definition selected (s : service) (min_spread : option Q) : list opportunity :=
  match min_spread with
  | Some m => List.filter (fun opp => Qle_bool m (spread_abs opp))
                          (map snd (arbitrage_opportunities s))
  | None => map snd (arbitrage_opportunities s)
  end.

(** Example states.  A token quoted at [perp] on the perpetual venue and
    at [spot] on the spot venue. *)
Definition quoted (perp spot : Q) : token_data :=
  {| hyperliquid := Some {| mark_price := Some perp; funding_rate := None;
                            hl_other_keys := false |};
     jupiter := Some {| spot_price := Some spot; price := Some spot;
                        jup_other_keys := false |} |}.

Definition service_with (quotes : list (string * token_data)) : service :=
  {| price_data := list_to_map quotes;
     arbitrage_opportunities := [];
     min_spread_threshold := 3 # 10;
     supported_tokens := default_supported_tokens |}.

(** Spot 100, perp 100.6, threshold 0.3. *)
Definition sol_state : service :=
  service_with [("SOL"%string, quoted (503 # 5) 100)].

(** Three tokens with the same quotes, hence the same spread. *)
Definition tie_state : service :=
  service_with [("SOL"%string, quoted 101 100); ("ETH"%string, quoted 101 100);
                ("USDC"%string, quoted 101 100)].

(** *** History and overview *)

(** The data point of [_store_historical_data]. *)
Record data_point := {
  dp_timestamp : Z;
  dp_opportunities : nat;
  dp_max_spread : Q;
  dp_avg_spread : Q
}.

(** [[opp['spread_abs'] for opp in self.arbitrage_opportunities.values()]] *)
Definition spreads (s : service) : list Q :=
  map (fun kv => spread_abs (snd kv)) (arbitrage_opportunities s).

(** [max(l)] on a non-empty list: a later item replaces the best so far
    only when it is strictly larger. *)
Definition py_max (x : Q) (l : list Q) : Q :=
  fold_left (fun best y => if Qlt_le_dec best y then y else best) l x.

Definition Qsum (l : list Q) : Q := fold_right Qplus 0 l.

(** [np.mean] of a non-empty list. *)
Definition q_mean (l : list Q) : Q := Qsum l / inject_Z (Z.of_nat (length l)).

Definition _store_historical_data (now : Z) (s : service) (history : list data_point)
    : list data_point :=
  let data_point :=
    match spreads s with
    | [] => {| dp_timestamp := now; dp_opportunities := 0;
               dp_max_spread := 0; dp_avg_spread := 0 |}
    | x :: rest =>
        {| dp_timestamp := now;
           dp_opportunities := length (arbitrage_opportunities s);
           dp_max_spread := py_max x rest;
           dp_avg_spread := q_mean (x :: rest) |}
    end in
  let history := history ++ [data_point] in
  if (1000 <? length history)%nat then Py.last_n 1000 history else history.

(** [max(values, key=lambda x: x['spread_abs'])] on a non-empty list. *)
Definition max_by_spread (x : opportunity) (l : list opportunity) : opportunity :=
  fold_left (fun best y => if Qlt_le_dec (spread_abs best) (spread_abs y)
                           then y else best) l x.

(** The dict of [get_market_overview], without ['last_update'] (the
    price records of this model carry no update time). *)
Record market_overview := {
  total_opportunities : nat;
  max_spread_pct : Q;
  avg_spread_pct : Q;
  top_opportunity : option opportunity;
  supported_count : nat
}.

Definition get_market_overview (s : service) : market_overview :=
  match map snd (arbitrage_opportunities s) with
  | [] => {| total_opportunities := 0; max_spread_pct := 0; avg_spread_pct := 0;
             top_opportunity := None;
             supported_count := length (supported_tokens s) |}
  | x :: rest =>
      {| total_opportunities := length (arbitrage_opportunities s);
         max_spread_pct := py_max (spread_abs x) (map spread_abs rest);
         avg_spread_pct := q_mean (map spread_abs (x :: rest));
         top_opportunity := Some (max_by_spread x rest);
         supported_count := length (supported_tokens s) |}
  end.

(** The keys of the opportunity dict. *)
Definition keys {V : Type} (d : list (string * V)) : list string := map fst d.

End Arbitrage.

(** ** services/bridge_service.py *)

Module Bridge.
Local Open Scope R_scope.

(** *** Execution templates *)

Record ExecutionTemplate := {
  name : string;
  token_pair : string;
  trade_size : R;
  max_latency : R;
  min_spread_bps : R;
  funding_threshold : R;
  preferred_direction : string;
  risk_multiplier : R;
  created_at : R
}.

(** The [template_data] dict that [save_execution_template] expands into
    the keyword arguments of [ExecutionTemplate]:
    one optional entry per dataclass field, and whether the dict holds a
    key that is not a field. *)
Record template_data := {
  td_name : option string;
  td_token_pair : option string;
  td_trade_size : option R;
  td_max_latency : option R;
  td_min_spread_bps : option R;
  td_funding_threshold : option R;
  td_preferred_direction : option string;
  td_risk_multiplier : option R;
  td_created_at : option R;
  td_unknown_keys : bool
}.

(** The dataclass constructor with [__post_init__]; [None] is the
    [TypeError] for a missing required field or an unexpected keyword.
    [now] is [time.time()]. *)
Definition make_template (now : R) (d : template_data) : option ExecutionTemplate :=
  if td_unknown_keys d then None
  else
    match td_name d, td_token_pair d, td_trade_size d, td_max_latency d,
          td_min_spread_bps d, td_funding_threshold d, td_preferred_direction d with
    | Some n, Some tp, Some ts, Some ml, Some ms, Some ft, Some pd =>
        Some {| name := n; token_pair := tp; trade_size := ts; max_latency := ml;
                min_spread_bps := ms; funding_threshold := ft;
                preferred_direction := pd;
                risk_multiplier := match td_risk_multiplier d with
                                   | Some r => r
                                   | None => 1
                                   end;
                created_at := match td_created_at d with
                              | Some t => t
                              | None => now
                              end |}
    | _, _, _, _, _, _, _ => None
    end.

(** [_load_default_templates], created at time [now]. *)
Definition default_templates (now : R) : list ExecutionTemplate :=
  [ {| name := "SOL Scalping"; token_pair := "SOL-USDC"; trade_size := 1000;
       max_latency := 2; min_spread_bps := 30; funding_threshold := - (1 / 100);
       preferred_direction := "auto"; risk_multiplier := 1; created_at := now |};
    {| name := "ETH Conservative"; token_pair := "ETH-USDC"; trade_size := 2000;
       max_latency := 3; min_spread_bps := 50; funding_threshold := - (5 / 1000);
       preferred_direction := "long_perp"; risk_multiplier := 1; created_at := now |};
    {| name := "BTC Large Size"; token_pair := "BTC-USDC"; trade_size := 5000;
       max_latency := 4; min_spread_bps := 40; funding_threshold := - (8 / 1000);
       preferred_direction := "auto"; risk_multiplier := 8 / 10; created_at := now |} ].

(** The store is the list [self.execution_templates]. *)
Definition store : Type := list ExecutionTemplate.

Definition save_execution_template (now : R) (d : template_data) (st : store)
    : bool * store :=
  match make_template now d with
  | Some t => (true, st ++ [t])
  | None => (false, st)
  end.

Definition delete_execution_template (template_name : string) (st : store)
    : bool * store :=
  (true, List.filter (fun t => negb (String.eqb (name t) template_name)) st).

Definition get_execution_templates (st : store) : list ExecutionTemplate := st.

(** A call of the template API. *)
Inductive op :=
| Save (now : R) (d : template_data)
| Delete (template_name : string).

Definition apply_op (st : store) (o : op) : store :=
  match o with
  | Save now d => snd (save_execution_template now d st)
  | Delete n => snd (delete_execution_template n st)
  end.

Definition run (ops : list op) (st : store) : store := fold_left apply_op ops st.

Definition names (st : store) : list string := map name st.

(** Every [Save] of the sequence either fails or brings a name that the
    store does not hold at that moment. *)
Fixpoint saves_fresh (ops : list op) (st : store) : Prop :=
  match ops with
  | [] => True
  | o :: rest =>
      match o with
      | Save now d =>
          match make_template now d with
          | Some t => ~ In (name t) (names st)
          | None => True
          end
      | Delete _ => True
      end /\ saves_fresh rest (apply_op st o)
  end.

(** A complete [template_data] dict with the given name. *)
Definition template_named (n : string) : template_data :=
  {| td_name := Some n; td_token_pair := Some "SOL-USDC"%string;
     td_trade_size := Some 500; td_max_latency := Some 2;
     td_min_spread_bps := Some 25; td_funding_threshold := Some 0;
     td_preferred_direction := Some "auto"%string;
     td_risk_multiplier := None; td_created_at := None;
     td_unknown_keys := false |}.

(** *** Monte Carlo batch simulation *)

(** What [self.arbitrage_service.get_price_data(token)] returns, as the
    [.get] chains of the simulation read it; a field is [None] when the
    key is absent. *)
Record price_view := {
  pv_jupiter_spot : option R;       (* ['jupiter']['spot'] *)
  pv_hyperliquid_mark : option R;   (* ['hyperliquid']['mark'] *)
  pv_funding_rate : option R;       (* ['hyperliquid']['funding_rate'] *)
  pv_fallback_price : option R      (* ['fallback']['price'] *)
}.

(** The optional collaborator; its answer [None] is a falsy (empty) dict. *)
Definition arbitrage_service : Type := option (string -> option price_view).

(** "Get current market data if not provided". *)
Definition resolve_market (svc : arbitrage_service) (token : string)
    (jupiter_price hyperliquid_price funding_rate : option R)
    : option R * option R * option R :=
  match jupiter_price, hyperliquid_price, funding_rate with
  | Some _, Some _, Some _ => (jupiter_price, hyperliquid_price, funding_rate)
  | _, _, _ =>
      match svc with
      | None => (jupiter_price, hyperliquid_price, funding_rate)
      | Some get_price_data =>
          match get_price_data token with
          | Some pv =>
              (Some (Py.float_or jupiter_price
                       (default (default 100 (pv_fallback_price pv)) (pv_jupiter_spot pv))),
               Some (Py.float_or hyperliquid_price
                       (default (default 101 (pv_fallback_price pv)) (pv_hyperliquid_mark pv))),
               Some (Py.float_or funding_rate (default 0 (pv_funding_rate pv))))
          | None =>
              (Some (Py.float_or jupiter_price 100),
               Some (Py.float_or hyperliquid_price 101),
               Some (Py.float_or funding_rate (1 / 10000)))
          end
      end
  end.

(** The four [np.random] samples of one loop iteration, in source order. *)
Record variates := {
  exponential_latency : R;
  normal_slippage : R;
  normal_decay : R;
  exponential_fill_skew : R
}.

(** ['total_fees'] of [_calculate_execution_costs]. *)
Definition total_fees (size : R) : R :=
  let gas_fee_usd := (1 / 10000) * 180 in
  let hyperliquid_fee_usd := size * (3 / 10000) in
  let slippage_usd := size * (2 / 1000) in
  gas_fee_usd + hyperliquid_fee_usd + slippage_usd + 0.

Record draw := {
  pnl_usd : R;
  exec_time_ms : R;
  success : bool
}.

(** Body of [for i in range(n_sims)]; no template is in force there
    (see [simulate_bridge_execution_monte_carlo]). *)
Definition simulate_draw (notional_usd spread_bps funding_rate : R) (v : variates) : draw :=
  let exec_latency := Rmax (exponential_latency v) (2 / 10) in
  let slippage_bps := Rmax (normal_slippage v) (1 / 10) in
  let decay_rate := (4 / 10) * (1 + normal_decay v) in
  let spread_decay := spread_bps * (1 - exp (- decay_rate * exec_latency)) in
  let effective_spread := Rmax (spread_bps - spread_decay) (1 / 10) in
  let fill_skew_risk := exponential_fill_skew v in
  let funding_impact_bps := Rabs funding_rate * (exec_latency / 3600) * 8 * 10000 in
  let gross_pnl_bps := effective_spread - slippage_bps - funding_impact_bps - fill_skew_risk in
  let gross_pnl_usd := (gross_pnl_bps / 10000) * notional_usd in
  let net_pnl := gross_pnl_usd - total_fees notional_usd in
  {| pnl_usd := net_pnl;
     exec_time_ms := exec_latency * 1000;
     success := if Rlt_dec 0 net_pnl then true else false |}.

(** ['simulation_stats']; the order statistics (median, percentiles) and
    the random ['sample_draws'] are left out. *)
Record simulation_stats := {
  n_simulations : Z;
  mean_pnl : R;
  success_probability : R;
  avg_exec_ms : R;
  max_loss : R
}.

(** The dict returned: the statistics, or the payload of the
    [except Exception] handler, which carries ['n_sims']. *)
Inductive mc_result :=
| McStats (stats : simulation_stats)
| McError (n_sims : Z).

Definition Rsum (l : list R) : R := fold_right Rplus 0 l.

Definition np_mean (l : list R) : R := Rsum l / INR (length l).

Definition np_min (x : R) (l : list R) : R := fold_right Rmin x l.

Definition simulate_bridge_execution_monte_carlo (svc : arbitrage_service)
    (rng : nat -> variates) (token : string) (notional_usd : R)
    (template : option string) (n_sims : Z)
    (jupiter_price hyperliquid_price funding_rate : option R) : mc_result :=
  let n_sims := Z.min n_sims 5000 in
  let '(jp, hp, fr) :=
    resolve_market svc token jupiter_price hyperliquid_price funding_rate in
  (* [self.get_execution_template] is not defined: AttributeError *)
  if match template with Some t => Py.truthy_str t | None => false end
  then McError n_sims
  else
    match jp, hp with
    | Some j, Some h =>
        (* ZeroDivisionError in the base spread *)
        if Req_dec_T j 0 then McError n_sims
        else
          let spread_bps := Rabs (j - h) / j * 10000 in
          (* [np.zeros] refuses a negative length *)
          if (n_sims <? 0)%Z then McError n_sims
          else
            match fr with
            | None => McError n_sims          (* [abs(None)] *)
            | Some f =>
                let draws :=
                  map (fun i => simulate_draw notional_usd spread_bps f (rng i))
                      (seq 0 (Z.to_nat n_sims)) in
                match draws with
                | [] => McError n_sims        (* [np.min] of an empty array *)
                | d0 :: rest =>
                    McStats {|
                      n_simulations := n_sims;
                      mean_pnl := np_mean (map pnl_usd draws);
                      success_probability :=
                        np_mean (map (fun d => if success d then 1 else 0) draws);
                      avg_exec_ms := np_mean (map exec_time_ms draws);
                      max_loss := np_min (pnl_usd d0) (map pnl_usd rest) |}
                end
            end
    | _, _ => McError n_sims                  (* [None - ...]: TypeError *)
    end.

(** A generator that returns the same samples at every iteration. *)
Definition constant_rng (i : nat) : variates :=
  {| exponential_latency := 3 / 2; normal_slippage := 5;
     normal_decay := 0; exponential_fill_skew := 3 / 10 |}.

(** *** Structural single-shot simulation *)

(** [str.split(sep)] for a one-character separator. *)
Fixpoint split_on (sep : ascii) (s : string) : list string :=
  match s with
  | EmptyString => [EmptyString]
  | String c rest =>
      if Ascii.eqb c sep then EmptyString :: split_on sep rest
      else match split_on sep rest with
           | w :: ws => String c w :: ws
           | [] => [String c EmptyString]
           end
  end.

(** [needle in hay] on strings. *)
Fixpoint contains (needle hay : string) : bool :=
  if String.prefix needle hay then true
  else match hay with
       | EmptyString => false
       | String _ rest => contains needle rest
       end.

(** [_model_spread_decay]; [None] is the [ZeroDivisionError] of a zero
    spot price. *)
Definition _model_spread_decay (initial_spread_bps latency jupiter_price
    hyperliquid_price : R) : option R :=
  if Req_dec_T jupiter_price 0 then None
  else
    let decay_rate := 3 / 10 in
    let volatility_factor := Rabs (jupiter_price - hyperliquid_price) / jupiter_price in
    let adjusted_decay := decay_rate * (1 + volatility_factor * 2) in
    let spread_decay := initial_spread_bps * (1 - exp (- adjusted_decay * latency)) in
    Some (Rmin spread_decay (initial_spread_bps * (8 / 10))).

Definition _calculate_funding_impact (funding_rate latency position_size : R) : R :=
  if Req_dec_T funding_rate 0 then 0
  else
    let hourly_rate := funding_rate / 8 in
    Rabs (hourly_rate * (latency / 3600) * position_size).

(** One step of the playbook, without its action text. *)
Record playbook_step := {
  step_exchange : string;
  step_estimated_time : R;
  step_size : R;
  step_price : R
}.

(** The playbook, without the formatted risk controls and timeline. *)
Record playbook := {
  strategy_type : string;
  step1 : playbook_step;
  step2 : playbook_step
}.

Definition _generate_execution_playbook (size jupiter_price hyperliquid_price
    expected_latency : R) : playbook :=
  let '(strategy, entry_exchange, exit_exchange) :=
    if Rlt_dec jupiter_price hyperliquid_price
    then ("long_spot_short_perp"%string, "Jupiter"%string, "Hyperliquid"%string)
    else ("short_spot_long_perp"%string, "Hyperliquid"%string, "Jupiter"%string) in
  {| strategy_type := strategy;
     step1 := {| step_exchange := entry_exchange;
                 step_estimated_time := expected_latency * (6 / 10);
                 step_size := size;
                 step_price :=
                   if contains "spot" (nth 1 (split_on "_" strategy) EmptyString)
                   then jupiter_price else hyperliquid_price |};
     step2 := {| step_exchange := exit_exchange;
                 step_estimated_time := expected_latency * (4 / 10);
                 step_size := size;
                 step_price :=
                   if String.eqb exit_exchange "Hyperliquid"
                   then hyperliquid_price else jupiter_price |} |}.

(** ['execution_analysis'], without the 95th percentile of the latency. *)
Record execution_analysis := {
  expected_latency : R;
  spread_decay_bps : R;
  funding_impact_usd : R;
  gross_profit_usd : R;
  net_profit_usd : R;
  risk_adjusted_profit_usd : R;
  is_viable : bool;
  profit_margin_percent : R
}.

(** The result dict of a successful run, without the randomised
    ['risk_metrics']. *)
Record simulation := {
  sim_token : string;
  sim_size : R;
  current_spread_bps : R;
  sim_jupiter_price : R;
  sim_hyperliquid_price : R;
  analysis : execution_analysis;
  costs_total_fees : R;
  execution_playbook : playbook;
  sim_timestamp : Z;
  template_used : option string
}.

Inductive simulation_result :=
| SimOk (s : simulation)
| SimError.

(** [bridge_config] *)
Definition max_bridge_latency : R := 5.
Definition min_profitable_spread : R := 1 / 2.

(** [simulate_bridge_execution] on the history [self.historical_simulations].
    [latency_samples] are the samples of [np.random.gamma], [now_ms] is
    the clock in milliseconds.  The gamma sampler refuses a negative
    scale. *)
Definition simulate_bridge_execution (now_ms : Z) (latency_samples : list R)
    (token : string) (size current_spread jupiter_price hyperliquid_price
    funding_rate : R) (template : option ExecutionTemplate)
    (history : list simulation) : simulation_result * list simulation :=
  let '(max_lat, min_spread, risk_mult) :=
    match template with
    | Some t => (max_latency t, min_spread_bps t, risk_multiplier t)
    | None => (max_bridge_latency, min_profitable_spread, 1)
    end in
  if Rlt_dec (max_lat / 2) 0 then (SimError, history)
  else
    let expected := np_mean latency_samples in
    match _model_spread_decay current_spread expected jupiter_price hyperliquid_price with
    | None => (SimError, history)
    | Some spread_decay =>
        let funding_impact := _calculate_funding_impact funding_rate expected size in
        let fees := total_fees size in
        let gross_profit := (current_spread - spread_decay) * size / 10000 in
        let net_profit := gross_profit - fees - funding_impact in
        let risk_adjusted_profit := net_profit * risk_mult in
        let viable :=
          (if Rlt_dec 0 risk_adjusted_profit then true else false)
          && (if Rle_dec min_spread current_spread then true else false)
          && (if Rle_dec expected max_lat then true else false) in
        let result :=
          {| sim_token := token;
             sim_size := size;
             current_spread_bps := current_spread;
             sim_jupiter_price := jupiter_price;
             sim_hyperliquid_price := hyperliquid_price;
             analysis :=
               {| expected_latency := expected;
                  spread_decay_bps := spread_decay;
                  funding_impact_usd := funding_impact;
                  gross_profit_usd := gross_profit;
                  net_profit_usd := net_profit;
                  risk_adjusted_profit_usd := risk_adjusted_profit;
                  is_viable := viable;
                  profit_margin_percent :=
                    if Rlt_dec 0 size then (risk_adjusted_profit / size) * 100 else 0 |};
             costs_total_fees := fees;
             execution_playbook :=
               _generate_execution_playbook size jupiter_price hyperliquid_price expected;
             sim_timestamp := now_ms;
             template_used := match template with
                              | Some t => Some (name t)
                              | None => None
                              end |} in
        let history := history ++ [result] in
        let history := if (100 <? length history)%nat then Py.last_n 100 history
                       else history in
        (SimOk result, history)
    end.

(** *** Spread bridges *)

Record spread_bridge := {
  start_time : Z;
  end_time : Z;
  bridge_token : string;
  bridge_max_spread_bps : R;
  bridge_min_spread_bps : R;
  total_opportunities : nat;
  total_potential_profit : R;
  avg_latency : R;
  duration_seconds : R;
  avg_potential_profit : R
}.

(** [sorted(recent_sims, key=lambda x: x.get('timestamp', 0))] *)
Fixpoint insert_by_time (x : simulation) (l : list simulation) : list simulation :=
  match l with
  | [] => [x]
  | y :: rest =>
      if (sim_timestamp x <=? sim_timestamp y)%Z then x :: y :: rest
      else y :: insert_by_time x rest
  end.

Definition sort_by_time (l : list simulation) : list simulation :=
  fold_right insert_by_time [] l.

(** A bridge that starts with [sim]. *)
Definition start_bridge (sim : simulation) : spread_bridge :=
  {| start_time := sim_timestamp sim;
     end_time := sim_timestamp sim;
     bridge_token := sim_token sim;
     bridge_max_spread_bps := current_spread_bps sim;
     bridge_min_spread_bps := current_spread_bps sim;
     total_opportunities := 1;
     total_potential_profit := risk_adjusted_profit_usd (analysis sim);
     avg_latency := expected_latency (analysis sim);
     duration_seconds := 0;
     avg_potential_profit := 0 |}.

(** "Extend current bridge". *)
Definition extend_bridge (b : spread_bridge) (sim : simulation) : spread_bridge :=
  {| start_time := start_time b;
     end_time := sim_timestamp sim;
     bridge_token := bridge_token b;
     bridge_max_spread_bps := Rmax (bridge_max_spread_bps b) (current_spread_bps sim);
     bridge_min_spread_bps := Rmin (bridge_min_spread_bps b) (current_spread_bps sim);
     total_opportunities := total_opportunities b + 1;
     total_potential_profit :=
       total_potential_profit b + risk_adjusted_profit_usd (analysis sim);
     avg_latency := (avg_latency b + expected_latency (analysis sim)) / 2;
     duration_seconds := duration_seconds b;
     avg_potential_profit := avg_potential_profit b |}.

(** The two fields written when a bridge ends. *)
Definition close_bridge (b : spread_bridge) : spread_bridge :=
  {| start_time := start_time b;
     end_time := end_time b;
     bridge_token := bridge_token b;
     bridge_max_spread_bps := bridge_max_spread_bps b;
     bridge_min_spread_bps := bridge_min_spread_bps b;
     total_opportunities := total_opportunities b;
     total_potential_profit := total_potential_profit b;
     avg_latency := avg_latency b;
     duration_seconds := IZR (end_time b - start_time b) / 1000;
     avg_potential_profit := total_potential_profit b / INR (total_opportunities b) |}.

(** The loop over the sorted simulations: the bridges closed so far and
    the bridge that is open. *)
Definition bridge_step (acc : list spread_bridge * option spread_bridge)
    (sim : simulation) : list spread_bridge * option spread_bridge :=
  let '(bridges, current) := acc in
  if is_viable (analysis sim) then
    match current with
    | None => (bridges, Some (start_bridge sim))
    | Some b => (bridges, Some (extend_bridge b sim))
    end
  else
    match current with
    | Some b => (bridges ++ [close_bridge b], None)
    | None => (bridges, None)
    end.

(** The simulations of the time window, and of the token when one is
    given; [cutoff_time] is [time.time() - hours * 3600]. *)
Definition recent_simulations (cutoff_time : R) (token : option string)
    (history : list simulation) : list simulation :=
  let recent :=
    List.filter (fun sim => if Rlt_dec cutoff_time (IZR (sim_timestamp sim) / 1000)
                            then true else false) history in
  match token with
  | Some t => if Py.truthy_str t
              then List.filter (fun sim => String.eqb (sim_token sim) t) recent
              else recent
  | None => recent
  end.

Definition get_historical_spread_bridges (cutoff_time : R) (token : option string)
    (history : list simulation) : list spread_bridge :=
  let '(bridges, current) :=
    fold_left bridge_step
              (sort_by_time (recent_simulations cutoff_time token history))
              ([], None) in
  match current with
  | Some b => bridges ++ [close_bridge b]
  | None => bridges
  end.

(** The viable simulations of a list. *)
Definition viable_count (l : list simulation) : nat :=
  length (List.filter (fun sim => is_viable (analysis sim)) l).

Definition opportunities_in (bridges : list spread_bridge) : nat :=
  fold_right (fun b acc => (total_opportunities b + acc)%nat) 0%nat bridges.

(** Time order of simulations. *)
Definition by_time (a b : simulation) : Prop := (sim_timestamp a <= sim_timestamp b)%Z.

(** What the loop keeps true of every bridge: it counts at least one
    opportunity, its spread range and its time range are ordered. *)
Definition bridge_ok (b : spread_bridge) : Prop :=
  (1 <= total_opportunities b)%nat
  /\ bridge_min_spread_bps b <= bridge_max_spread_bps b
  /\ (start_time b <= end_time b)%Z.

Definition open_opportunities (current : option spread_bridge) : nat :=
  match current with Some b => total_opportunities b | None => 0%nat end.

End Bridge.

(** ** services/cache_service.py *)

Module Cache.

Section WithJson.
(** Cached values and their JSON text: [dumps] is
    [json.dumps(value, default=str)], [loads] is [json.loads]; [None]
    is a raised exception. *)
Variable V : Type.
Variable dumps : V -> option string.
Variable loads : string -> option V.

(** The service object.  Time is in whole seconds; an entry of either
    tier is kept with the instant at which it expires.
    [server_up] tells whether a call to the Redis server succeeds
    (otherwise it raises [RedisError]). *)
Record cache := {
  default_ttl : Z;
  local_cache : gmap string (V * Z);
  redis_store : gmap string (string * Z);
  redis_connected : bool;
  server_up : bool
}.

(** [key in self.local_cache] followed by [self.local_cache[key]]. *)
Definition local_get (c : cache) (key : string) (now : Z) : option V :=
  match local_cache c !! key with
  | Some (v, expires) => if (now <? expires)%Z then Some v else None
  | None => None
  end.

(** [self.redis_client.get(key)] on a reachable server. *)
Definition redis_get (c : cache) (key : string) (now : Z) : option string :=
  match redis_store c !! key with
  | Some (s, expires) => if (now <? expires)%Z then Some s else None
  | None => None
  end.

Definition get (c : cache) (key : string) (now : Z) : option V :=
  match local_get c key now with
  | Some v => Some v
  | None =>
      if negb (redis_connected c) then None
      else if negb (server_up c) then None
      else
        match redis_get c key now with
        | Some value => if Py.truthy_str value then loads value else None
        | None => None
        end
  end.

(** How [set] ends: it returns a bool, or an exception leaves it.  The
    handler names [json.JSONEncodeError], which the [json] module does
    not have, so an exception raised inside the [try] is replaced by
    an [AttributeError] that propagates.  Inside the [try], [json.dumps]
    can raise, the server can be unreachable, and the server refuses a
    [setex] whose expiry is not positive (a [ResponseError], which is a
    [RedisError]). *)
Inductive set_result :=
| Returned (ok : bool)
| Raises.

(** [ttl or self.default_ttl] *)
Definition ttl_or (ttl : option Z) (d : Z) : Z :=
  match ttl with
  | Some t => if (t =? 0)%Z then d else t
  | None => d
  end.

Definition set (c : cache) (key : string) (value : V) (ttl : option Z) (now : Z)
    : set_result * cache :=
  if negb (redis_connected c) then (Returned false, c)
  else
    let ttl := ttl_or ttl (default_ttl c) in
    match dumps value with
    | None => (Raises, c)
    | Some json_value =>
        if server_up c then
          if (ttl <=? 0)%Z then (Raises, c)
          else
            (Returned true,
             {| default_ttl := default_ttl c;
                local_cache := local_cache c;
                redis_store := <[key := (json_value, (now + ttl)%Z)]> (redis_store c);
                redis_connected := redis_connected c;
                server_up := server_up c |})
        else (Raises, c)
    end.

(** The object built by [__init__] when the Redis ping fails. *)
Definition init_local_only (ttl : Z) : cache :=
  {| default_ttl := ttl; local_cache := ∅; redis_store := ∅;
     redis_connected := false; server_up := false |}.

(** The object built by [__init__] when the Redis ping succeeds. *)
Definition init_connected (ttl : Z) : cache :=
  {| default_ttl := ttl; local_cache := ∅; redis_store := ∅;
     redis_connected := true; server_up := true |}.

Definition with_redis_store (c : cache) (store : gmap string (string * Z)) : cache :=
  {| default_ttl := default_ttl c; local_cache := local_cache c;
     redis_store := store; redis_connected := redis_connected c;
     server_up := server_up c |}.

(** [delete]: [self.connected] is [self.redis_connected]; the server
    answers with the number of keys removed; a [RedisError] gives
    [False]. *)
Definition delete (c : cache) (key : string) (now : Z) : bool * cache :=
  if negb (redis_connected c) then (false, c)
  else if negb (server_up c) then (false, c)
  else (match redis_get c key now with Some _ => true | None => false end,
        with_redis_store c (base.delete key (redis_store c))).

(** [exists] *)
Definition exists_ (c : cache) (key : string) (now : Z) : bool :=
  if negb (redis_connected c) then false
  else if negb (server_up c) then false
  else match redis_get c key now with Some _ => true | None => false end.

Definition flush_all (c : cache) : bool * cache :=
  if negb (redis_connected c) then (false, c)
  else if negb (server_up c) then (false, c)
  else (true, with_redis_store c ∅).

(** [get_cached_data] *)
Definition get_cached_data (c : cache) (key : string) (default : V) (now : Z) : V :=
  match get c key now with
  | Some result => result
  | None => default
  end.

(** [set_cached_data] *)
Definition set_cached_data (c : cache) (key : string) (data : V) (ttl : option Z)
    (now : Z) : set_result * cache :=
  set c key data ttl now.

(** How a call of the wrapper built by [with_cache] ends: the cached
    value is returned and the function is not called; or the function
    is called and its result returned ([None] is Python's [None]); or
    the function is called and storing its result raises. *)
Inductive wrapper_outcome :=
| Hit (cached_result : V)
| Miss (result : option V)
| MissRaises.

(** The wrapper of [with_cache] for one cache key; [func] is what the
    wrapped function returns if it is called now. *)
Definition with_cache (c : cache) (cache_key : string) (ttl : option Z)
    (func : option V) (now : Z) : wrapper_outcome * cache :=
  match get c cache_key now with
  | Some cached_result => (Hit cached_result, c)
  | None =>
      match func with
      | Some result =>
          match set c cache_key result ttl now with
          | (Returned _, c') => (Miss (Some result), c')
          | (Raises, c') => (MissRaises, c')
          end
      | None => (Miss None, c)
      end
  end.

End WithJson.

End Cache.

(** *** with_exponential_backoff *)

Module Backoff.
Local Open Scope R_scope.

Section Wrapper.
(** [func attempt] is how the wrapped function ends when it is called
    for the given attempt ([None]: it raises); [random attempt] is the
    draw of [random.random()] made after that attempt. *)
Variable A : Type.
Variable max_retries : Z.
Variables base_delay max_delay : R.
Variable jitter : bool.
Variable func : nat -> option A.
Variable random : nat -> R.

Definition delay_for (attempt : nat) : R :=
  let delay := Rmin (base_delay * 2 ^ attempt) max_delay in
  if jitter then delay * (0.5 + random attempt * 0.5) else delay.

(** The [for] loop from [attempt] on, with [fuel] iterations left:
    the value returned ([None]: an exception leaves the wrapper) and
    the delays slept.  Two statements of the handler can raise, and
    their exception leaves the wrapper: [base_delay * (2 ** attempt)]
    raises [OverflowError] once the integer [2 ** attempt] does not fit
    a float (from 2 ** 1024 on), and [time.sleep] raises [ValueError]
    for a negative delay. *)
Fixpoint loop (fuel attempt : nat) : option A * list R :=
  match fuel with
  | O => (None, [])
  | S fuel =>
      match func attempt with
      | Some v => (Some v, [])
      | None =>
          if (Z.of_nat attempt =? max_retries)%Z then (None, [])
          else if (1024 <=? attempt)%nat then (None, [])
          else
            let delay := delay_for attempt in
            if Rlt_dec delay 0 then (None, [])
            else
              let (r, slept) := loop fuel (S attempt) in
              (r, delay :: slept)
      end
  end.

(** [range(max_retries + 1)] *)
Definition wrapper : option A * list R := loop (Z.to_nat (max_retries + 1)) 0.

End Wrapper.

End Backoff.

(** ** services/ws_listener.py *)

Module Listener.
Local Open Scope Z_scope.

Definition mainnet_ws_url : string := "wss://api.hyperliquid.xyz/ws".
Definition testnet_ws_url : string := "wss://api.hyperliquid-testnet.xyz/ws".

(** The fields of [WebSocketListener] that the reconnection logic
    touches, and the local [delay] of [connect]. *)
Record listener := {
  ws_url : string;
  use_testnet_fallback : bool;
  running : bool;
  reconnect_attempts : Z;
  delay : Z
}.

Definition max_reconnect_attempts : Z := 10.
Definition base_delay : Z := 1.
Definition max_delay : Z := 60.

(** [__init__], then [start], then the first line of [connect]. *)
Definition started : listener :=
  {| ws_url := mainnet_ws_url; use_testnet_fallback := false; running := true;
     reconnect_attempts := 0; delay := base_delay |}.

(** What one pass through the [try] of [connect] does. *)
Inductive attempt :=
| ConnectError        (* [websockets.connect] raises *)
| SessionClosed       (* connected, then [ConnectionClosed] *)
| SessionError        (* connected, then another exception *)
| SessionEnded.       (* connected, and [_listen] returns *)

(** [_handle_reconnection]; the sleep is not modelled. *)
Definition _handle_reconnection (l : listener) : listener :=
  let n := reconnect_attempts l + 1 in
  {| ws_url := ws_url l; use_testnet_fallback := use_testnet_fallback l;
     running := if n <? max_reconnect_attempts then running l else false;
     reconnect_attempts := n; delay := delay l |}.

(** The lines after a successful [websockets.connect]. *)
Definition on_connected (l : listener) : listener :=
  {| ws_url := ws_url l; use_testnet_fallback := use_testnet_fallback l;
     running := running l; reconnect_attempts := 0; delay := base_delay |}.

(** "Try testnet fallback if mainnet fails after a few attempts". *)
Definition fallback_switch (l : listener) : listener :=
  if (negb (use_testnet_fallback l) && (3 <=? reconnect_attempts l))%bool then
    {| ws_url := testnet_ws_url; use_testnet_fallback := true;
       running := running l; reconnect_attempts := 0; delay := delay l |}
  else l.

Definition double_delay (l : listener) : listener :=
  {| ws_url := ws_url l; use_testnet_fallback := use_testnet_fallback l;
     running := running l; reconnect_attempts := reconnect_attempts l;
     delay := Z.min (delay l * 2) max_delay |}.

(** [except websockets.exceptions.ConnectionClosed] *)
Definition on_connection_closed (l : listener) : listener :=
  double_delay (_handle_reconnection l).

(** [except Exception] *)
Definition on_exception (l : listener) : listener :=
  double_delay (_handle_reconnection (fallback_switch l)).

(** One iteration of the [while] loop of [connect]; when the guard
    fails the loop has ended and the state stays as it is. *)
Definition iteration (l : listener) (a : attempt) : listener :=
  if (running l && (reconnect_attempts l <? max_reconnect_attempts))%bool then
    match a with
    | ConnectError => on_exception l
    | SessionClosed => on_connection_closed (on_connected l)
    | SessionError => on_exception (on_connected l)
    | SessionEnded => on_connected l
    end
  else l.

Definition connect (attempts : list attempt) (l : listener) : listener :=
  fold_left iteration attempts l.

(** What holds of the listener between two iterations of [connect]. *)
Definition listener_ok (l : listener) : Prop :=
  0 <= reconnect_attempts l <= max_reconnect_attempts
  /\ base_delay <= delay l <= max_delay
  /\ ((use_testnet_fallback l = false /\ ws_url l = mainnet_ws_url)
      \/ (use_testnet_fallback l = true /\ ws_url l = testnet_ws_url))
  /\ (running l = true \/ reconnect_attempts l = max_reconnect_attempts).

(** What holds of a listener that has connected every time. *)
Definition flapping_ok (l : listener) : Prop :=
  running l = true /\ use_testnet_fallback l = false
  /\ ws_url l = mainnet_ws_url
  /\ 0 <= reconnect_attempts l <= 1 /\ 1 <= delay l <= 2.

End Listener.

(** ** Double precision *)

(** Python's float operations on the kernel's binary64 numbers.  A
    decimal literal denotes the nearest double, as in Python. *)
Module Double.
Import Floats.
Local Open Scope float_scope.

(** [min(a, b)]: [b] if [b < a], else [a]. *)
Definition py_min (a b : float) : float := if b <? a then b else a.

(** [max(a, b)]: [b] if [b > a], else [a]. *)
Definition py_max (a b : float) : float := if a <? b then b else a.

(** [x or d] for an optional float: [None] and zero are falsy. *)
Definition float_or (x : option float) (d : float) : float :=
  match x with
  | Some v => if v =? 0 then d else v
  | None => d
  end.

(** The rational number a finite double stands for. *)
Definition to_Q (x : float) : Q :=
  match Prim2SF x with
  | S754_finite s m e =>
      ((if s then (-1) else 1) * inject_Z (Z.pos m) * Qpower 2 e)%Q
  | _ => 0%Q
  end.

End Double.

(** *** estimate_execution_price_from_depth in double precision *)

Module SlippageDouble.
Import Floats Double.
Local Open Scope float_scope.

Abbreviation level := (float * float)%type (only parsing).

Inductive Depth :=
| DepthList (levels : list level)
| DepthDict (asks bids : option (list level)) (other_keys : bool)
| DepthOther.

(** [sorted(levels, key=lambda x: x[0])]: stable; the sort compares keys
    with [<] only. *)
Fixpoint insert_asc (x : level) (l : list level) : list level :=
  match l with
  | [] => [x]
  | y :: rest => if fst y <? fst x then y :: insert_asc x rest
                 else x :: y :: rest
  end.

Definition sorted_asc (l : list level) : list level := fold_right insert_asc [] l.

(** [sorted(levels, key=lambda x: x[0], reverse=True)] *)
Fixpoint insert_desc (x : level) (l : list level) : list level :=
  match l with
  | [] => [x]
  | y :: rest => if fst x <? fst y then y :: insert_desc x rest
                 else x :: y :: rest
  end.

Definition sorted_desc (l : list level) : list level := fold_right insert_desc [] l.

Definition sort_levels (side : string) (l : list level) : list level :=
  if Slippage.is_buy side then sorted_asc l else sorted_desc l.

Record walk_state := {
  remaining_size : float;
  total_cost : float;
  total_executed : float
}.

Definition walk_init (size_token : float) : walk_state :=
  {| remaining_size := size_token; total_cost := 0; total_executed := 0 |}.

(** The [for price, available_size in levels] loop. *)
Fixpoint walk (levels : list level) (st : walk_state) : walk_state :=
  match levels with
  | [] => st
  | (price, available_size) :: rest =>
      if remaining_size st <=? 0 then st
      else
        let executed_at_level := py_min (remaining_size st) available_size in
        walk rest {| remaining_size := remaining_size st - executed_at_level;
                     total_cost := total_cost st + executed_at_level * price;
                     total_executed := total_executed st + executed_at_level |}
  end.

(** The values [executed_at_level] takes, level by level. *)
Fixpoint fills (levels : list level) (remaining : float) : list (level * float) :=
  match levels with
  | [] => []
  | (price, available_size) :: rest =>
      if remaining <=? 0 then []
      else
        let executed_at_level := py_min remaining available_size in
        ((price, available_size), executed_at_level)
          :: fills rest (remaining - executed_at_level)
  end.

Inductive depth_outcome :=
| EmptyBook
| NoExecution
| Executed (avg_execution_price slippage_pct : float)
| Raised.

Definition depth_levels (depth : Depth) (side : string) : option (list level) :=
  match depth with
  | DepthList levels => Some levels
  | DepthDict asks bids _ =>
      Some (if Slippage.is_buy side then match asks with Some l => l | None => [] end
            else match bids with Some l => l | None => [] end)
  | DepthOther => None
  end.

(** A float division raises [ZeroDivisionError] on a zero divisor. *)
Definition depth_outcome_of (size_token : float) (depth : Depth) (side : string)
    (current_price : option float) : depth_outcome :=
  match depth_levels depth side with
  | None => Raised
  | Some [] => EmptyBook
  | Some levels0 =>
      let levels := sort_levels side levels0 in
      let st := walk levels (walk_init size_token) in
      if total_executed st =? 0 then NoExecution
      else
        let avg_execution_price := total_cost st / total_executed st in
        let raw :=
          match current_price with
          | Some cp =>
              if cp =? 0 then None
              else if 0 <? cp then
                Some (if Slippage.is_buy side then (avg_execution_price - cp) / cp
                      else (cp - avg_execution_price) / cp)
              else None
          | None => None
          end in
        let slip :=
          match raw with
          | Some s => Some s
          | None =>
              let best_price := match levels with
                                | l :: _ => fst l
                                | [] => avg_execution_price
                                end in
              if best_price =? 0 then None
              else Some (abs (avg_execution_price - best_price) / best_price)
          end in
        match slip with
        | None => Raised
        | Some s =>
            let slippage_pct := py_max 0 (py_min (abs s) 0.20) in
            if 0 <? remaining_size st then
              if size_token =? 0 then Raised
              else
                let fill_ratio := total_executed st / size_token in
                let penalty := (1 - fill_ratio) * 0.1 in
                Executed avg_execution_price (slippage_pct + penalty)
            else Executed avg_execution_price slippage_pct
        end
  end.

Definition estimate_execution_price_from_depth (size_token : float) (depth : Depth)
    (side : string) (current_price : option float) : float * float :=
  match depth_outcome_of size_token depth side current_price with
  | EmptyBook => (float_or current_price 100, 0.01)
  | NoExecution => (float_or current_price 100, 0.05)
  | Executed p s => (p, s)
  | Raised => (float_or current_price 100 * 1.01, 0.01)
  end.

End SlippageDouble.

(** *** _calculate_arbitrage_opportunities in double precision *)

Module ArbitrageDouble.
Import Floats.
Local Open Scope float_scope.

Record hl_data := {
  mark_price : option float;
  funding_rate : option float;
  hl_other_keys : bool
}.

Record jupiter_data := {
  spot_price : option float;
  price : option float;
  jup_other_keys : bool
}.

Record token_data := {
  hyperliquid : option hl_data;
  jupiter : option jupiter_data
}.

Definition hl_empty (d : hl_data) : bool :=
  match mark_price d, funding_rate d with
  | None, None => negb (hl_other_keys d)
  | _, _ => false
  end.

Definition jup_empty (d : jupiter_data) : bool :=
  match spot_price d, price d with
  | None, None => negb (jup_other_keys d)
  | _, _ => false
  end.

Definition get_or0 (x : option float) : float :=
  match x with Some v => v | None => 0 end.

(** [hl_data.get('mark_price', 0)] *)
Definition perp_price_of (d : hl_data) : float := get_or0 (mark_price d).

(** [jupiter_data.get('spot_price', 0) or jupiter_data.get('price', 0)] *)
Definition spot_price_of (d : jupiter_data) : float :=
  let s := get_or0 (spot_price d) in
  if s =? 0 then get_or0 (price d) else s.

Record profit := {
  gross_profit : float;
  total_fees : float;
  net_profit : float;
  roi_pct : float;
  margin_required : float
}.

(** The opportunity dict; ['liquidity_score'] and ['timestamp'] are
    left out. *)
Record opportunity := {
  opp_token : string;
  opp_spot_price : float;
  opp_perp_price : float;
  spread_pct : float;
  spread_abs : float;
  strategy : Arbitrage.Strategy;
  direction : string;
  potential_profit : profit;
  opp_funding_rate : float
}.

Record service := {
  price_data : gmap string token_data;
  arbitrage_opportunities : list (string * opportunity);
  min_spread_threshold : float;
  supported_tokens : list string
}.

Definition _calculate_potential_profit (spread_pct : float) (notional : float)
    : profit :=
  let jupiter_fee := notional * 0.003 in
  let hyperliquid_fee := notional * 0.0002 in
  let gross_profit := (spread_pct / 100) * notional in
  let total_fees := jupiter_fee + hyperliquid_fee in
  let net_profit := gross_profit - total_fees in
  let margin_required := notional * 0.1 in
  {| gross_profit := gross_profit; total_fees := total_fees;
     net_profit := net_profit;
     roi_pct := if 0 <? margin_required then (net_profit / margin_required) * 100
                else 0;
     margin_required := margin_required |}.

(** One iteration of the loop of [_calculate_arbitrage_opportunities]. *)
Definition opportunity_for (s : service) (token : string) : option opportunity :=
  match price_data s !! token with
  | None => None
  | Some td =>
      match hyperliquid td, jupiter td with
      | Some hl, Some jd =>
          if (hl_empty hl || jup_empty jd)%bool then None
          else
            let perp_price := perp_price_of hl in
            let spot_price := spot_price_of jd in
            if ((0 <? perp_price) && (0 <? spot_price))%bool then
              let spread_pct := ((perp_price - spot_price) / spot_price) * 100 in
              if min_spread_threshold s <=? abs spread_pct then
                Some {| opp_token := token;
                        opp_spot_price := spot_price;
                        opp_perp_price := perp_price;
                        spread_pct := spread_pct;
                        spread_abs := abs spread_pct;
                        strategy := if 0 <? spread_pct
                                    then Arbitrage.long_spot_short_perp
                                    else Arbitrage.short_spot_long_perp;
                        direction := if 0 <? spread_pct
                                     then "Perp overpriced"%string
                                     else "Spot overpriced"%string;
                        potential_profit :=
                          _calculate_potential_profit (abs spread_pct) 1000;
                        opp_funding_rate := get_or0 (funding_rate hl) |}
              else None
            else None
      | _, _ => None
      end
  end.

Definition record_opportunity (s : service) (d : list (string * opportunity))
    (token : string) : list (string * opportunity) :=
  match opportunity_for s token with
  | Some o => Arbitrage.dict_set d token o
  | None => d
  end.

Definition _calculate_arbitrage_opportunities (s : service) : service :=
  {| price_data := price_data s;
     arbitrage_opportunities :=
       fold_left (record_opportunity s) (supported_tokens s) [];
     min_spread_threshold := min_spread_threshold s;
     supported_tokens := supported_tokens s |}.

(** A token quoted at [perp] on the perpetual venue and at [spot] on
    the spot venue, and a service tracking ['SOL'] at these quotes with
    the threshold 0.3. *)
Definition quoted (perp spot : float) : token_data :=
  {| hyperliquid := Some {| mark_price := Some perp; funding_rate := None;
                            hl_other_keys := false |};
     jupiter := Some {| spot_price := Some spot; price := Some spot;
                        jup_other_keys := false |} |}.

Definition sol_quoted (perp spot : float) : service :=
  {| price_data := {[ "SOL"%string := quoted perp spot ]};
     arbitrage_opportunities := [];
     min_spread_threshold := 0.3;
     supported_tokens := Arbitrage.default_supported_tokens |}.

End ArbitrageDouble.


(** * Properties *)

(** Decide the comparisons and minima met while running the model on
    numerals. *)
Ltac decide_reals :=
  repeat match goal with
         | |- context [Rmin ?a ?b] =>
             first [rewrite (Rmin_left a b) by lra | rewrite (Rmin_right a b) by lra]
         | |- context [Rmax ?a ?b] =>
             first [rewrite (Rmax_left a b) by lra | rewrite (Rmax_right a b) by lra]
         | |- context [Rabs ?a] =>
             first [rewrite (Rabs_right a) by lra | rewrite (Rabs_left a) by lra]
         | |- context [Rle_dec ?a ?b] =>
             first [destruct (Rle_dec a b); [| exfalso; lra]
                   | destruct (Rle_dec a b); [exfalso; lra |]]
         | |- context [Rlt_dec ?a ?b] =>
             first [destruct (Rlt_dec a b); [| exfalso; lra]
                   | destruct (Rlt_dec a b); [exfalso; lra |]]
         | |- context [Req_dec_T ?a ?b] =>
             first [destruct (Req_dec_T a b); [| exfalso; lra]
                   | destruct (Req_dec_T a b); [exfalso; lra |]]
         end.

(** ** Square-root slippage *)

Section SqrtSlippage.
Import Slippage.
Local Open Scope R_scope.

Lemma float_or_zero (d : R) : Py.float_or (Some 0) d = d.
Proof.
  unfold Py.float_or. destruct (Req_dec_T 0 0) as [_ | Hne]; [reflexivity | lra].
Qed.

Lemma float_or_none (d : R) : Py.float_or None d = d.
Proof. reflexivity. Qed.

Lemma adv_effective_pos (adv : R) (token : option string) :
  0 < adv_effective adv token.
Proof.
  unfold adv_effective. cbv zeta.
  destruct (Rle_dec _ 0) as [Hle | Hgt]; lra.
Qed.

(** With ordered bounds the [if / elif] is the usual clamp. *)
Lemma apply_bounds_clamp (cfg : SlippageConfig) (x : R) :
  min_slippage_bps cfg <= max_slippage_bps cfg ->
  apply_bounds cfg x = Rmax (min_slippage_bps cfg) (Rmin x (max_slippage_bps cfg)).
Proof.
  intros Hmm. unfold apply_bounds.
  destruct (Rlt_dec x (min_slippage_bps cfg)) as [Hlo | Hlo].
  - rewrite (Rmin_left x) by lra. rewrite (Rmax_right x) by lra.
    rewrite (Rmax_left (min_slippage_bps cfg)) by lra. reflexivity.
  - destruct (Rlt_dec (max_slippage_bps cfg) x) as [Hhi | Hhi].
    + rewrite Rmin_right by lra. rewrite Rmax_right by lra. reflexivity.
    + rewrite Rmin_left by lra. rewrite Rmax_right by lra. reflexivity.
Qed.

Lemma apply_bounds_mono (cfg : SlippageConfig) (x y : R) :
  min_slippage_bps cfg <= max_slippage_bps cfg ->
  x <= y -> apply_bounds cfg x <= apply_bounds cfg y.
Proof.
  intros Hmm Hxy. rewrite !apply_bounds_clamp by assumption.
  apply Rle_max_compat_l. apply Rle_min_compat_r. assumption.
Qed.

Lemma apply_bounds_range (cfg : SlippageConfig) (x : R) :
  min_slippage_bps cfg <= max_slippage_bps cfg ->
  min_slippage_bps cfg <= apply_bounds cfg x <= max_slippage_bps cfg.
Proof.
  intros Hmm. rewrite apply_bounds_clamp by assumption. split.
  - apply Rmax_l.
  - apply Rmax_lub; [assumption | apply Rmin_r].
Qed.

Lemma apply_bounds_inside (cfg : SlippageConfig) (x : R) :
  min_slippage_bps cfg <= x -> x <= max_slippage_bps cfg -> apply_bounds cfg x = x.
Proof.
  intros Hlo Hhi. unfold apply_bounds.
  destruct (Rlt_dec x (min_slippage_bps cfg)); [lra |].
  destruct (Rlt_dec (max_slippage_bps cfg) x); [lra | reflexivity].
Qed.

Lemma estimate_nonneg_notional (cfg : SlippageConfig) (notional adv : R)
    (k : option R) (token : option string) :
  0 <= notional ->
  estimate_slippage_by_notional cfg notional adv k token
  = apply_bounds cfg (raw_bps cfg notional adv k token) / 10000.
Proof.
  intros Hn. unfold estimate_slippage_by_notional, slippage_by_notional_body, raw_bps.
  pose proof (adv_effective_pos adv token) as Hadv.
  destruct (Rlt_dec (notional / adv_effective adv token) 0) as [Hneg | _].
  - exfalso. apply (Rlt_not_le _ _ Hneg).
    apply Rmult_le_pos; [assumption | left; apply Rinv_0_lt_compat; assumption].
  - reflexivity.
Qed.

Lemma sqrt_hundredth : sqrt (1 / 100) = 1 / 10.
Proof. apply sqrt_lem_1; lra. Qed.

Lemma sqrt_ratio_lt (a n1 n2 : R) :
  0 < a -> 0 <= n1 -> n1 < n2 -> sqrt (n1 / a) < sqrt (n2 / a).
Proof.
  intros Ha Hn1 Hlt. apply sqrt_lt_1_alt. split.
  - apply Rmult_le_pos; [assumption | left; apply Rinv_0_lt_compat; assumption].
  - apply Rmult_lt_compat_r; [apply Rinv_0_lt_compat; assumption | assumption].
Qed.

Lemma default_k_effective : k_effective default_config None None = 7 / 10.
Proof. reflexivity. Qed.

Lemma default_adv_effective : adv_effective 1000000 None = 1000000.
Proof.
  unfold adv_effective, token_entry. cbv zeta.
  destruct (Rle_dec 1000000 0); [lra | reflexivity].
Qed.

(** Above 5,102 USD of notional against one million of volume the default
    model is at its cap. *)
Lemma default_estimate_capped (n : R) :
  10000 <= n ->
  estimate_slippage_by_notional default_config n 1000000 None None = 5 / 100.
Proof.
  intros Hn. rewrite estimate_nonneg_notional by lra.
  assert (Hraw : 700 <= raw_bps default_config n 1000000 None None).
  { unfold raw_bps. rewrite default_k_effective, default_adv_effective.
    assert (Hs : 1 / 10 <= sqrt (n / 1000000)).
    { rewrite <- sqrt_hundredth. apply sqrt_le_1_alt. lra. }
    lra. }
  unfold apply_bounds. simpl.
  destruct (Rlt_dec _ (1 / 2)) as [Hlo | _]; [lra |].
  destruct (Rlt_dec 500 _) as [_ | Hhi]; [| lra].
  rewrite Rmin_right by lra. lra.
Qed.

(** C5 (the code at the failing input): with the default configuration
    and one million USD of daily volume, the notionals of the
    repository's own monotonicity test, 10,000, 100,000 and 1,000,000
    USD, all return the capped 0.05, so the estimate does not grow from
    one to the next; the uncapped formula k * sqrt(notional / ADV), which
    the repository's basic test expects at 10,000 USD, gives 0.07. *)
Theorem sqrt_estimate_capped_at_test_sizes :
  estimate_slippage_by_notional default_config 10000 1000000 None None = 5 / 100
  /\ estimate_slippage_by_notional default_config 100000 1000000 None None = 5 / 100
  /\ estimate_slippage_by_notional default_config 1000000 1000000 None None = 5 / 100
  /\ k_sqrt default_config * sqrt (10000 / 1000000) = 7 / 100.
Proof.
  rewrite !default_estimate_capped by lra.
  repeat split.
  replace (10000 / 1000000) with (1 / 100) by lra.
  rewrite sqrt_hundredth. simpl. lra.
Qed.

(** Ten and twenty thousand USD of notional against one million USD of
    daily volume both give the capped 5%. *)
Lemma sqrt_slippage_not_strictly_increasing :
  0 < 1000000 /\ 0 < 10000 < 20000 /\
  ~ (estimate_slippage_by_notional default_config 10000 1000000 None None
     < estimate_slippage_by_notional default_config 20000 1000000 None None).
Proof.
  split; [lra |]. split; [lra |].
  rewrite !default_estimate_capped by lra. lra.
Qed.

(** What does hold of the clamped estimate: with ordered bounds and a
    non-negative effective coefficient, the square-root estimate is
    non-decreasing in the notional; it is strictly increasing between
    two notionals whose unclamped values both lie within the configured
    bounds. *)
Theorem sqrt_slippage_monotone (cfg : SlippageConfig) (adv : R) (k : option R)
    (token : option string) (n1 n2 : R) :
  min_slippage_bps cfg <= max_slippage_bps cfg ->
  0 <= k_effective cfg k token ->
  0 < n1 -> n1 < n2 ->
  estimate_slippage_by_notional cfg n1 adv k token
    <= estimate_slippage_by_notional cfg n2 adv k token
  /\ (0 < k_effective cfg k token ->
      min_slippage_bps cfg <= raw_bps cfg n1 adv k token ->
      raw_bps cfg n2 adv k token <= max_slippage_bps cfg ->
      estimate_slippage_by_notional cfg n1 adv k token
        < estimate_slippage_by_notional cfg n2 adv k token).
Proof.
  intros Hmm Hk Hn1 Hlt.
  rewrite !estimate_nonneg_notional by lra.
  pose proof (sqrt_ratio_lt (adv_effective adv token) n1 n2
                (adv_effective_pos adv token) (Rlt_le _ _ Hn1) Hlt) as Hs.
  assert (Hraw : raw_bps cfg n1 adv k token <= raw_bps cfg n2 adv k token).
  { unfold raw_bps. apply Rmult_le_compat_r; [lra |].
    apply Rmult_le_compat_l; [assumption | lra]. }
  split.
  - apply Rmult_le_compat_r; [lra |]. apply apply_bounds_mono; assumption.
  - intros Hkpos Hlo Hhi.
    rewrite !apply_bounds_inside by lra.
    apply Rmult_lt_compat_r; [lra |].
    unfold raw_bps. apply Rmult_lt_compat_r; [lra |].
    apply Rmult_lt_compat_l; assumption.
Qed.

Lemma sqrt_slippage_monotone_witness :
  estimate_slippage_by_notional default_config 100 1000000 None None
    <= estimate_slippage_by_notional default_config 400 1000000 None None.
Proof.
  apply (sqrt_slippage_monotone default_config 1000000 None None 100 400).
  - simpl. lra.
  - rewrite default_k_effective. lra.
  - lra.
  - lra.
Defined.

(** C10: an explicit coefficient [k = 0] is falsy, so [k or k_sqrt] takes
    the configured default and the estimate equals the one with [k]
    omitted; under the default configuration a notional of 100 against a
    volume of one million then gives 0.7 * sqrt(0.0001) = 0.007, not the
    floor that a zero coefficient would give. *)
Theorem zero_k_is_default :
  (forall (cfg : SlippageConfig) (notional adv : R) (token : option string),
      estimate_slippage_by_notional cfg notional adv (Some 0) token
      = estimate_slippage_by_notional cfg notional adv None token)
  /\ (forall (cfg : SlippageConfig) (token : option string),
         k_effective cfg (Some 0) token = k_effective cfg (Some (k_sqrt cfg)) token)
  /\ estimate_slippage_by_notional default_config 100 1000000 (Some 0) None = 7 / 1000.
Proof.
  assert (Hk : forall cfg token, k_effective cfg (Some 0) token = k_effective cfg None token).
  { intros cfg token. unfold k_effective. rewrite float_or_zero, float_or_none. reflexivity. }
  split; [| split].
  - intros cfg notional adv token.
    unfold estimate_slippage_by_notional, slippage_by_notional_body.
    rewrite Hk. reflexivity.
  - intros cfg token. unfold k_effective. rewrite float_or_zero.
    unfold Py.float_or. destruct (Req_dec_T (k_sqrt cfg) 0) as [Hz | Hnz].
    + rewrite Hz. reflexivity.
    + reflexivity.
  - rewrite estimate_nonneg_notional by lra.
    assert (Hraw : raw_bps default_config 100 1000000 (Some 0) None = 70).
    { unfold raw_bps. rewrite Hk, default_k_effective, default_adv_effective.
      replace (100 / 1000000) with (1 / 100 * (1 / 100)) by lra.
      rewrite sqrt_square by lra. lra. }
    rewrite Hraw. rewrite apply_bounds_inside by (simpl; lra). lra.
Qed.

End SqrtSlippage.

(** ** Depth walk *)

Section DepthWalk.
Import Slippage.
Local Open Scope R_scope.

Lemma insert_asc_Forall (P : level -> Prop) (x : level) (l : list level) :
  P x -> Forall P l -> Forall P (insert_asc x l).
Proof.
  intros Hx Hl. induction Hl as [| y rest Hy Hrest IH]; simpl.
  - constructor; [assumption | constructor].
  - destruct (Rle_dec (fst x) (fst y)).
    + constructor; [assumption | constructor; assumption].
    + constructor; assumption.
Qed.

Lemma insert_desc_Forall (P : level -> Prop) (x : level) (l : list level) :
  P x -> Forall P l -> Forall P (insert_desc x l).
Proof.
  intros Hx Hl. induction Hl as [| y rest Hy Hrest IH]; simpl.
  - constructor; [assumption | constructor].
  - destruct (Rle_dec (fst y) (fst x)).
    + constructor; [assumption | constructor; assumption].
    + constructor; assumption.
Qed.

Lemma sort_levels_Forall (P : level -> Prop) (side : string) (l : list level) :
  Forall P l -> Forall P (sort_levels side l).
Proof.
  intros Hl. unfold sort_levels, sorted_asc, sorted_desc.
  destruct (is_buy side); induction Hl as [| y rest Hy Hrest IH]; simpl;
    try constructor.
  - apply insert_asc_Forall; assumption.
  - apply insert_desc_Forall; assumption.
Qed.

Lemma insert_asc_not_nil (x : level) (l : list level) : insert_asc x l <> [].
Proof. destruct l as [| y rest]; simpl; [| destruct (Rle_dec _ _)]; discriminate. Qed.

Lemma insert_desc_not_nil (x : level) (l : list level) : insert_desc x l <> [].
Proof. destruct l as [| y rest]; simpl; [| destruct (Rle_dec _ _)]; discriminate. Qed.

Lemma sort_levels_not_nil (side : string) (l : list level) :
  l <> [] -> sort_levels side l <> [].
Proof.
  intros Hl. destruct l as [| x rest]; [congruence |].
  unfold sort_levels, sorted_asc, sorted_desc. simpl.
  destruct (is_buy side); [apply insert_asc_not_nil | apply insert_desc_not_nil].
Qed.

(** The accumulators of the loop are the totals of its fill record. *)
Lemma walk_fills (levels : list level) : forall st : walk_state,
  remaining_size (walk levels st)
    = remaining_size st - filled_total (fills levels (remaining_size st))
  /\ total_cost (walk levels st)
    = total_cost st + filled_cost (fills levels (remaining_size st))
  /\ total_executed (walk levels st)
    = total_executed st + filled_total (fills levels (remaining_size st)).
Proof.
  induction levels as [| [price available] rest IH]; intros st; simpl.
  - repeat split; lra.
  - destruct (Rle_dec (remaining_size st) 0) as [Hstop | Hgo]; simpl.
    + repeat split; lra.
    + specialize (IH {| remaining_size := remaining_size st - Rmin (remaining_size st) available;
                        total_cost := total_cost st + Rmin (remaining_size st) available * price;
                        total_executed := total_executed st + Rmin (remaining_size st) available |}).
      simpl in IH. destruct IH as (Hr & Hc & He).
      rewrite Hr, Hc, He. repeat split; lra.
Qed.

Lemma fills_le_available (levels : list level) : forall remaining : R,
  Forall (fun f => snd f <= snd (fst f)) (fills levels remaining).
Proof.
  induction levels as [| [price available] rest IH]; intros remaining; simpl.
  - constructor.
  - destruct (Rle_dec remaining 0); constructor.
    + simpl. apply Rmin_r.
    + apply IH.
Qed.

Lemma fills_total_le (levels : list level) : forall remaining : R,
  0 <= remaining -> filled_total (fills levels remaining) <= remaining.
Proof.
  induction levels as [| [price available] rest IH]; intros remaining Hrem; simpl.
  - assumption.
  - destruct (Rle_dec remaining 0) as [Hstop | Hgo]; simpl; [assumption |].
    pose proof (Rmin_l remaining available) as Hmin.
    specialize (IH (remaining - Rmin remaining available)). lra.
Qed.

Lemma fills_nonneg (levels : list level) : forall remaining : R,
  nonneg_sizes levels -> Forall (fun f => 0 <= snd f) (fills levels remaining).
Proof.
  induction levels as [| [price available] rest IH]; intros remaining Hwf; simpl.
  - constructor.
  - inversion Hwf as [| ? ? Hhd Htl]; subst. simpl in Hhd.
    destruct (Rle_dec remaining 0) as [Hstop | Hgo]; constructor.
    + simpl. apply Rmin_glb; lra.
    + apply IH. assumption.
Qed.

Lemma filled_total_nonneg (fs : list (level * R)) :
  Forall (fun f => 0 <= snd f) fs -> 0 <= filled_total fs.
Proof.
  induction 1 as [| f rest Hf Hrest IH]; simpl in *; lra.
Qed.

(** A record with non-negative fills and no consumed level fills nothing. *)
Lemma consumed_nil_total (fs : list (level * R)) :
  Forall (fun f => 0 <= snd f) fs -> consumed fs = [] -> filled_total fs = 0.
Proof.
  unfold consumed. induction 1 as [| f rest Hf Hrest IH]; simpl in *; intros Hnil.
  - reflexivity.
  - destruct (Rlt_dec 0 (snd f)) as [Hpos | Hzero]; simpl in Hnil.
    + discriminate.
    + rewrite (IH Hnil). lra.
Qed.

(** The cost of a record lies between the bounds of the consumed prices,
    weighted by the filled size. *)
Lemma filled_cost_bounds (lo hi : R) (fs : list (level * R)) :
  Forall (fun f => 0 <= snd f) fs ->
  Forall (fun l => lo <= fst l <= hi) (consumed fs) ->
  lo * filled_total fs <= filled_cost fs <= hi * filled_total fs.
Proof.
  unfold consumed. induction 1 as [| f rest Hf Hrest IH]; simpl in *; intros Hb.
  - lra.
  - destruct (Rlt_dec 0 (snd f)) as [Hpos | Hzero]; simpl in Hb.
    + inversion Hb as [| ? ? Hhd Htl]; subst. specialize (IH Htl).
      destruct Hhd as [Hlo Hhi]. destruct IH as [IHlo IHhi].
      pose proof (Rmult_le_compat_l (snd f) _ _ (Rlt_le _ _ Hpos) Hlo) as H1.
      pose proof (Rmult_le_compat_l (snd f) _ _ (Rlt_le _ _ Hpos) Hhi) as H2.
      split; lra.
    + specialize (IH Hb). assert (snd f = 0) as -> by lra. lra.
Qed.

Lemma consumed_total_pos (fs : list (level * R)) :
  Forall (fun f => 0 <= snd f) fs -> consumed fs <> [] -> 0 < filled_total fs.
Proof.
  intros Hnn Hne.
  pose proof (filled_total_nonneg fs Hnn) as Hge.
  destruct (Req_dec_T (filled_total fs) 0) as [Hz | Hnz]; [| lra].
  exfalso. apply Hne. clear Hne Hge.
  unfold consumed. induction Hnn as [| f rest Hf Hrest IH]; simpl in *.
  - reflexivity.
  - pose proof (filled_total_nonneg rest Hrest) as Hge.
    destruct (Rlt_dec 0 (snd f)) as [Hpos | Hzero]; [lra |].
    apply IH. lra.
Qed.


Lemma sort_levels_nil (side : string) : sort_levels side [] = [].
Proof. unfold sort_levels. destruct (is_buy side); reflexivity. Qed.


(** What the walk has executed, and what is left, in terms of the
    requested size. *)
Lemma walk_init_totals (levels : list level) (size_token : R) :
  total_executed (walk levels (walk_init size_token))
    = filled_total (fills levels size_token)
  /\ total_cost (walk levels (walk_init size_token))
    = filled_cost (fills levels size_token)
  /\ remaining_size (walk levels (walk_init size_token))
    = size_token - filled_total (fills levels size_token).
Proof.
  destruct (walk_fills levels (walk_init size_token)) as (Hr & Hc & He).
  simpl in *. rewrite Hr, Hc, He. repeat split; lra.
Qed.

(** On a well-formed book that fills something, the function leaves
    through its normal exit with the size-weighted average price. *)
Lemma depth_outcome_well_formed (size_token : R) (depth : Depth) (side : string)
    (current_price : option R) (levels0 : list level) :
  depth_levels depth side = Some levels0 ->
  well_formed_levels levels0 ->
  total_executed (walk (sort_levels side levels0) (walk_init size_token)) <> 0 ->
  exists s : R,
    depth_outcome_of size_token depth side current_price
    = Executed (total_cost (walk (sort_levels side levels0) (walk_init size_token))
                / total_executed (walk (sort_levels side levels0) (walk_init size_token))) s.
Proof.
  intros Hlev Hwf Hexec. unfold depth_outcome_of. rewrite Hlev.
  destruct levels0 as [| x rest].
  - rewrite sort_levels_nil in Hexec. simpl in Hexec. lra.
  - cbv zeta.
    pose proof (sort_levels_Forall _ side _ Hwf) as Hsorted.
    pose proof (sort_levels_not_nil side (x :: rest)) as Hnn.
    set (levels := sort_levels side (x :: rest)) in *.
    set (st := walk levels (walk_init size_token)) in *.
    destruct (Req_dec_T (total_executed st) 0) as [Hz | _]; [contradiction |].
    assert (Hbest : forall avg : R,
               match levels with l :: _ => fst l | [] => avg end <> 0).
    { intros avg. destruct levels as [| l tl]; [exfalso; apply Hnn; [discriminate | reflexivity] |].
      inversion Hsorted as [| ? ? [Hp _] _]; subst. lra. }
    destruct current_price as [cp |].
    + destruct (Req_dec_T cp 0) as [Hcz | Hcnz].
      * destruct (Req_dec_T _ 0) as [Hb | _]; [exfalso; exact (Hbest _ Hb) |].
        destruct (Rlt_dec 0 (remaining_size st)); eexists; reflexivity.
      * destruct (Rlt_dec 0 cp) as [Hcpos | Hcneg].
        -- destruct (Rlt_dec 0 (remaining_size st)); eexists; reflexivity.
        -- destruct (Req_dec_T _ 0) as [Hb | _]; [exfalso; exact (Hbest _ Hb) |].
           destruct (Rlt_dec 0 (remaining_size st)); eexists; reflexivity.
    + destruct (Req_dec_T _ 0) as [Hb | _]; [exfalso; exact (Hbest _ Hb) |].
      destruct (Rlt_dec 0 (remaining_size st)); eexists; reflexivity.
Qed.

(** The walk in exact arithmetic: for a requested size above zero and
    the levels of the relevant side, sorted as the function sorts them,
    every level is filled with at most its available size, the fills add
    up to the executed total and to no more than the requested size,
    and, the book being well formed (positive prices, non-negative
    sizes), once a level is consumed the price lies between any bounds
    of the prices of the consumed levels.  The sum and the price bound
    are what the rounding of the running code can break. *)
Theorem depth_walk_sound (size_token : R) (depth : Depth) (side : string)
    (current_price : option R) (levels0 : list level) :
  0 < size_token ->
  depth_levels depth side = Some levels0 ->
  Forall (fun f => snd f <= snd (fst f)) (fills (sort_levels side levels0) size_token)
  /\ total_executed (walk (sort_levels side levels0) (walk_init size_token))
     = filled_total (fills (sort_levels side levels0) size_token)
  /\ filled_total (fills (sort_levels side levels0) size_token) <= size_token
  /\ (well_formed_levels levels0 ->
      consumed (fills (sort_levels side levels0) size_token) <> [] ->
      forall lo hi : R,
        Forall (fun l => lo <= fst l <= hi)
               (consumed (fills (sort_levels side levels0) size_token)) ->
        lo <= fst (estimate_execution_price_from_depth
                     size_token depth side current_price) <= hi).
Proof.
  intros Hsize Hlev.
  destruct (walk_init_totals (sort_levels side levels0) size_token) as (He & Hc & Hr).
  split; [apply fills_le_available |].
  split; [exact He |].
  split; [apply fills_total_le; lra |].
  intros Hwf Hcons lo hi Hbounds.
  assert (Hnn : Forall (fun f => 0 <= snd f) (fills (sort_levels side levels0) size_token)).
  { apply fills_nonneg. apply sort_levels_Forall.
    eapply List.Forall_impl; [| exact Hwf]. simpl. intros l [_ Hs]. exact Hs. }
  pose proof (consumed_total_pos _ Hnn Hcons) as Hpos.
  destruct (depth_outcome_well_formed size_token depth side current_price levels0
              Hlev Hwf) as [s Hout].
  { rewrite He. lra. }
  unfold estimate_execution_price_from_depth. rewrite Hout. simpl.
  rewrite He, Hc.
  destruct (filled_cost_bounds lo hi _ Hnn Hbounds) as [Hlo Hhi].
  set (T := filled_total (fills (sort_levels side levels0) size_token)) in *.
  set (C := filled_cost (fills (sort_levels side levels0) size_token)) in *.
  split.
  - apply (Rmult_le_reg_r T); [assumption |].
    unfold Rdiv. rewrite Rmult_assoc, Rinv_l by lra. lra.
  - apply (Rmult_le_reg_r T); [assumption |].
    unfold Rdiv. rewrite Rmult_assoc, Rinv_l by lra. lra.
Qed.

Lemma is_buy_buy : is_buy "buy" = true.
Proof. reflexivity. Qed.

Lemma two_level_book_fills :
  fills (sort_levels "buy" [(102, 50); (101, 50)]) 100
  = [((101, 50), 50); ((102, 50), 100 - 50)].
Proof.
  unfold sort_levels. rewrite is_buy_buy.
  cbn [sorted_asc fold_right insert_asc fst snd].
  decide_reals. cbn [fills]. decide_reals. reflexivity.
Qed.

Lemma depth_walk_sound_witness :
  101 <= fst (estimate_execution_price_from_depth
                100 (DepthList [(102, 50); (101, 50)]) "buy" None) <= 102.
Proof.
  destruct (depth_walk_sound 100 (DepthList [(102, 50); (101, 50)]) "buy" None
              [(102, 50); (101, 50)]) as (_ & _ & _ & Hprice).
  - lra.
  - reflexivity.
  - apply Hprice.
    + repeat constructor; simpl; lra.
    + rewrite two_level_book_fills. unfold consumed. cbn [List.filter snd].
      decide_reals. discriminate.
    + rewrite two_level_book_fills. unfold consumed. cbn [List.filter snd].
      decide_reals. cbn [map fst]. repeat constructor; simpl; lra.
Defined.

(** The book [(101, 50), (102, 50)] and a buy of 100 tokens: the fill
    price is (50 * 101 + 50 * 102) / 100 = 101.5. *)
Example two_level_book_price :
  fst (estimate_execution_price_from_depth
         100 (DepthList [(101, 50); (102, 50)]) "buy" None) = 203 / 2.
Proof.
  unfold estimate_execution_price_from_depth, depth_outcome_of.
  cbn [depth_levels]. unfold sort_levels. rewrite is_buy_buy.
  repeat (progress (cbn [sorted_asc fold_right insert_asc walk walk_init
                         remaining_size total_cost total_executed fst snd];
                    decide_reals)).
  lra.
Qed.




End DepthWalk.

(** ** The depth walk in double precision *)

Section DepthWalkDouble.
Import Floats Double SlippageDouble.
Local Open Scope float_scope.


End DepthWalkDouble.

(** ** Combined estimate *)

Section Combined.
Import Slippage.
Local Open Scope R_scope.








End Combined.

(** ** Arbitrage detection *)

Section Detector.
Import Arbitrage.
Local Open Scope Q_scope.

Lemma dict_get_set_same {V : Type} (d : list (string * V)) (key : string) (v : V) :
  Py.dict_get (dict_set d key v) key = Some v.
Proof.
  induction d as [| [k v0] rest IH]; simpl.
  - rewrite String.eqb_refl. reflexivity.
  - destruct (String.eqb k key) eqn:E; simpl; rewrite E; [reflexivity | exact IH].
Qed.

Lemma dict_get_set_other {V : Type} (d : list (string * V)) (key key' : string) (v : V) :
  key <> key' -> Py.dict_get (dict_set d key v) key' = Py.dict_get d key'.
Proof.
  intros Hne. induction d as [| [k v0] rest IH]; simpl.
  - destruct (String.eqb key key') eqn:E; [| reflexivity].
    apply String.eqb_eq in E. contradiction.
  - destruct (String.eqb k key) eqn:E; simpl.
    + apply String.eqb_eq in E. subst k.
      destruct (String.eqb key key') eqn:E'; [| reflexivity].
      apply String.eqb_eq in E'. contradiction.
    + rewrite IH. reflexivity.
Qed.

(** After the loop over [tokens], the entry of [token] is the one the
    loop body computes for it, if [token] was visited and the body wrote
    one; otherwise it is what the dict held before. *)
Lemma fold_record_get (s : service) (token : string) (tokens : list string) :
  forall d : list (string * opportunity),
    Py.dict_get (fold_left (record_opportunity s) tokens d) token
    = match opportunity_for s token with
      | Some o => if existsb (String.eqb token) tokens then Some o
                  else Py.dict_get d token
      | None => Py.dict_get d token
      end.
Proof.
  induction tokens as [| t ts IH]; intros d; simpl.
  - destruct (opportunity_for s token); reflexivity.
  - rewrite IH. unfold record_opportunity.
    destruct (String.eqb token t) eqn:E.
    + apply String.eqb_eq in E. subst t.
      destruct (opportunity_for s token) as [o |]; [| reflexivity].
      rewrite dict_get_set_same. simpl. destruct (existsb _ ts); reflexivity.
    + assert (Hne : t <> token).
      { intros ->. rewrite String.eqb_refl in E. discriminate. }
      simpl. destruct (opportunity_for s t) as [o' |].
      * rewrite dict_get_set_other by assumption. reflexivity.
      * reflexivity.
Qed.

Lemma existsb_eqb_In (token : string) (tokens : list string) :
  In token tokens -> existsb (String.eqb token) tokens = true.
Proof.
  intros Hin. apply existsb_exists. exists token. split; [assumption |].
  apply String.eqb_refl.
Qed.

Lemma calculated_entry (s : service) (token : string) :
  In token (supported_tokens s) ->
  Py.dict_get (arbitrage_opportunities (_calculate_arbitrage_opportunities s)) token
  = opportunity_for s token.
Proof.
  intros Hin. unfold _calculate_arbitrage_opportunities. cbn [arbitrage_opportunities].
  rewrite fold_record_get, (existsb_eqb_In _ _ Hin).
  destruct (opportunity_for s token); reflexivity.
Qed.

Lemma positive_perp_nonempty (hl : hl_data) :
  0 < perp_price_of hl -> hl_empty hl = false.
Proof.
  unfold perp_price_of, hl_empty. destruct (mark_price hl); simpl; intros H.
  - reflexivity.
  - exfalso. exact (Qlt_irrefl 0 H).
Qed.

Lemma positive_spot_nonempty (jd : jupiter_data) :
  0 < spot_price_of jd -> jup_empty jd = false.
Proof.
  unfold spot_price_of, jup_empty.
  destruct (spot_price jd), (price jd); simpl; intros H; try reflexivity.
  exfalso. exact (Qlt_irrefl 0 H).
Qed.

(** The detector in exact arithmetic: for a tracked token whose perp
    and spot legs are both present with positive prices, it holds an
    opportunity for the token exactly when the absolute spread reaches
    the threshold; that opportunity carries the spread
    (perp - spot) / spot * 100 and the strategy [long_spot_short_perp]
    for a positive spread, [short_spot_long_perp] for a negative one. *)
Theorem detector_emits_iff_spread (s : service) (token : string)
    (td : token_data) (hl : hl_data) (jd : jupiter_data) :
  In token (supported_tokens s) ->
  price_data s !! token = Some td ->
  hyperliquid td = Some hl -> jupiter td = Some jd ->
  0 < perp_price_of hl -> 0 < spot_price_of jd ->
  ((exists o : opportunity,
       Py.dict_get (arbitrage_opportunities (_calculate_arbitrage_opportunities s)) token
       = Some o)
   <-> min_spread_threshold s
       <= Qabs (((perp_price_of hl - spot_price_of jd) / spot_price_of jd) * 100))
  /\ (forall o : opportunity,
         Py.dict_get (arbitrage_opportunities (_calculate_arbitrage_opportunities s)) token
         = Some o ->
         opp_token o = token
         /\ spread_pct o = ((perp_price_of hl - spot_price_of jd) / spot_price_of jd) * 100
         /\ (0 < spread_pct o -> strategy o = long_spot_short_perp)
         /\ (spread_pct o < 0 -> strategy o = short_spot_long_perp)).
Proof.
  intros Hin Hpd Hhl Hjd Hperp Hspot.
  rewrite (calculated_entry s token Hin).
  unfold opportunity_for. rewrite Hpd, Hhl, Hjd.
  rewrite (positive_perp_nonempty hl Hperp), (positive_spot_nonempty jd Hspot).
  cbn [orb].
  destruct (Qlt_le_dec 0 (perp_price_of hl)) as [_ | Hle];
    [| exfalso; exact (Qlt_not_le _ _ Hperp Hle)].
  destruct (Qlt_le_dec 0 (spot_price_of jd)) as [_ | Hle];
    [| exfalso; exact (Qlt_not_le _ _ Hspot Hle)].
  set (spread := ((perp_price_of hl - spot_price_of jd) / spot_price_of jd) * 100).
  destruct (Qle_bool (min_spread_threshold s) (Qabs spread)) eqn:Hthr.
  - split.
    + split; [intros _; apply Qle_bool_iff; exact Hthr | intros _; eexists; reflexivity].
    + intros o Ho. injection Ho as <-. cbn [opp_token spread_pct strategy].
      repeat split.
      * intros Hpos. destruct (Qlt_le_dec 0 spread) as [_ | Hle]; [reflexivity |].
        exfalso. exact (Qlt_not_le _ _ Hpos Hle).
      * intros Hneg. destruct (Qlt_le_dec 0 spread) as [Hpos | _]; [| reflexivity].
        exfalso. exact (Qlt_irrefl _ (Qlt_trans _ _ _ Hpos Hneg)).
  - split.
    + split.
      * intros [o Ho]. discriminate.
      * intros Hle. apply Qle_bool_iff in Hle. rewrite Hle in Hthr. discriminate.
    + intros o Ho. discriminate.
Qed.

Lemma detector_emits_iff_spread_witness :
  exists o : opportunity,
    Py.dict_get (arbitrage_opportunities (_calculate_arbitrage_opportunities sol_state))
                "SOL" = Some o.
Proof.
  apply (proj1 (detector_emits_iff_spread sol_state "SOL" (quoted (503 # 5) 100)
                  {| mark_price := Some (503 # 5); funding_rate := None;
                     hl_other_keys := false |}
                  {| spot_price := Some 100; price := Some 100;
                     jup_other_keys := false |}
                  ltac:(simpl; auto) ltac:(vm_compute; reflexivity)
                  eq_refl eq_refl ltac:(reflexivity) ltac:(reflexivity))).
  vm_compute. discriminate.
Defined.

(** Spot 100, perp 100.6 and threshold 0.3: one opportunity, long the
    spot and short the perp. *)
Example sol_state_opportunities :
  map (fun o => (opp_token o, strategy o))
      (get_arbitrage_opportunities (_calculate_arbitrage_opportunities sol_state) None)
  = [("SOL"%string, long_spot_short_perp)].
Proof. vm_compute. reflexivity. Qed.

(** ** Ordering of the opportunity list *)

Lemma insert_by_spread_Forall (P : opportunity -> Prop) (x : opportunity)
    (l : list opportunity) :
  P x -> Forall P l -> Forall P (insert_by_spread x l).
Proof.
  intros Hx Hl. induction Hl as [| y rest Hy Hrest IH]; simpl.
  - constructor; [assumption | constructor].
  - destruct (Qle_bool (spread_abs y) (spread_abs x)).
    + constructor; [assumption | constructor; assumption].
    + constructor; assumption.
Qed.

Lemma insert_by_spread_sorted (x : opportunity) (l : list opportunity) :
  StronglySorted by_spread_desc l -> StronglySorted by_spread_desc (insert_by_spread x l).
Proof.
  induction 1 as [| y rest Hsorted IH Hall]; simpl.
  - constructor; constructor.
  - destruct (Qle_bool (spread_abs y) (spread_abs x)) eqn:E.
    + apply Qle_bool_iff in E. constructor.
      * constructor; assumption.
      * constructor; [exact E |].
        eapply List.Forall_impl; [| exact Hall].
        intros z Hz. unfold by_spread_desc in *. eapply Qle_trans; eassumption.
    + constructor; [exact IH |].
      apply insert_by_spread_Forall; [| assumption].
      unfold by_spread_desc. apply Qlt_le_weak, Qnot_le_lt.
      intros Hle. apply Qle_bool_iff in Hle. rewrite Hle in E. discriminate.
Qed.

Lemma sort_by_spread_sorted (l : list opportunity) :
  StronglySorted by_spread_desc (sort_by_spread l).
Proof.
  induction l as [| x rest IH]; simpl.
  - constructor.
  - apply insert_by_spread_sorted. exact IH.
Qed.

(** Insertion keeps the order among entries of one key: the new entry
    goes in front of the entries that share its key. *)
Lemma with_spread_insert (v : Q) (x : opportunity) (l : list opportunity) :
  with_spread v (insert_by_spread x l) = with_spread v (x :: l).
Proof.
  unfold with_spread. induction l as [| y rest IH]; simpl.
  - reflexivity.
  - destruct (Qle_bool (spread_abs y) (spread_abs x)) eqn:E; simpl.
    + reflexivity.
    + rewrite IH. simpl.
      destruct (Qeq_bool (spread_abs y) v) eqn:Ey; [| reflexivity].
      destruct (Qeq_bool (spread_abs x) v) eqn:Ex; [| reflexivity].
      exfalso. apply Qeq_bool_iff in Ey, Ex.
      assert (Hle : spread_abs y <= spread_abs x).
      { rewrite Ey, Ex. apply Qle_refl. }
      apply Qle_bool_iff in Hle. rewrite Hle in E. discriminate.
Qed.

Lemma with_spread_sort (v : Q) (l : list opportunity) :
  with_spread v (sort_by_spread l) = with_spread v l.
Proof.
  induction l as [| x rest IH]; simpl.
  - reflexivity.
  - rewrite with_spread_insert. unfold with_spread in *. simpl. rewrite IH. reflexivity.
Qed.

Lemma insert_by_spread_perm (x : opportunity) (l : list opportunity) :
  Permutation (x :: l) (insert_by_spread x l).
Proof.
  induction l as [| y rest IH]; simpl.
  - apply Permutation_refl.
  - destruct (Qle_bool (spread_abs y) (spread_abs x)).
    + apply Permutation_refl.
    + eapply perm_trans; [apply perm_swap | apply perm_skip; exact IH].
Qed.

Lemma sort_by_spread_perm (l : list opportunity) : Permutation l (sort_by_spread l).
Proof.
  induction l as [| x rest IH]; simpl.
  - apply perm_nil.
  - eapply perm_trans; [apply perm_skip; exact IH | apply insert_by_spread_perm].
Qed.

Lemma tie_state_tokens :
  map opp_token
      (get_arbitrage_opportunities (_calculate_arbitrage_opportunities tie_state) None)
  = ["SOL"; "ETH"; "USDC"]%string.
Proof. vm_compute. reflexivity. Qed.

(** C4, as stated, fails: three tracked tokens with one spread come out
    as SOL, ETH, USDC, the order of the tracked-token list, which is
    neither ascending nor descending by name. *)
Lemma ties_not_in_name_order :
  ~ ties_in_name_order String.leb
      (get_arbitrage_opportunities (_calculate_arbitrage_opportunities tie_state) None)
  /\ ~ ties_in_name_order (fun a b => String.leb b a)
         (get_arbitrage_opportunities (_calculate_arbitrage_opportunities tie_state) None).
Proof.
  remember (get_arbitrage_opportunities
              (_calculate_arbitrage_opportunities tie_state) None) as out eqn:Hout.
  vm_compute in Hout.
  split; intros Hties.
  - match type of Hout with
    | out = [?a; ?b; ?c] =>
        specialize (Hties [] [] [c] a b); rewrite Hout in Hties
    end.
    specialize (Hties eq_refl ltac:(reflexivity)). vm_compute in Hties. discriminate.
  - match type of Hout with
    | out = [?a; ?b; ?c] =>
        specialize (Hties [a] [] [] b c); rewrite Hout in Hties
    end.
    specialize (Hties eq_refl ltac:(reflexivity)). vm_compute in Hties. discriminate.
Qed.

(** C4 (amended): the returned list is the selected opportunities sorted
    by descending absolute spread, and the sort is stable: opportunities
    with one absolute spread keep the order of the opportunity dict,
    that is the order of the tracked-token list, not the order of their
    names. *)
Theorem opportunities_sorted_stable (s : service) (min_spread : option Q) :
  StronglySorted by_spread_desc (get_arbitrage_opportunities s min_spread)
  /\ Permutation (selected s min_spread) (get_arbitrage_opportunities s min_spread)
  /\ (forall v : Q,
         with_spread v (get_arbitrage_opportunities s min_spread)
         = with_spread v (selected s min_spread)).
Proof.
  assert (Hget : get_arbitrage_opportunities s min_spread
                 = sort_by_spread (selected s min_spread)).
  { unfold get_arbitrage_opportunities, selected. destruct min_spread; reflexivity. }
  rewrite Hget. split; [apply sort_by_spread_sorted |].
  split; [apply sort_by_spread_perm | intros v; apply with_spread_sort].
Qed.

End Detector.

(** ** The detector in double precision *)

Section DetectorDouble.
Import Floats Double ArbitrageDouble.
Local Open Scope float_scope.

Lemma fold_set_get {V : Type} (f : string -> option V) (token : string)
    (tokens : list string) :
  forall d : list (string * V),
    Py.dict_get
      (fold_left (fun d t => match f t with
                             | Some o => Arbitrage.dict_set d t o
                             | None => d
                             end) tokens d) token
    = match f token with
      | Some o => if existsb (String.eqb token) tokens then Some o
                  else Py.dict_get d token
      | None => Py.dict_get d token
      end.
Proof.
  induction tokens as [| t ts IH]; intros d; simpl.
  - destruct (f token); reflexivity.
  - rewrite IH.
    destruct (String.eqb token t) eqn:E.
    + apply String.eqb_eq in E. subst t.
      destruct (f token) as [o |]; [| reflexivity].
      rewrite dict_get_set_same. simpl. destruct (existsb _ ts); reflexivity.
    + assert (Hne : t <> token).
      { intros ->. rewrite String.eqb_refl in E. discriminate. }
      simpl. destruct (f t) as [o' |].
      * rewrite dict_get_set_other by assumption. reflexivity.
      * reflexivity.
Qed.

Lemma calculated_entry_double (s : service) (token : string) :
  In token (supported_tokens s) ->
  Py.dict_get (arbitrage_opportunities (_calculate_arbitrage_opportunities s)) token
  = opportunity_for s token.
Proof.
  intros Hin. unfold _calculate_arbitrage_opportunities. cbn [arbitrage_opportunities].
  change (fold_left (record_opportunity s) (supported_tokens s) [])
    with (fold_left (fun d t => match opportunity_for s t with
                                | Some o => Arbitrage.dict_set d t o
                                | None => d
                                end) (supported_tokens s) []).
  rewrite (fold_set_get (opportunity_for s)), (existsb_eqb_In _ _ Hin).
  destruct (opportunity_for s token); reflexivity.
Qed.

Lemma positive_perp_present (hl : hl_data) :
  (0 <? perp_price_of hl) = true -> hl_empty hl = false.
Proof.
  unfold perp_price_of, hl_empty. destruct (mark_price hl); simpl; intros H.
  - reflexivity.
  - vm_compute in H. discriminate.
Qed.

Lemma positive_spot_present (jd : jupiter_data) :
  (0 <? spot_price_of jd) = true -> jup_empty jd = false.
Proof.
  unfold spot_price_of, jup_empty.
  destruct (spot_price jd), (price jd); simpl; intros H; try reflexivity.
  vm_compute in H. discriminate.
Qed.

(** A double below zero is not above zero. *)
Lemma negative_not_positive (x : float) : (x <? 0) = true -> (0 <? x) = false.
Proof.
  rewrite !ltb_spec. change (Prim2SF 0) with (S754_zero false).
  unfold SFltb, SFcompare.
  destruct (Prim2SF x) as [sg | sg | | sg m e]; try discriminate;
    destruct sg; try discriminate; reflexivity.
Qed.

(** C3 (amended): for a tracked token whose perp and spot legs are both
    present with positive prices, the detector holds an opportunity for
    the token exactly when the spread it computes in double precision,
    ((perp - spot) / spot) * 100 with every operation rounded, reaches
    the threshold in absolute value; the opportunity stores that
    computed spread, and its strategy is [long_spot_short_perp] when the
    computed spread is positive, [short_spot_long_perp] when it is
    negative. *)
Theorem detector_emits_iff_computed_spread (s : service) (token : string)
    (td : token_data) (hl : hl_data) (jd : jupiter_data) :
  In token (supported_tokens s) ->
  price_data s !! token = Some td ->
  hyperliquid td = Some hl -> jupiter td = Some jd ->
  (0 <? perp_price_of hl) = true -> (0 <? spot_price_of jd) = true ->
  ((exists o : opportunity,
       Py.dict_get (arbitrage_opportunities (_calculate_arbitrage_opportunities s)) token
       = Some o)
   <-> (min_spread_threshold s
        <=? abs (((perp_price_of hl - spot_price_of jd) / spot_price_of jd) * 100))
       = true)
  /\ (forall o : opportunity,
         Py.dict_get (arbitrage_opportunities (_calculate_arbitrage_opportunities s)) token
         = Some o ->
         opp_token o = token
         /\ spread_pct o = ((perp_price_of hl - spot_price_of jd) / spot_price_of jd) * 100
         /\ spread_abs o = abs (spread_pct o)
         /\ ((0 <? spread_pct o) = true -> strategy o = Arbitrage.long_spot_short_perp)
         /\ ((spread_pct o <? 0) = true -> strategy o = Arbitrage.short_spot_long_perp)).
Proof.
  intros Hin Hpd Hhl Hjd Hperp Hspot.
  rewrite (calculated_entry_double s token Hin).
  unfold opportunity_for. rewrite Hpd, Hhl, Hjd.
  rewrite (positive_perp_present hl Hperp), (positive_spot_present jd Hspot).
  rewrite Hperp, Hspot. cbn [orb andb]. cbv zeta.
  set (spread := ((perp_price_of hl - spot_price_of jd) / spot_price_of jd) * 100).
  destruct (min_spread_threshold s <=? abs spread) eqn:Hthr.
  - split.
    + split; [intros _; reflexivity | intros _; eexists; reflexivity].
    + intros o Ho. injection Ho as <-.
      cbn [opp_token spread_pct spread_abs strategy].
      repeat split.
      * intros Hpos. rewrite Hpos. reflexivity.
      * intros Hneg. rewrite (negative_not_positive spread Hneg). reflexivity.
  - split.
    + split; [intros [o Ho]; discriminate | intros Hle; discriminate].
    + intros o Ho. discriminate.
Qed.

Lemma detector_emits_iff_computed_spread_witness :
  exists o : opportunity,
    Py.dict_get (arbitrage_opportunities
                   (_calculate_arbitrage_opportunities (sol_quoted 100.6 100)))
                "SOL" = Some o.
Proof.
  apply (proj1 (detector_emits_iff_computed_spread (sol_quoted 100.6 100) "SOL"
                  (quoted 100.6 100)
                  {| mark_price := Some 100.6; funding_rate := None;
                     hl_other_keys := false |}
                  {| spot_price := Some 100; price := Some 100;
                     jup_other_keys := false |}
                  ltac:(simpl; auto) ltac:(vm_compute; reflexivity)
                  eq_refl eq_refl ltac:(vm_compute; reflexivity)
                  ltac:(vm_compute; reflexivity))).
  vm_compute. reflexivity.
Defined.

(** C3, as stated, fails of the running code.  With the perp at
    112.6369 and the spot at 112.3 (the doubles these literals denote)
    and the threshold 0.3, the detector holds an opportunity, although
    (perp - spot) / spot * 100 for these very numbers is below the
    threshold.  With the perp at 100.3 and the spot at 100 it holds
    none, although the spread of the quotes as written is 0.3. *)
Theorem computed_spread_differs_at_threshold :
  (Py.dict_get (arbitrage_opportunities
                  (_calculate_arbitrage_opportunities (sol_quoted 112.6369 112.3)))
               "SOL" <> None
   /\ (Qabs (((to_Q 112.6369 - to_Q 112.3) / to_Q 112.3) * 100) < to_Q 0.3)%Q)
  /\ (Py.dict_get (arbitrage_opportunities
                     (_calculate_arbitrage_opportunities (sol_quoted 100.3 100)))
                  "SOL" = None
      /\ ((3 # 10) <= Qabs ((((1003 # 10) - 100) / 100) * 100))%Q).
Proof.
  split; split.
  - vm_compute. discriminate.
  - vm_compute. reflexivity.
  - vm_compute. reflexivity.
  - vm_compute. discriminate.
Qed.

End DetectorDouble.

(** ** Execution templates *)

Section Templates.
Import Bridge.
Local Open Scope R_scope.

Lemma names_app (st1 st2 : store) : names (st1 ++ st2) = names st1 ++ names st2.
Proof. unfold names. apply map_app. Qed.

Lemma delete_removes_name (template_name : string) (st : store) :
  ~ In template_name (names (snd (delete_execution_template template_name st))).
Proof.
  unfold delete_execution_template, names. simpl. intros Hin.
  apply in_map_iff in Hin. destruct Hin as (t & Hname & Ht).
  apply filter_In in Ht. destruct Ht as [_ Hkeep].
  rewrite Hname, String.eqb_refl in Hkeep. discriminate.
Qed.

Lemma NoDup_names_filter (f : ExecutionTemplate -> bool) (st : store) :
  List.NoDup (names st) -> List.NoDup (names (List.filter f st)).
Proof.
  unfold names. induction st as [| t rest IH]; simpl; intros Hnd.
  - constructor.
  - inversion Hnd as [| ? ? Hnotin Hrest]; subst.
    destruct (f t); simpl.
    + constructor; [| apply IH; assumption].
      intros Hin. apply Hnotin. apply in_map_iff in Hin.
      destruct Hin as (t' & Hname & Ht'). apply filter_In in Ht'.
      apply in_map_iff. exists t'. split; [assumption | apply Ht'].
    + apply IH. assumption.
Qed.

Lemma NoDup_snoc (l : list string) (x : string) :
  List.NoDup l -> ~ In x l -> List.NoDup (l ++ [x]).
Proof.
  intros Hnd Hx. induction Hnd as [| y rest Hy Hrest IH]; simpl.
  - constructor; [intros [] | constructor].
  - constructor.
    + intros Hin. apply in_app_or in Hin. destruct Hin as [Hin | [Heq | []]].
      * contradiction.
      * apply Hx. left. symmetry. exact Heq.
    + apply IH. intros Hin. apply Hx. right. exact Hin.
Qed.

Lemma run_keeps_names_unique (ops : list op) : forall st : store,
  List.NoDup (names st) -> saves_fresh ops st -> List.NoDup (names (run ops st)).
Proof.
  induction ops as [| o rest IH]; intros st Hnd Hfresh; simpl in *.
  - exact Hnd.
  - destruct Hfresh as [Ho Hrest]. apply IH; [| exact Hrest].
    destruct o as [now d | n]; simpl.
    + unfold save_execution_template.
      destruct (make_template now d) as [t |]; simpl; [| exact Hnd].
      rewrite names_app. apply NoDup_snoc; assumption.
    + apply NoDup_names_filter. exact Hnd.
Qed.

Lemma default_names (now : R) :
  names (default_templates now) = ["SOL Scalping"; "ETH Conservative"; "BTC Large Size"]%string.
Proof. reflexivity. Qed.

Lemma default_names_unique (now : R) : List.NoDup (names (default_templates now)).
Proof.
  rewrite default_names.
  repeat constructor; simpl; intros H;
    repeat (destruct H as [H | H]; [discriminate H |]); exact H.
Qed.

(** C8, as stated, fails: saving a template called "SOL Scalping" into
    the initial store leaves two templates of that name. *)
Lemma saved_name_can_repeat :
  ~ List.NoDup (names (run [Save 0 (template_named "SOL Scalping")] (default_templates 0))).
Proof.
  intros Hnd.
  change (names (run [Save 0 (template_named "SOL Scalping")] (default_templates 0)))
    with ["SOL Scalping"; "ETH Conservative"; "BTC Large Size"; "SOL Scalping"]%string
    in Hnd.
  inversion Hnd as [| ? ? Hnotin _]; subst.
  apply Hnotin. simpl. auto.
Qed.

(** C8 (amended): [save_execution_template] appends without looking at
    the names, so the store holds one template per name only as long as
    every saved name is new: from the initial store, or any store with
    distinct names, a sequence of operations whose saves bring new names
    keeps the names distinct; and [delete_execution_template] leaves no
    template of the deleted name. *)
Theorem template_names_unique_if_fresh :
  (forall now : R, List.NoDup (names (default_templates now)))
  /\ (forall (ops : list op) (st : store),
         List.NoDup (names st) -> saves_fresh ops st -> List.NoDup (names (run ops st)))
  /\ (forall (template_name : string) (st : store),
         ~ In template_name
              (names (snd (delete_execution_template template_name st)))).
Proof.
  split; [exact default_names_unique |].
  split; [intros ops st; apply run_keeps_names_unique |].
  exact delete_removes_name.
Qed.

Lemma template_names_unique_if_fresh_witness :
  List.NoDup (names (run [Save 0 (template_named "JUP Momentum"); Delete "SOL Scalping"]
                    (default_templates 0))).
Proof.
  destruct template_names_unique_if_fresh as (Hinit & Hrun & _).
  apply Hrun.
  - apply Hinit.
  - simpl. repeat split.
    intros H. repeat (destruct H as [H | H]; [discriminate H |]). exact H.
Defined.

End Templates.

(** ** Monte Carlo sample count *)

Section MonteCarlo.
Import Bridge.
Local Open Scope R_scope.

Lemma resolve_market_given (svc : arbitrage_service) (token : string) (j h f : R) :
  resolve_market svc token (Some j) (Some h) (Some f) = (Some j, Some h, Some f).
Proof. reflexivity. Qed.

Lemma seq_nonempty_pos (m : Z) :
  seq 0 (Z.to_nat m) <> [] -> (1 <= m)%Z.
Proof.
  intros Hne. destruct (Z.to_nat m) eqn:E; [contradiction Hne; reflexivity | lia].
Qed.

(** C1, as stated, fails: a request for 0 samples is not raised to 1; the
    empty sample arrays make [np.min] raise, and the call returns the error
    payload with [n_sims = 0] and no [n_simulations] at all. *)
Lemma zero_samples_not_clamped :
  simulate_bridge_execution_monte_carlo None constant_rng "SOL" 1000 None 0
    (Some 150) (Some (303 / 2)) (Some (2 / 10000)) = McError 0
  /\ ~ (exists stats : simulation_stats,
          simulate_bridge_execution_monte_carlo None constant_rng "SOL" 1000 None 0
            (Some 150) (Some (303 / 2)) (Some (2 / 10000)) = McStats stats
          /\ (1 <= n_simulations stats <= 5000)%Z).
Proof.
  assert (Hrun : simulate_bridge_execution_monte_carlo None constant_rng "SOL" 1000
                   None 0 (Some 150) (Some (303 / 2)) (Some (2 / 10000)) = McError 0).
  { unfold simulate_bridge_execution_monte_carlo. rewrite resolve_market_given.
    destruct (Req_dec_T 150 0); [lra | reflexivity]. }
  split; [exact Hrun |].
  intros [stats [Hstats _]]. rewrite Hrun in Hstats. discriminate.
Qed.

(** C1 (amended): the requested count is only capped, at 5000.  Whenever
    the result carries [simulation_stats], its [n_simulations] equals
    min(n, 5000) and lies in [1, 5000]; a request with n >= 1, the three
    market inputs given, a non-zero spot price and no template does
    return statistics; a request with n <= 0 returns the error payload,
    whose [n_sims] is n itself. *)
Theorem monte_carlo_n_simulations (svc : arbitrage_service) (rng : nat -> variates)
    (token : string) (notional_usd : R) (template : option string) (n : Z)
    (jupiter_price hyperliquid_price funding_rate : option R) :
  (forall stats : simulation_stats,
      simulate_bridge_execution_monte_carlo svc rng token notional_usd template n
        jupiter_price hyperliquid_price funding_rate = McStats stats ->
      n_simulations stats = Z.min n 5000 /\ (1 <= n_simulations stats <= 5000)%Z)
  /\ (forall j h f : R,
         (1 <= n)%Z -> template = None ->
         jupiter_price = Some j -> hyperliquid_price = Some h ->
         funding_rate = Some f -> j <> 0 ->
         exists stats : simulation_stats,
           simulate_bridge_execution_monte_carlo svc rng token notional_usd template n
             jupiter_price hyperliquid_price funding_rate = McStats stats)
  /\ ((n <= 0)%Z ->
      simulate_bridge_execution_monte_carlo svc rng token notional_usd template n
        jupiter_price hyperliquid_price funding_rate = McError n).
Proof.
  split; [| split].
  - intros stats. unfold simulate_bridge_execution_monte_carlo.
    destruct (resolve_market _ _ _ _ _) as [[jp hp] fr].
    destruct (match template with Some t => Py.truthy_str t | None => false end);
      [discriminate |].
    destruct jp as [j |]; [| discriminate].
    destruct hp as [h |]; [| discriminate].
    destruct (Req_dec_T j 0); [discriminate |].
    destruct (Z.min n 5000 <? 0)%Z; [discriminate |].
    destruct fr as [f |]; [| discriminate].
    destruct (map _ (seq 0 (Z.to_nat (Z.min n 5000)))) as [| d0 rest] eqn:Hdraws;
      [discriminate |].
    intros Hres. injection Hres as <-. cbn [n_simulations].
    split; [reflexivity |]. split; [| lia].
    apply seq_nonempty_pos. intros Hnil. rewrite Hnil in Hdraws. discriminate.
  - intros j h f Hn -> -> -> -> Hj.
    unfold simulate_bridge_execution_monte_carlo. rewrite resolve_market_given.
    destruct (Req_dec_T j 0); [contradiction |].
    destruct (Z.min n 5000 <? 0)%Z eqn:Hneg; [lia |].
    destruct (Z.to_nat (Z.min n 5000)) as [| k] eqn:Hk; [lia |].
    simpl. eexists. reflexivity.
  - intros Hn. unfold simulate_bridge_execution_monte_carlo.
    rewrite (Z.min_l n 5000) by lia.
    destruct (resolve_market _ _ _ _ _) as [[jp hp] fr].
    destruct (match template with Some t => Py.truthy_str t | None => false end);
      [reflexivity |].
    destruct jp as [j |]; [| reflexivity].
    destruct hp as [h |]; [| reflexivity].
    destruct (Req_dec_T j 0); [reflexivity |].
    destruct (n <? 0)%Z eqn:Hneg; [reflexivity |].
    destruct fr as [f |]; [| reflexivity].
    assert (Hz : Z.to_nat n = 0%nat) by lia. rewrite Hz. reflexivity.
Qed.

Lemma monte_carlo_n_simulations_witness :
  exists stats : simulation_stats,
    simulate_bridge_execution_monte_carlo None constant_rng "SOL" 1000 None 10000
      (Some 150) (Some (303 / 2)) (Some (2 / 10000)) = McStats stats
    /\ n_simulations stats = 5000%Z.
Proof.
  destruct (monte_carlo_n_simulations None constant_rng "SOL" 1000 None 10000
              (Some 150) (Some (303 / 2)) (Some (2 / 10000))) as (Hcount & Hruns & _).
  destruct (Hruns 150 (303 / 2) (2 / 10000)) as [stats Hstats];
    [lia | reflexivity | reflexivity | reflexivity | reflexivity | lra |].
  exists stats. split; [exact Hstats |].
  destruct (Hcount stats Hstats) as [Hmin _]. rewrite Hmin. reflexivity.
Defined.

End MonteCarlo.

(** ** Cache tiers *)

Section CacheTiers.
Import Cache.
Local Open Scope Z_scope.

Variable V : Type.
Variable dumps : V -> option string.
Variable loads : string -> option V.

(** No path through [set] writes [self.local_cache]. *)
Lemma set_keeps_local_tier (c : cache V) (key : string) (value : V)
    (ttl : option Z) (now : Z) :
  local_cache V (snd (set V dumps c key value ttl now)) = local_cache V c.
Proof.
  unfold set. destruct (redis_connected V c); simpl; [| reflexivity].
  destruct (dumps value); [| reflexivity].
  destruct (server_up V c); [| reflexivity].
  destruct (ttl_or ttl (default_ttl V c) <=? 0); reflexivity.
Qed.

(** Without a connected remote tier [set] stores nothing. *)
Lemma set_disconnected (c : cache V) (key : string) (value : V)
    (ttl : option Z) (now : Z) :
  redis_connected V c = false ->
  set V dumps c key value ttl now = (Returned false, c).
Proof. intros Hoff. unfold set. rewrite Hoff. reflexivity. Qed.

Lemma get_disconnected (c : cache V) (key : string) (now : Z) :
  redis_connected V c = false ->
  get V loads c key now = local_get V c key now.
Proof.
  intros Hoff. unfold get. rewrite Hoff.
  destruct (local_get V c key now); reflexivity.
Qed.

End CacheTiers.

(** C2 (the code at the failing input): on the cache that [__init__]
    builds when Redis cannot be reached, [set] of a key returns [False]
    and changes nothing, and a [get] of the same key one second later,
    well within the TTL of 5 seconds, returns [None]. *)
Theorem set_then_get_local_only (V : Type) (dumps : V -> option string)
    (loads : string -> option V) (value : V) :
  Cache.set V dumps (Cache.init_local_only V 7) "prices:SOL" value (Some 5%Z) 0%Z
  = (Cache.Returned false, Cache.init_local_only V 7)
  /\ Cache.get V loads
       (snd (Cache.set V dumps (Cache.init_local_only V 7) "prices:SOL" value (Some 5%Z) 0%Z))
       "prices:SOL" 1%Z
     = None.
Proof. split; reflexivity. Qed.

(** ** Reconnection *)

Section Reconnection.
Import Listener.
Local Open Scope Z_scope.

Lemma three_failures :
  connect [ConnectError; ConnectError; ConnectError] started
  = {| ws_url := mainnet_ws_url; use_testnet_fallback := false; running := true;
       reconnect_attempts := 3; delay := 8 |}.
Proof. reflexivity. Qed.

(** C9 (the code at the failing input): four consecutive failed
    connection attempts from the start.  The handler of the fourth
    failure switches to the testnet endpoint and sets the counter to 0,
    and before it returns [_handle_reconnection] counts the failure, so
    the next attempt starts on the testnet endpoint with the counter at
    1. *)
Theorem four_failures_counter :
  fallback_switch (connect [ConnectError; ConnectError; ConnectError] started)
  = {| ws_url := testnet_ws_url; use_testnet_fallback := true; running := true;
       reconnect_attempts := 0; delay := 8 |}
  /\ connect [ConnectError; ConnectError; ConnectError; ConnectError] started
     = {| ws_url := testnet_ws_url; use_testnet_fallback := true; running := true;
          reconnect_attempts := 1; delay := 16 |}.
Proof. split; reflexivity. Qed.

End Reconnection.


(** * Further properties of the services *)

(** ** Slippage model: the basis-point estimate *)

Section SlippageBps.
Import Slippage.
Local Open Scope R_scope.

(** No entry of [token_configs] holds a penalty or adjustment key. *)
Lemma token_setting_default (token key : string) (d : R) :
  String.eqb key "typical_adv_usd" = false ->
  String.eqb key "depth_multiplier" = false ->
  String.eqb key "volatility_factor" = false ->
  token_setting token key d = d.
Proof.
  intros H1 H2 H3. unfold token_setting, token_config_get.
  rewrite H1, H2, H3.
  destruct (Py.dict_get token_configs token); [reflexivity |].
  destruct (Py.dict_get token_configs "DEFAULT"); reflexivity.
Qed.

Lemma float_pow_half (x : R) : 0 < x -> float_pow x (1 / 2) = Some (sqrt x).
Proof.
  intros Hx. unfold float_pow. destruct (Rlt_dec 0 x) as [_ | Hn]; [| contradiction].
  replace (1 / 2) with (/ 2) by lra. rewrite Rpower_sqrt by assumption. reflexivity.
Qed.

(** The value for a positive trade size. *)
Lemma calculate_slippage_value (cfg : SlippageConfig) (token : string) (size : R) :
  0 < size ->
  calculate_slippage cfg token size
  = Rmin (max_slippage_bps cfg)
         (Rmax (min_slippage_bps cfg) (k_sqrt cfg * sqrt size * a_coeff cfg + 5 + 3)).
Proof.
  intros Hs. unfold calculate_slippage, _calculate_slippage_bps, _size_impact_calculation.
  destruct (Rle_dec size 0) as [Hle | _]; [lra |].
  rewrite (float_pow_half size Hs).
  unfold _liquidity_penalty_calculation, _volatility_adjustment_calculation.
  rewrite !token_setting_default by reflexivity. reflexivity.
Qed.

(** X1: [calculate_slippage] returns 0 bps for a non-positive trade size;
    for a positive one the result lies within the configured bounds when
    they are ordered, and it does not decrease when the trade grows,
    provided the product of the two coefficients is not negative. *)
Theorem calculate_slippage_bounded (cfg : SlippageConfig) (token : string) :
  (forall size : R, size <= 0 -> calculate_slippage cfg token size = 0)
  /\ (forall size : R,
         0 < size -> min_slippage_bps cfg <= max_slippage_bps cfg ->
         min_slippage_bps cfg <= calculate_slippage cfg token size <= max_slippage_bps cfg)
  /\ (forall s1 s2 : R,
         0 <= k_sqrt cfg * a_coeff cfg -> 0 < s1 -> s1 <= s2 ->
         calculate_slippage cfg token s1 <= calculate_slippage cfg token s2).
Proof.
  split; [| split].
  - intros size Hs. unfold calculate_slippage, _calculate_slippage_bps.
    destruct (Rle_dec size 0); [reflexivity | contradiction].
  - intros size Hs Hmm. rewrite calculate_slippage_value by assumption.
    set (x := k_sqrt cfg * sqrt size * a_coeff cfg + 5 + 3).
    split.
    + apply Rmin_glb; [assumption | apply Rmax_l].
    + apply Rmin_l.
  - intros s1 s2 Hka Hs1 Hle. rewrite !calculate_slippage_value by lra.
    apply Rle_min_compat_l. apply Rle_max_compat_l.
    assert (Hsq : sqrt s1 <= sqrt s2) by (apply sqrt_le_1_alt; assumption).
    assert (H0 : 0 <= sqrt s1) by apply sqrt_pos.
    nra.
Qed.

Lemma calculate_slippage_bounded_witness :
  min_slippage_bps default_config
    <= calculate_slippage default_config "SOL" 10000
    <= max_slippage_bps default_config.
Proof.
  destruct (calculate_slippage_bounded default_config "SOL") as (_ & Hrange & _).
  apply Hrange; simpl; lra.
Defined.

(** The token passed to [calculate_slippage] has no effect: no token
    configuration holds a liquidity penalty or a volatility adjustment, so
    every token gets the defaults of 5 and 3 bps on top of the size
    impact. *)
Theorem calculate_slippage_ignores_token (cfg : SlippageConfig) (t1 t2 : string)
    (size : R) :
  calculate_slippage cfg t1 size = calculate_slippage cfg t2 size.
Proof.
  unfold calculate_slippage, _calculate_slippage_bps.
  unfold _liquidity_penalty_calculation, _volatility_adjustment_calculation.
  rewrite !token_setting_default by reflexivity. reflexivity.
Qed.

End SlippageBps.

(** ** Slippage model: volume-based estimators *)

Section VolumeEstimators.
Import Slippage.
Local Open Scope R_scope.

Lemma dict_get_In {V : Type} (d : list (string * V)) (key : string) (v : V) :
  Py.dict_get d key = Some v -> In v (map snd d).
Proof.
  induction d as [| [k v0] rest IH]; simpl; [discriminate |].
  destruct (String.eqb k key).
  - intros H. injection H as ->. left. reflexivity.
  - intros H. right. apply IH. exact H.
Qed.

(** Every configured token has a positive volatility factor, a positive
    typical volume and a positive depth multiplier. *)
Lemma token_entry_positive (token : option string) (tc : token_config) :
  token_entry token = Some tc ->
  0 < volatility_factor tc /\ 0 < typical_adv_usd tc /\ 0 < depth_multiplier tc.
Proof.
  intros Hentry.
  assert (Hin : In tc (map snd token_configs)).
  { unfold token_entry in Hentry. destruct token as [t |]; [| discriminate].
    destruct (Py.truthy_str t); [| discriminate].
    eapply dict_get_In. exact Hentry. }
  simpl in Hin.
  repeat (destruct Hin as [<- | Hin]; [simpl; repeat split; lra |]).
  contradiction.
Qed.

(** X2: the power-law impact does not decrease when the notional grows
    (coefficient and exponent in force not negative), and a daily volume
    that is zero or negative is replaced by 50 million USD. *)
Theorem almgren_chriss_monotone (cfg : SlippageConfig) (a b : option R)
    (token : option string) :
  (forall vol n1 n2 : R,
      0 <= Py.float_or a (a_coeff cfg) -> 0 <= Py.float_or b (b_power cfg) ->
      0 < n1 -> n1 <= n2 ->
      estimate_almgren_chriss_impact cfg n1 vol a b token
        <= estimate_almgren_chriss_impact cfg n2 vol a b token)
  /\ (forall vol n : R,
         vol <= 0 ->
         estimate_almgren_chriss_impact cfg n vol a b token
         = estimate_almgren_chriss_impact cfg n 50000000 a b token).
Proof.
  split.
  - intros vol n1 n2 Ha Hb Hn1 Hle.
    unfold estimate_almgren_chriss_impact, almgren_chriss_body. cbv zeta.
    set (dv := if Rle_dec vol 0 then 50000000 else vol).
    assert (Hdv : 0 < dv) by (unfold dv; destruct (Rle_dec vol 0); lra).
    set (ae := match token_entry token with
               | Some tc => Py.float_or a (a_coeff cfg) * volatility_factor tc
               | None => Py.float_or a (a_coeff cfg)
               end).
    assert (Hae : 0 <= ae).
    { unfold ae. destruct (token_entry token) as [tc |] eqn:E; [| assumption].
      destruct (token_entry_positive _ _ E) as (Hv & _ & _).
      apply Rmult_le_pos; lra. }
    assert (Hr1 : 0 < n1 / dv) by (apply Rdiv_lt_0_compat; assumption).
    assert (Hr12 : n1 / dv <= n2 / dv).
    { apply Rmult_le_compat_r; [left; apply Rinv_0_lt_compat; assumption | assumption]. }
    unfold float_pow.
    destruct (Rlt_dec 0 (n1 / dv)) as [_ | Hn]; [| contradiction].
    destruct (Rlt_dec 0 (n2 / dv)) as [_ | Hn]; [| lra].
    pose proof (Rle_Rpower_l (n1 / dv) (n2 / dv) (Py.float_or b (b_power cfg)) Hb
                  (conj Hr1 Hr12)) as Hpow.
    apply Rmult_le_compat_r; [lra |].
    apply Rle_max_compat_l. apply Rle_min_compat_r.
    apply Rmult_le_compat_r; [lra |].
    apply Rmult_le_compat_l; assumption.
  - intros vol n Hvol.
    unfold estimate_almgren_chriss_impact, almgren_chriss_body. cbv zeta.
    destruct (Rle_dec vol 0) as [_ | Hn]; [| contradiction].
    destruct (Rle_dec 50000000 0) as [Hbad | _]; [lra | reflexivity].
Qed.

Lemma almgren_chriss_monotone_witness :
  estimate_almgren_chriss_impact default_config 1000 1000000 None None None
    <= estimate_almgren_chriss_impact default_config 5000 1000000 None None None.
Proof.
  destruct (almgren_chriss_monotone default_config None None None) as [Hmono _].
  apply Hmono; simpl; lra.
Defined.

(** X3: the square-root estimate of a non-negative notional lies within
    the configured bounds (as a fraction: bps / 10000) when they are
    ordered; a negative notional makes [math.sqrt] raise and yields the
    fallback 0.005 whatever the bounds are. *)
Theorem sqrt_estimate_bounds (cfg : SlippageConfig) (adv : R) (k : option R)
    (token : option string) :
  (forall notional : R,
      0 <= notional -> min_slippage_bps cfg <= max_slippage_bps cfg ->
      min_slippage_bps cfg / 10000
        <= estimate_slippage_by_notional cfg notional adv k token
        <= max_slippage_bps cfg / 10000)
  /\ (forall notional : R,
         notional < 0 ->
         estimate_slippage_by_notional cfg notional adv k token = 5 / 1000).
Proof.
  split.
  - intros notional Hn Hmm. rewrite estimate_nonneg_notional by assumption.
    destruct (apply_bounds_range cfg (raw_bps cfg notional adv k token) Hmm) as [Hlo Hhi].
    split; apply Rmult_le_compat_r; lra.
  - intros notional Hn.
    unfold estimate_slippage_by_notional, slippage_by_notional_body.
    pose proof (adv_effective_pos adv token) as Hadv.
    destruct (Rlt_dec (notional / adv_effective adv token) 0) as [_ | Hge];
      [reflexivity |].
    exfalso. apply Hge.
    pose proof (Rinv_0_lt_compat _ Hadv) as Hinv.
    unfold Rdiv. nra.
Qed.

Lemma sqrt_estimate_bounds_witness :
  min_slippage_bps default_config / 10000
    <= estimate_slippage_by_notional default_config 2500 1000000 None None
    <= max_slippage_bps default_config / 10000.
Proof.
  destruct (sqrt_estimate_bounds default_config 1000000 None None) as [Hrange _].
  apply Hrange; simpl; lra.
Defined.

(** X4: for a configured token the daily volume in force is never below
    the token's typical volume, so any supplied volume up to that figure
    gives the same estimate; without a configured token a volume that is
    zero or negative is replaced by 10 million USD. *)
Theorem token_volume_floor (cfg : SlippageConfig) (notional : R) (k : option R)
    (token : option string) :
  (forall (tc : token_config) (adv : R),
      token_entry token = Some tc -> adv <= typical_adv_usd tc ->
      estimate_slippage_by_notional cfg notional adv k token
      = estimate_slippage_by_notional cfg notional (typical_adv_usd tc) k token)
  /\ (forall adv : R,
         token_entry token = None -> adv <= 0 ->
         estimate_slippage_by_notional cfg notional adv k token
         = estimate_slippage_by_notional cfg notional 10000000 k token).
Proof.
  split.
  - intros tc adv Hentry Hle.
    assert (Hadv : adv_effective adv token = adv_effective (typical_adv_usd tc) token).
    { unfold adv_effective. rewrite Hentry.
      rewrite (Rmax_right adv) by assumption. rewrite Rmax_left by lra. reflexivity. }
    unfold estimate_slippage_by_notional, slippage_by_notional_body.
    rewrite Hadv. reflexivity.
  - intros adv Hentry Hle.
    assert (Hadv : adv_effective adv token = adv_effective 10000000 token).
    { unfold adv_effective. rewrite Hentry.
      destruct (Rle_dec adv 0) as [_ | Hn]; [| contradiction].
      destruct (Rle_dec 10000000 0) as [Hbad | _]; [lra | reflexivity]. }
    unfold estimate_slippage_by_notional, slippage_by_notional_body.
    rewrite Hadv. reflexivity.
Qed.

Lemma sol_entry :
  token_entry (Some "SOL"%string)
  = Some {| typical_adv_usd := 100000000; depth_multiplier := 1;
            volatility_factor := 12 / 10 |}.
Proof. reflexivity. Qed.

Lemma token_volume_floor_witness :
  estimate_slippage_by_notional default_config 25000 500000 None (Some "SOL"%string)
  = estimate_slippage_by_notional default_config 25000 100000000 None (Some "SOL"%string).
Proof.
  destruct (token_volume_floor default_config 25000 None (Some "SOL"%string)) as [Hfloor _].
  apply (Hfloor _ 500000 sol_entry). simpl. lra.
Defined.

Lemma upper_ascii_idempotent (c : ascii) :
  Py.upper_ascii (Py.upper_ascii c) = Py.upper_ascii c.
Proof.
  destruct c as [[] [] [] [] [] [] [] []]; reflexivity.
Qed.

Lemma upper_idempotent (s : string) : Py.upper (Py.upper s) = Py.upper s.
Proof.
  induction s as [| c rest IH]; simpl; [reflexivity |].
  rewrite upper_ascii_idempotent, IH. reflexivity.
Qed.

Lemma truthy_upper (s : string) : Py.truthy_str (Py.upper s) = Py.truthy_str s.
Proof. destruct s; reflexivity. Qed.

Lemma token_entry_upper (t : string) :
  token_entry (Some (Py.upper t)) = token_entry (Some t).
Proof.
  unfold token_entry. rewrite truthy_upper, upper_idempotent. reflexivity.
Qed.

(** X5: the estimators look the token up by its upper-case form, so a
    token and its upper-case spelling give the same square-root estimate
    and the same power-law impact, and in the combined result the same
    method estimates, recommended value, notional and list of keys; the
    ['token'] entry of the combined result is the token as passed. *)
Theorem token_case_insensitive (cfg : SlippageConfig) (t : string) :
  (forall (notional adv : R) (k : option R),
      estimate_slippage_by_notional cfg notional adv k (Some (Py.upper t))
      = estimate_slippage_by_notional cfg notional adv k (Some t))
  /\ (forall (notional vol : R) (a b : option R),
         estimate_almgren_chriss_impact cfg notional vol a b (Some (Py.upper t))
         = estimate_almgren_chriss_impact cfg notional vol a b (Some t))
  /\ (forall (notional : R) (adv : option R) (depth : option Depth)
             (cp : option R) (side : string),
         let upper := estimate_combined_slippage cfg notional (Py.upper t) adv depth
                        cp side in
         let given := estimate_combined_slippage cfg notional t adv depth cp side in
         sqrt_model upper = sqrt_model given
         /\ almgren_chriss upper = almgren_chriss given
         /\ depth_based upper = depth_based given
         /\ recommended upper = recommended given
         /\ result_notional_usd upper = result_notional_usd given
         /\ methods_used upper = methods_used given
         /\ result_token upper = Py.upper t
         /\ result_token given = t).
Proof.
  assert (H1 : forall notional adv k,
             estimate_slippage_by_notional cfg notional adv k (Some (Py.upper t))
             = estimate_slippage_by_notional cfg notional adv k (Some t)).
  { intros. unfold estimate_slippage_by_notional, slippage_by_notional_body,
      k_effective, adv_effective. rewrite token_entry_upper. reflexivity. }
  assert (H2 : forall notional vol a b,
             estimate_almgren_chriss_impact cfg notional vol a b (Some (Py.upper t))
             = estimate_almgren_chriss_impact cfg notional vol a b (Some t)).
  { intros. unfold estimate_almgren_chriss_impact, almgren_chriss_body.
    rewrite token_entry_upper. reflexivity. }
  split; [exact H1 |]. split; [exact H2 |].
  intros notional adv depth cp side. unfold estimate_combined_slippage.
  destruct adv as [adv |]; cbv beta iota zeta;
    cbn [sqrt_model almgren_chriss depth_based recommended result_notional_usd
         methods_used result_token];
    rewrite ?H1, ?H2; repeat split; reflexivity.
Qed.

End VolumeEstimators.

(** ** Slippage model: the order book *)

Section OrderBook.
Import Slippage.
Local Open Scope R_scope.

Lemma insert_asc_perm (x : R * R) (l : list (R * R)) :
  Permutation (x :: l) (insert_asc x l).
Proof.
  induction l as [| y rest IH]; simpl.
  - apply Permutation_refl.
  - destruct (Rle_dec (fst x) (fst y)).
    + apply Permutation_refl.
    + eapply perm_trans; [apply perm_swap | apply perm_skip; exact IH].
Qed.

Lemma insert_desc_perm (x : R * R) (l : list (R * R)) :
  Permutation (x :: l) (insert_desc x l).
Proof.
  induction l as [| y rest IH]; simpl.
  - apply Permutation_refl.
  - destruct (Rle_dec (fst y) (fst x)).
    + apply Permutation_refl.
    + eapply perm_trans; [apply perm_swap | apply perm_skip; exact IH].
Qed.

Lemma sort_levels_perm (side : string) (l : list (R * R)) :
  Permutation l (sort_levels side l).
Proof.
  unfold sort_levels, sorted_asc, sorted_desc.
  destruct (is_buy side); induction l as [| x rest IH]; simpl;
    try apply perm_nil.
  - eapply perm_trans; [apply perm_skip; exact IH | apply insert_asc_perm].
  - eapply perm_trans; [apply perm_skip; exact IH | apply insert_desc_perm].
Qed.

Lemma insert_asc_sorted (x : R * R) (l : list (R * R)) :
  StronglySorted price_asc l -> StronglySorted price_asc (insert_asc x l).
Proof.
  induction 1 as [| y rest Hsorted IH Hall]; simpl.
  - constructor; constructor.
  - destruct (Rle_dec (fst x) (fst y)) as [Hle | Hgt].
    + constructor; [constructor; assumption |].
      constructor; [exact Hle |].
      eapply List.Forall_impl; [| exact Hall].
      intros z Hz. unfold price_asc in *. lra.
    + constructor; [exact IH |].
      apply insert_asc_Forall; [unfold price_asc; lra | assumption].
Qed.

Lemma insert_desc_sorted (x : R * R) (l : list (R * R)) :
  StronglySorted price_desc l -> StronglySorted price_desc (insert_desc x l).
Proof.
  induction 1 as [| y rest Hsorted IH Hall]; simpl.
  - constructor; constructor.
  - destruct (Rle_dec (fst y) (fst x)) as [Hle | Hgt].
    + constructor; [constructor; assumption |].
      constructor; [exact Hle |].
      eapply List.Forall_impl; [| exact Hall].
      intros z Hz. unfold price_desc in *. lra.
    + constructor; [exact IH |].
      apply insert_desc_Forall; [unfold price_desc; lra | assumption].
Qed.

(** X6: the levels the walk visits are the given levels rearranged, in
    ascending price order for the side ['buy'] and in descending price
    order for every other side string. *)
Theorem sort_levels_sorted (side : string) (levels : list (R * R)) :
  Permutation levels (sort_levels side levels)
  /\ (if String.eqb side "buy"
      then StronglySorted price_asc (sort_levels side levels)
      else StronglySorted price_desc (sort_levels side levels)).
Proof.
  split; [apply sort_levels_perm |].
  unfold sort_levels, is_buy, sorted_asc, sorted_desc.
  destruct (String.eqb side "buy"); induction levels as [| x rest IH]; simpl;
    try constructor.
  - apply insert_asc_sorted. exact IH.
  - apply insert_desc_sorted. exact IH.
Qed.

Lemma walk_stopped (levels : list (R * R)) (st : walk_state) :
  remaining_size st <= 0 -> walk levels st = st.
Proof.
  intros Hrem. destruct levels as [| [price available] rest]; simpl; [reflexivity |].
  destruct (Rle_dec (remaining_size st) 0); [reflexivity | contradiction].
Qed.

(** The fallbacks of the depth estimator.  An empty book gives the
    reference price (100 without one) and 1%; a depth that is neither a
    list nor a dict gives the reference price plus 1% and 1%; a dict book
    without the key of the requested side counts as empty; and a
    requested size that is zero or negative executes nothing on any
    book, which gives the reference price and the 5% penalty. *)
Theorem depth_fallbacks (size_token : R) (side : string) (current_price : option R) :
  estimate_execution_price_from_depth size_token (DepthList []) side current_price
    = (Py.float_or current_price 100, 1 / 100)
  /\ estimate_execution_price_from_depth size_token DepthOther side current_price
     = (Py.float_or current_price 100 * (101 / 100), 1 / 100)
  /\ (forall other : bool,
         estimate_execution_price_from_depth size_token (DepthDict None None other)
           side current_price
         = (Py.float_or current_price 100, 1 / 100))
  /\ (forall (depth : Depth) (x : R * R) (rest : list (R * R)),
         size_token <= 0 -> depth_levels depth side = Some (x :: rest) ->
         estimate_execution_price_from_depth size_token depth side current_price
         = (Py.float_or current_price 100, 5 / 100)).
Proof.
  split; [reflexivity |]. split; [reflexivity |].
  split.
  - intros other. unfold estimate_execution_price_from_depth, depth_outcome_of.
    simpl. destruct (is_buy side); reflexivity.
  - intros depth x rest Hsize Hlev.
    unfold estimate_execution_price_from_depth, depth_outcome_of. rewrite Hlev.
    cbv zeta. rewrite walk_stopped by (simpl; assumption). simpl.
    destruct (Req_dec_T 0 0) as [_ | Hn]; [reflexivity | contradiction].
Qed.

Lemma depth_fallbacks_witness :
  estimate_execution_price_from_depth 0 (DepthList [(101, 50)]) "buy" (Some 100)
  = (Py.float_or (Some 100) 100, 5 / 100).
Proof.
  destruct (depth_fallbacks 0 "buy" (Some 100)) as (_ & _ & _ & Hzero).
  apply (Hzero (DepthList [(101, 50)]) (101, 50) []).
  - lra.
  - reflexivity.
Defined.

End OrderBook.

(** ** Slippage model: synthetic depth and the combined estimate *)

Section SyntheticDepth.
Import Slippage.
Local Open Scope R_scope.

Lemma scaled_base_size_nonneg (base_size : R) (token : option string) :
  0 <= base_size -> 0 <= scaled_base_size base_size token.
Proof.
  intros Hb. unfold scaled_base_size.
  destruct (token_entry token) as [tc |] eqn:E; [| assumption].
  destruct (token_entry_positive _ _ E) as (_ & _ & Hm).
  apply Rmult_le_pos; lra.
Qed.

(** X8: for a non-negative mid price, a spread between 0 and 20000 bps
    and a non-negative base size, the synthetic book has the requested
    number of levels on each side, is not crossed (no bid above the mid
    price, no ask below it) and has no negative size. *)
Theorem synthetic_depth_not_crossed (mid_price spread_bps : R) (depth_levels : Z)
    (base_size : R) (token : option string) :
  0 <= mid_price -> 0 <= spread_bps <= 20000 -> 0 <= base_size ->
  exists asks bids : list (R * R),
    generate_synthetic_depth mid_price spread_bps depth_levels base_size token
    = DepthDict (Some asks) (Some bids) false
    /\ length asks = Z.to_nat depth_levels
    /\ length bids = Z.to_nat depth_levels
    /\ Forall (fun l => mid_price <= fst l /\ 0 <= snd l) asks
    /\ Forall (fun l => fst l <= mid_price /\ 0 <= snd l) bids.
Proof.
  intros Hmid [Hs0 Hs1] Hbase.
  pose proof (scaled_base_size_nonneg base_size token Hbase) as Hb.
  unfold generate_synthetic_depth. cbv zeta.
  set (b := scaled_base_size base_size token) in *.
  eexists. eexists. split; [reflexivity |].
  split; [rewrite List.length_map, List.length_seq; reflexivity |].
  split; [rewrite List.length_map, List.length_seq; reflexivity |].
  split.
  - apply List.Forall_map. apply List.Forall_forall. intros i _. cbn [fst snd].
    pose proof (pos_INR i) as Hi.
    assert (Hask : mid_price <= mid_price * (1 + spread_bps / 10000 / 2)) by nra.
    assert (Hask0 : 0 <= mid_price * (1 + spread_bps / 10000 / 2)) by lra.
    split; [| apply Rmult_le_pos; lra].
    apply Rle_trans with (mid_price * (1 + spread_bps / 10000 / 2)); [assumption |].
    rewrite <- (Rmult_1_r (mid_price * (1 + spread_bps / 10000 / 2))) at 1.
    apply Rmult_le_compat_l; lra.
  - apply List.Forall_map. apply List.Forall_forall. intros i _. cbn [fst snd].
    pose proof (pos_INR i) as Hi.
    assert (Hbid : mid_price * (1 - spread_bps / 10000 / 2) <= mid_price) by nra.
    assert (Hbid0 : 0 <= mid_price * (1 - spread_bps / 10000 / 2))
      by (apply Rmult_le_pos; lra).
    split; [| apply Rmult_le_pos; lra].
    apply Rle_trans with (mid_price * (1 - spread_bps / 10000 / 2)); [| assumption].
    rewrite <- (Rmult_1_r (mid_price * (1 - spread_bps / 10000 / 2))) at 2.
    apply Rmult_le_compat_l; lra.
Qed.

Lemma synthetic_depth_not_crossed_witness :
  exists asks bids : list (R * R),
    generate_synthetic_depth 2500 10 10 1000 (Some "ETH"%string)
    = DepthDict (Some asks) (Some bids) false
    /\ length asks = Z.to_nat 10
    /\ length bids = Z.to_nat 10
    /\ Forall (fun l => 2500 <= fst l /\ 0 <= snd l) asks
    /\ Forall (fun l => fst l <= 2500 /\ 0 <= snd l) bids.
Proof.
  apply (synthetic_depth_not_crossed 2500 10 10 1000 (Some "ETH"%string)); lra.
Defined.

(** A list of levels whose prices do not decrease is left as it is by the
    ascending sort. *)
End SyntheticDepth.

(** ** Bridge: the single-shot simulation *)

Section SingleShot.
Import Bridge.
Local Open Scope R_scope.

Lemma exp_neg_le_1 (x : R) : 0 <= x -> 0 < exp (- x) <= 1.
Proof.
  intros Hx. split; [apply exp_pos |].
  rewrite exp_Ropp.
  pose proof (exp_ineq1_le x) as Hge.
  assert (H1 : 1 <= exp x) by lra.
  rewrite <- Rinv_1. apply Rinv_le_contravar; lra.
Qed.

Lemma spread_decay_range (initial_spread_bps hyperliquid_price : R) :
  (forall latency : R,
      _model_spread_decay initial_spread_bps latency 0 hyperliquid_price = None)
  /\ (forall latency jupiter_price : R,
         0 <= initial_spread_bps -> 0 <= latency -> 0 < jupiter_price ->
         exists d : R,
           _model_spread_decay initial_spread_bps latency jupiter_price
             hyperliquid_price = Some d
           /\ 0 <= d <= initial_spread_bps * (8 / 10)
           /\ (latency = 0 -> d = 0)).
Proof.
  split.
  - intros latency. unfold _model_spread_decay.
    destruct (Req_dec_T 0 0) as [_ | Hn]; [reflexivity | contradiction].
  - intros latency jp Hs Hlat Hjp. unfold _model_spread_decay.
    destruct (Req_dec_T jp 0) as [Hz | _]; [lra |].
    cbv zeta. eexists. split; [reflexivity |].
    set (vf := Rabs (jp - hyperliquid_price) / jp).
    assert (Hvf : 0 <= vf).
    { unfold vf. apply Rmult_le_pos; [apply Rabs_pos |].
      left. apply Rinv_0_lt_compat. assumption. }
    set (x := 3 / 10 * (1 + vf * 2) * latency).
    assert (Hx : 0 <= x) by (unfold x; apply Rmult_le_pos; nra).
    replace (- (3 / 10 * (1 + vf * 2)) * latency) with (- x) by (unfold x; ring).
    destruct (exp_neg_le_1 x Hx) as [He0 He1].
    assert (Hd : 0 <= initial_spread_bps * (1 - exp (- x))) by (apply Rmult_le_pos; lra).
    split; [split |].
    + apply Rmin_glb; lra.
    + apply Rmin_r.
    + intros Hzero. unfold x. rewrite Hzero, Rmult_0_r, Ropp_0, exp_0.
      rewrite Rmin_left by lra. ring.
Qed.

(** X11: the modelled spread decay.  With a zero spot price the division
    raises; with a positive spot price, a non-negative spread and a
    non-negative latency the decay is never negative and never more than
    80% of the spread, and it is zero when the latency is zero. *)
Theorem spread_decay_bounds (initial_spread_bps hyperliquid_price : R) :
  (forall latency : R,
      _model_spread_decay initial_spread_bps latency 0 hyperliquid_price = None)
  /\ (forall latency jupiter_price : R,
         0 <= initial_spread_bps -> 0 <= latency -> 0 < jupiter_price ->
         exists d : R,
           _model_spread_decay initial_spread_bps latency jupiter_price
             hyperliquid_price = Some d
           /\ 0 <= d <= initial_spread_bps * (8 / 10)
           /\ (latency = 0 -> d = 0)).
Proof. exact (spread_decay_range initial_spread_bps hyperliquid_price). Qed.

Lemma spread_decay_bounds_witness :
  exists d : R,
    _model_spread_decay 60 (3 / 2) 100 (1006 / 10) = Some d
    /\ 0 <= d <= 60 * (8 / 10)
    /\ (3 / 2 = 0 -> d = 0).
Proof.
  destruct (spread_decay_bounds 60 (1006 / 10)) as [_ Hpos].
  apply Hpos; lra.
Defined.

Lemma Rsum_nonneg (l : list R) : Forall (fun x => 0 <= x) l -> 0 <= Rsum l.
Proof.
  induction 1 as [| x rest Hx Hrest IH]; simpl in *; lra.
Qed.

Lemma np_mean_nonneg (l : list R) : Forall (fun x => 0 <= x) l -> 0 <= np_mean l.
Proof.
  intros Hl. unfold np_mean. destruct l as [| x rest].
  - simpl. lra.
  - apply Rmult_le_pos; [apply Rsum_nonneg; assumption |].
    left. apply Rinv_0_lt_compat. apply lt_0_INR. simpl. lia.
Qed.

(** X12: a single-shot simulation is viable only above the fixed costs.
    For a positive size, a non-negative spread, a positive spot price,
    non-negative latency samples and a template, if any, with a
    non-negative latency ceiling and a positive risk multiplier, the
    simulation succeeds, its gross profit is between 20% and 100% of
    spread * size / 10000, and it is marked viable only if the spread is
    above 23 bps. *)
Theorem viable_needs_spread (now_ms : Z) (latency_samples : list R) (token : string)
    (size current_spread jupiter_price hyperliquid_price funding_rate : R)
    (template : option ExecutionTemplate) (history : list simulation) :
  0 < size -> 0 <= current_spread -> 0 < jupiter_price ->
  Forall (fun x => 0 <= x) latency_samples ->
  match template with
  | Some t => 0 < risk_multiplier t /\ 0 <= max_latency t
  | None => True
  end ->
  exists s : simulation,
    fst (simulate_bridge_execution now_ms latency_samples token size current_spread
           jupiter_price hyperliquid_price funding_rate template history) = SimOk s
    /\ (2 / 10) * (current_spread * size / 10000) <= gross_profit_usd (analysis s)
       <= current_spread * size / 10000
    /\ (is_viable (analysis s) = true -> 23 < current_spread).
Proof.
  intros Hsize Hspread Hjp Hsamples Htemplate.
  unfold simulate_bridge_execution.
  set (params := match template with
                 | Some t => (max_latency t, min_spread_bps t, risk_multiplier t)
                 | None => (max_bridge_latency, min_profitable_spread, 1)
                 end).
  assert (Hrm : 0 < snd params /\ 0 <= fst (fst params)).
  { unfold params, max_bridge_latency. destruct template; simpl; [assumption | lra]. }
  destruct params as [[max_lat min_spread] risk_mult]. simpl in Hrm.
  destruct Hrm as [Hrm Hml].
  destruct (Rlt_dec (max_lat / 2) 0) as [Hneg | _]; [lra |].
  pose proof (np_mean_nonneg latency_samples Hsamples) as Hlat.
  destruct (spread_decay_range current_spread hyperliquid_price) as [_ Hdecay].
  destruct (Hdecay (np_mean latency_samples) jupiter_price Hspread Hlat Hjp)
    as (d & Hd & [Hd0 Hd1] & _).
  rewrite Hd. cbv zeta. simpl. eexists. split; [reflexivity |].
  cbn [analysis gross_profit_usd is_viable].
  split; [split; nra |].
  intros Hviable.
  destruct (Rlt_dec 0 _) as [Hpos | _] in Hviable; [| discriminate].
  assert (Hfund : 0 <= _calculate_funding_impact funding_rate
                         (np_mean latency_samples) size).
  { unfold _calculate_funding_impact. destruct (Req_dec_T funding_rate 0); [lra |].
    apply Rabs_pos. }
  unfold total_fees in Hpos.
  assert (Hnet : 0 < (current_spread - d) * size / 10000
                     - (1 / 10000 * 180 + size * (3 / 10000) + size * (2 / 1000) + 0)
                     - _calculate_funding_impact funding_rate
                         (np_mean latency_samples) size).
  { nra. }
  nra.
Qed.

Lemma viable_needs_spread_witness :
  exists s : simulation,
    fst (simulate_bridge_execution 0 [1; 2] "SOL" 1000 60 100 (1006 / 10) 0 None [])
    = SimOk s
    /\ (2 / 10) * (60 * 1000 / 10000) <= gross_profit_usd (analysis s)
       <= 60 * 1000 / 10000
    /\ (is_viable (analysis s) = true -> 23 < 60).
Proof.
  apply (viable_needs_spread 0 [1; 2] "SOL" 1000 60 100 (1006 / 10) 0 None []);
    try lra; try exact I.
  repeat (constructor; [lra |]). constructor.
Defined.

End SingleShot.

(** ** Bridge: history, playbook and templates *)

Section BridgeState.
Import Bridge.
Local Open Scope R_scope.

Lemma last_n_length {A : Type} (n : nat) (l : list A) :
  length (Py.last_n n l) = Nat.min (length l) n.
Proof. unfold Py.last_n. rewrite List.length_skipn. lia. Qed.

Lemma last_n_snoc {A : Type} (n : nat) (l : list A) (x : A) :
  (1 <= n)%nat -> exists front : list A, Py.last_n n (l ++ [x]) = front ++ [x].
Proof.
  intros Hn. unfold Py.last_n. rewrite List.length_app. simpl.
  destruct (Nat.le_gt_cases (length l + 1) n) as [Hle | Hgt].
  - replace (length l + 1 - n)%nat with 0%nat by lia. exists l. reflexivity.
  - exists (skipn (length l + 1 - n) l).
    rewrite List.skipn_app.
    replace (length l + 1 - n - length l)%nat with 0%nat by lia. reflexivity.
Qed.

(** X13: the simulation history is a rolling window.  A failed run
    leaves it as it was; a successful run puts its result last and
    keeps at most the 100 latest entries, whatever the history held
    before. *)
Theorem history_is_rolling (now_ms : Z) (latency_samples : list R) (token : string)
    (size current_spread jupiter_price hyperliquid_price funding_rate : R)
    (template : option ExecutionTemplate) (history : list simulation) :
  match simulate_bridge_execution now_ms latency_samples token size current_spread
          jupiter_price hyperliquid_price funding_rate template history with
  | (SimOk s, history') =>
      length history' = Nat.min (length history + 1) 100
      /\ exists front : list simulation, history' = front ++ [s]
  | (SimError, history') => history' = history
  end.
Proof.
  unfold simulate_bridge_execution.
  destruct (match template with
            | Some t => (max_latency t, min_spread_bps t, risk_multiplier t)
            | None => (max_bridge_latency, min_profitable_spread, 1)
            end) as [[max_lat min_spread] risk_mult].
  destruct (Rlt_dec (max_lat / 2) 0); [reflexivity |].
  destruct (_model_spread_decay _ _ _ _) as [d |]; [| reflexivity].
  cbv zeta.
  match goal with
  | |- context [history ++ [?r]] => set (result := r)
  end.
  destruct (100 <? length (history ++ [result]))%nat eqn:Hlen.
  - apply Nat.ltb_lt in Hlen. rewrite List.length_app in Hlen. simpl in Hlen.
    split.
    + rewrite last_n_length, List.length_app. simpl. lia.
    + apply last_n_snoc. lia.
  - apply Nat.ltb_ge in Hlen. rewrite List.length_app in Hlen. simpl in Hlen.
    split.
    + rewrite List.length_app. simpl. lia.
    + exists history. reflexivity.
Qed.

(** The first playbook step always carries the Jupiter price, also
    when the spot price is not below the perp price and the step is
    placed on Hyperliquid; in that case the second step carries the
    Jupiter price too, and the Hyperliquid price appears in neither step.
    The two step times add up to the expected latency. *)
Theorem playbook_step_prices (size jupiter_price hyperliquid_price expected_latency : R) :
  step_price (step1 (_generate_execution_playbook size jupiter_price
                       hyperliquid_price expected_latency)) = jupiter_price
  /\ (if Rlt_dec jupiter_price hyperliquid_price
      then step_exchange (step1 (_generate_execution_playbook size jupiter_price
                                   hyperliquid_price expected_latency))
           = "Jupiter"%string
           /\ step_price (step2 (_generate_execution_playbook size jupiter_price
                                   hyperliquid_price expected_latency))
              = hyperliquid_price
      else step_exchange (step1 (_generate_execution_playbook size jupiter_price
                                   hyperliquid_price expected_latency))
           = "Hyperliquid"%string
           /\ step_price (step2 (_generate_execution_playbook size jupiter_price
                                   hyperliquid_price expected_latency))
              = jupiter_price)
  /\ step_estimated_time (step1 (_generate_execution_playbook size jupiter_price
                                   hyperliquid_price expected_latency))
     + step_estimated_time (step2 (_generate_execution_playbook size jupiter_price
                                     hyperliquid_price expected_latency))
     = expected_latency.
Proof.
  unfold _generate_execution_playbook.
  destruct (Rlt_dec jupiter_price hyperliquid_price); cbn; repeat split; lra.
Qed.

Lemma filter_all {A : Type} (f : A -> bool) (l : list A) :
  Forall (fun x => f x = true) l -> List.filter f l = l.
Proof.
  induction 1 as [| x rest Hx Hrest IH]; simpl; [reflexivity |].
  rewrite Hx, IH. reflexivity.
Qed.

Lemma filter_filter_same {A : Type} (f : A -> bool) (l : list A) :
  List.filter f (List.filter f l) = List.filter f l.
Proof.
  induction l as [| x rest IH]; simpl; [reflexivity |].
  destruct (f x) eqn:E; simpl; [rewrite E, IH |]; auto.
Qed.

Lemma keep_others (template_name : string) (st : store) :
  ~ In template_name (names st) ->
  Forall (fun t => negb (String.eqb (name t) template_name) = true) st.
Proof.
  intros Hnot. apply List.Forall_forall. intros t Ht.
  destruct (String.eqb (name t) template_name) eqn:E; [| reflexivity].
  exfalso. apply Hnot. apply String.eqb_eq in E. rewrite <- E.
  unfold names. apply in_map. exact Ht.
Qed.

(** X14: deleting a name that no template has changes nothing and still
    returns [True]; deleting is idempotent; and saving a template under a
    new name and then deleting that name gives back the store as it
    was. *)
Theorem template_save_delete (st : store) :
  (forall template_name : string,
      ~ In template_name (names st) ->
      delete_execution_template template_name st = (true, st))
  /\ (forall template_name : string,
         snd (delete_execution_template template_name
                (snd (delete_execution_template template_name st)))
         = snd (delete_execution_template template_name st))
  /\ (forall (now : R) (d : template_data) (t : ExecutionTemplate),
         make_template now d = Some t -> ~ In (name t) (names st) ->
         snd (delete_execution_template (name t)
                (snd (save_execution_template now d st))) = st).
Proof.
  split; [| split].
  - intros n Hnot. unfold delete_execution_template.
    rewrite (filter_all _ st (keep_others n st Hnot)). reflexivity.
  - intros n. unfold delete_execution_template. simpl. apply filter_filter_same.
  - intros now d t Hmake Hnot.
    unfold save_execution_template, delete_execution_template. rewrite Hmake. simpl.
    rewrite List.filter_app. simpl. rewrite String.eqb_refl. simpl.
    rewrite (filter_all _ st (keep_others (name t) st Hnot)).
    apply app_nil_r.
Qed.

Lemma template_save_delete_witness :
  snd (delete_execution_template "JUP Momentum"
         (snd (save_execution_template 0 (template_named "JUP Momentum")
                 (default_templates 0))))
  = default_templates 0.
Proof.
  destruct (template_save_delete (default_templates 0)) as (_ & _ & Hround).
  apply (Hround 0 (template_named "JUP Momentum") _ eq_refl).
  simpl. intros H. repeat (destruct H as [H | H]; [discriminate H |]). exact H.
Defined.

End BridgeState.

(** ** Bridge: Monte Carlo statistics *)

Section MonteCarloStats.
Import Bridge.
Local Open Scope R_scope.

Lemma Rsum_bounds (lo hi : R) (l : list R) :
  Forall (fun x => lo <= x <= hi) l ->
  lo * INR (length l) <= Rsum l <= hi * INR (length l).
Proof.
  induction 1 as [| x rest Hx Hrest IH].
  - simpl. lra.
  - change (length (x :: rest)) with (S (length rest)). rewrite S_INR.
    simpl. simpl in Hx. lra.
Qed.

Lemma np_mean_bounds (lo hi : R) (l : list R) :
  l <> [] -> Forall (fun x => lo <= x <= hi) l -> lo <= np_mean l <= hi.
Proof.
  intros Hne Hall. destruct (Rsum_bounds lo hi l Hall) as [Hlo Hhi].
  assert (Hlen : 0 < INR (length l)).
  { apply lt_0_INR. destruct l; [congruence | simpl; lia]. }
  unfold np_mean. split.
  - apply (Rmult_le_reg_r (INR (length l))); [assumption |].
    unfold Rdiv. rewrite Rmult_assoc, Rinv_l by lra. lra.
  - apply (Rmult_le_reg_r (INR (length l))); [assumption |].
    unfold Rdiv. rewrite Rmult_assoc, Rinv_l by lra. lra.
Qed.

Lemma np_min_le (x : R) (l : list R) :
  np_min x l <= x /\ Forall (fun y => np_min x l <= y) l.
Proof.
  induction l as [| y rest [IHx IHl]]; simpl.
  - split; [lra | constructor].
  - split.
    + eapply Rle_trans; [apply Rmin_r | exact IHx].
    + constructor; [apply Rmin_l |].
      eapply List.Forall_impl; [| exact IHl].
      intros z Hz. simpl in Hz. eapply Rle_trans; [apply Rmin_r | exact Hz].
Qed.

Lemma exec_time_floor (notional_usd spread_bps funding_rate : R) (v : variates) :
  200 <= exec_time_ms (simulate_draw notional_usd spread_bps funding_rate v).
Proof.
  unfold simulate_draw. cbn [exec_time_ms].
  pose proof (Rmax_r (exponential_latency v) (2 / 10)). lra.
Qed.

(** Statistics of a non-empty list of draws. *)
Lemma draws_statistics (draws : list draw) (d0 : draw) (rest : list draw) :
  draws = d0 :: rest ->
  Forall (fun d => 200 <= exec_time_ms d) draws ->
  0 <= np_mean (map (fun d => if success d then 1 else 0) draws) <= 1
  /\ np_min (pnl_usd d0) (map pnl_usd rest) <= np_mean (map pnl_usd draws)
  /\ 200 <= np_mean (map exec_time_ms draws).
Proof.
  intros Heq Htime.
  assert (Hne : forall (B : Type) (f : draw -> B), map f draws <> []).
  { intros B f. rewrite Heq. discriminate. }
  split; [| split].
  - apply np_mean_bounds; [apply Hne |].
    apply List.Forall_map. apply List.Forall_forall. intros d _.
    destruct (success d); lra.
  - destruct (np_min_le (pnl_usd d0) (map pnl_usd rest)) as [Hx Hl].
    set (m := np_min (pnl_usd d0) (map pnl_usd rest)) in *.
    assert (Hlow : Forall (fun y => m <= y) (map pnl_usd draws)).
    { rewrite Heq. simpl. constructor; [exact Hx | exact Hl]. }
    assert (Hsum : m * INR (length (map pnl_usd draws)) <= Rsum (map pnl_usd draws)).
    { clear -Hlow. induction Hlow as [| y l Hy Hl IH].
      - simpl. lra.
      - change (length (y :: l)) with (S (length l)). rewrite S_INR. simpl. lra. }
    assert (Hlen : 0 < INR (length (map pnl_usd draws))).
    { apply lt_0_INR. rewrite Heq. simpl. lia. }
    unfold np_mean. apply (Rmult_le_reg_r (INR (length (map pnl_usd draws))));
      [assumption |].
    unfold Rdiv. rewrite Rmult_assoc, Rinv_l by lra. lra.
  - assert (Hall : Forall (fun x => 200 <= x) (map exec_time_ms draws)).
    { apply List.Forall_map. exact Htime. }
    assert (Hsum : 200 * INR (length (map exec_time_ms draws))
                   <= Rsum (map exec_time_ms draws)).
    { clear -Hall. induction Hall as [| y l Hy Hl IH].
      - simpl. lra.
      - change (length (y :: l)) with (S (length l)). rewrite S_INR. simpl. lra. }
    assert (Hlen : 0 < INR (length (map exec_time_ms draws))).
    { apply lt_0_INR. rewrite Heq. simpl. lia. }
    unfold np_mean. apply (Rmult_le_reg_r (INR (length (map exec_time_ms draws))));
      [assumption |].
    unfold Rdiv. rewrite Rmult_assoc, Rinv_l by lra. lra.
Qed.

(** X15: whenever the Monte Carlo simulation returns statistics, the
    success probability lies in [0, 1], the worst loss is not above the
    mean PnL, and the mean execution time is at least 200 ms, the floor
    of every sampled latency. *)
Theorem monte_carlo_stats_ranges (svc : arbitrage_service) (rng : nat -> variates)
    (token : string) (notional_usd : R) (template : option string) (n : Z)
    (jupiter_price hyperliquid_price funding_rate : option R) :
  match simulate_bridge_execution_monte_carlo svc rng token notional_usd template n
          jupiter_price hyperliquid_price funding_rate with
  | McStats stats =>
      0 <= success_probability stats <= 1
      /\ max_loss stats <= mean_pnl stats
      /\ 200 <= avg_exec_ms stats
  | McError _ => True
  end.
Proof.
  unfold simulate_bridge_execution_monte_carlo.
  destruct (resolve_market _ _ _ _ _) as [[jp hp] fr].
  destruct (match template with Some t => Py.truthy_str t | None => false end);
    [exact I |].
  destruct jp as [j |]; [| exact I].
  destruct hp as [h |]; [| exact I].
  destruct (Req_dec_T j 0); [exact I |].
  destruct (Z.min n 5000 <? 0)%Z; [exact I |].
  destruct fr as [f |]; [| exact I].
  destruct (map _ (seq 0 (Z.to_nat (Z.min n 5000)))) as [| d0 rest] eqn:Hdraws;
    [exact I |].
  cbn [success_probability max_loss mean_pnl avg_exec_ms].
  apply (draws_statistics (d0 :: rest) d0 rest eq_refl).
  rewrite <- Hdraws. apply List.Forall_map. apply List.Forall_forall.
  intros i _. apply exec_time_floor.
Qed.

(** Under a spread of at most 23.1 bps a draw loses money, as long as the
    sampled decay rate and fill skew are in their usual range. *)
Lemma draw_below_costs (notional_usd spread_bps funding_rate : R) (v : variates) :
  0 < notional_usd -> 0 <= spread_bps <= 231 / 10 ->
  -1 <= normal_decay v -> 0 <= exponential_fill_skew v ->
  pnl_usd (simulate_draw notional_usd spread_bps funding_rate v) < 0
  /\ success (simulate_draw notional_usd spread_bps funding_rate v) = false.
Proof.
  intros Hn [Hs0 Hs1] Hdecay Hskew.
  assert (Hpnl : pnl_usd (simulate_draw notional_usd spread_bps funding_rate v) < 0).
  { unfold simulate_draw. cbn [pnl_usd].
    set (lat := Rmax (exponential_latency v) (2 / 10)).
    assert (Hlat : 2 / 10 <= lat) by apply Rmax_r.
    set (x := 4 / 10 * (1 + normal_decay v) * lat).
    assert (Hx : 0 <= x) by (unfold x; apply Rmult_le_pos; nra).
    replace (- (4 / 10 * (1 + normal_decay v)) * lat) with (- x) by (unfold x; ring).
    destruct (exp_neg_le_1 x Hx) as [He0 He1].
    set (e := exp (- x)) in *.
    assert (Hdec : 0 <= spread_bps * (1 - e)) by (apply Rmult_le_pos; lra).
    assert (Heff : Rmax (spread_bps - spread_bps * (1 - e)) (1 / 10) <= 231 / 10).
    { apply Rmax_lub; lra. }
    pose proof (Rmax_r (normal_slippage v) (1 / 10)) as Hslip.
    assert (Hfund : 0 <= Rabs funding_rate * (lat / 3600) * 8 * 10000).
    { pose proof (Rabs_pos funding_rate). 
      repeat apply Rmult_le_pos; try lra. }
    unfold total_fees.
    set (E := Rmax (spread_bps - spread_bps * (1 - e)) (1 / 10)) in *.
    set (S := Rmax (normal_slippage v) (1 / 10)) in *.
    set (F := Rabs funding_rate * (lat / 3600) * 8 * 10000) in *.
    assert (Hg : E - S - F - exponential_fill_skew v <= 23) by lra.
    assert (Hgu : (E - S - F - exponential_fill_skew v) / 10000 * notional_usd
                  <= 23 / 10000 * notional_usd).
    { apply Rmult_le_compat_r; lra. }
    lra. }
  split; [exact Hpnl |].
  unfold simulate_draw in *. cbn [pnl_usd success] in *.
  destruct (Rlt_dec 0 _) as [Hpos | _]; [lra | reflexivity].
Qed.

Lemma Rsum_zero (l : list R) : Forall (fun x => x = 0) l -> Rsum l = 0.
Proof. induction 1 as [| x rest Hx Hrest IH]; simpl; lra. Qed.

(** X16: when the two prices are at most 23.1 bps apart, no draw can
    succeed: for a positive notional and a positive spot price, with
    sampled decay rates of at least -1 and non-negative fill skews, every
    returned success probability is 0 and the mean PnL is negative. *)
Theorem no_success_below_costs (svc : arbitrage_service) (rng : nat -> variates)
    (token : string) (notional_usd : R) (template : option string) (n : Z)
    (j h f : R) :
  0 < notional_usd -> 0 < j -> Rabs (j - h) / j * 10000 <= 231 / 10 ->
  (forall i : nat, -1 <= normal_decay (rng i) /\ 0 <= exponential_fill_skew (rng i)) ->
  match simulate_bridge_execution_monte_carlo svc rng token notional_usd template n
          (Some j) (Some h) (Some f) with
  | McStats stats => success_probability stats = 0 /\ mean_pnl stats < 0
  | McError _ => True
  end.
Proof.
  intros Hn Hj Hspread Hrng.
  assert (Hs0 : 0 <= Rabs (j - h) / j * 10000).
  { apply Rmult_le_pos; [| lra]. apply Rmult_le_pos; [apply Rabs_pos |].
    left. apply Rinv_0_lt_compat. assumption. }
  unfold simulate_bridge_execution_monte_carlo. rewrite resolve_market_given.
  destruct (match template with Some t => Py.truthy_str t | None => false end);
    [exact I |].
  destruct (Req_dec_T j 0); [exact I |].
  destruct (Z.min n 5000 <? 0)%Z; [exact I |].
  destruct (map _ (seq 0 (Z.to_nat (Z.min n 5000)))) as [| d0 rest] eqn:Hdraws;
    [exact I |].
  cbn [success_probability mean_pnl].
  assert (Hall : Forall (fun d => pnl_usd d < 0 /\ success d = false) (d0 :: rest)).
  { rewrite <- Hdraws. apply List.Forall_map. apply List.Forall_forall.
    intros i _. destruct (Hrng i) as [Hd Hk].
    apply draw_below_costs; try assumption. split; assumption. }
  split.
  - unfold np_mean. rewrite Rsum_zero; [unfold Rdiv; ring |].
    apply List.Forall_map. eapply List.Forall_impl; [| exact Hall].
    intros d [_ Hfail]. simpl. rewrite Hfail. reflexivity.
  - assert (Hneg : Forall (fun x => x < 0) (map pnl_usd (d0 :: rest))).
    { apply List.Forall_map. eapply List.Forall_impl; [| exact Hall].
      intros d [Hlt _]. exact Hlt. }
    assert (Hsum : Rsum (map pnl_usd (d0 :: rest)) < 0).
    { clear -Hneg. remember (map pnl_usd (d0 :: rest)) as l eqn:Hl.
      assert (Hne : l <> []) by (rewrite Hl; discriminate). clear Hl.
      induction Hneg as [| x l' Hx Hl' IH]; [congruence |].
      simpl. destruct l' as [| y l''].
      - simpl. lra.
      - assert (Rsum (y :: l'') < 0) by (apply IH; discriminate). lra. }
    unfold np_mean.
    assert (Hlen : 0 < INR (length (map pnl_usd (d0 :: rest)))).
    { apply lt_0_INR. simpl. lia. }
    pose proof (Rinv_0_lt_compat _ Hlen) as Hinv.
    unfold Rdiv. nra.
Qed.

Lemma no_success_below_costs_witness :
  match simulate_bridge_execution_monte_carlo None constant_rng "SOL" 1000 None 10
          (Some 100) (Some (501 / 5)) (Some (1 / 10000)) with
  | McStats stats => success_probability stats = 0 /\ mean_pnl stats < 0
  | McError _ => True
  end.
Proof.
  apply (no_success_below_costs None constant_rng "SOL" 1000 None 10 100 (501 / 5)
           (1 / 10000)).
  - lra.
  - lra.
  - rewrite Rabs_left by lra. lra.
  - intros i. simpl. lra.
Defined.

End MonteCarloStats.

(** ** Bridge: spread bridges *)

Section SpreadBridges.
Import Bridge.
Local Open Scope R_scope.

Lemma insert_by_time_Forall (P : simulation -> Prop) (x : simulation)
    (l : list simulation) :
  P x -> Forall P l -> Forall P (insert_by_time x l).
Proof.
  intros Hx Hl. induction Hl as [| y rest Hy Hrest IH]; simpl.
  - constructor; [assumption | constructor].
  - destruct (sim_timestamp x <=? sim_timestamp y)%Z.
    + constructor; [assumption | constructor; assumption].
    + constructor; assumption.
Qed.

Lemma insert_by_time_sorted (x : simulation) (l : list simulation) :
  StronglySorted by_time l -> StronglySorted by_time (insert_by_time x l).
Proof.
  induction 1 as [| y rest Hsorted IH Hall]; simpl.
  - constructor; constructor.
  - destruct (sim_timestamp x <=? sim_timestamp y)%Z eqn:E.
    + apply Z.leb_le in E. constructor; [constructor; assumption |].
      constructor; [exact E |].
      eapply List.Forall_impl; [| exact Hall].
      intros z Hz. unfold by_time in *. lia.
    + apply Z.leb_gt in E. constructor; [exact IH |].
      apply insert_by_time_Forall; [unfold by_time; lia | assumption].
Qed.

Lemma sort_by_time_sorted (l : list simulation) : StronglySorted by_time (sort_by_time l).
Proof.
  induction l as [| x rest IH]; simpl; [constructor |].
  apply insert_by_time_sorted. exact IH.
Qed.

Lemma viable_count_insert (x : simulation) (l : list simulation) :
  viable_count (insert_by_time x l) = viable_count (x :: l).
Proof.
  unfold viable_count. induction l as [| y rest IH]; simpl; [reflexivity |].
  destruct (sim_timestamp x <=? sim_timestamp y)%Z; simpl; [reflexivity |].
  simpl in IH.
  destruct (is_viable (analysis y)); destruct (is_viable (analysis x)); simpl in *; lia.
Qed.

Lemma viable_count_sort (l : list simulation) :
  viable_count (sort_by_time l) = viable_count l.
Proof.
  induction l as [| x rest IH]; simpl; [reflexivity |].
  rewrite viable_count_insert. unfold viable_count in *. simpl.
  destruct (is_viable (analysis x)); simpl; lia.
Qed.

Lemma opportunities_in_app (l1 l2 : list spread_bridge) :
  opportunities_in (l1 ++ l2) = (opportunities_in l1 + opportunities_in l2)%nat.
Proof.
  unfold opportunities_in. induction l1 as [| b rest IH]; simpl; [reflexivity | lia].
Qed.

Lemma close_bridge_ok (b : spread_bridge) : bridge_ok b -> bridge_ok (close_bridge b).
Proof. intros H. exact H. Qed.

(** The loop over simulations in time order keeps every bridge in order
    and counts every viable simulation once. *)
Lemma bridge_loop (l : list simulation) :
  forall (bridges : list spread_bridge) (current : option spread_bridge),
    StronglySorted by_time l ->
    Forall bridge_ok bridges ->
    match current with
    | Some b => bridge_ok b /\ Forall (fun sim => (end_time b <= sim_timestamp sim)%Z) l
    | None => True
    end ->
    Forall bridge_ok (fst (fold_left bridge_step l (bridges, current)))
    /\ match snd (fold_left bridge_step l (bridges, current)) with
       | Some b => bridge_ok b
       | None => True
       end
    /\ (opportunities_in (fst (fold_left bridge_step l (bridges, current)))
        + open_opportunities (snd (fold_left bridge_step l (bridges, current))))%nat
       = (opportunities_in bridges + open_opportunities current + viable_count l)%nat.
Proof.
  induction l as [| sim rest IH]; intros bridges current Hsorted Hbridges Hcurrent.
  - simpl. split; [assumption |]. split.
    + destruct current as [b |]; [apply Hcurrent | exact I].
    + unfold viable_count. simpl. lia.
  - inversion Hsorted as [| ? ? Hrest Hhead]; subst.
    simpl fold_left.
    remember (bridge_step (bridges, current) sim) as acc eqn:Hacc.
    unfold bridge_step in Hacc.
    unfold viable_count. simpl List.filter.
    destruct (is_viable (analysis sim)) eqn:Hv.
    + destruct current as [b |]; subst acc.
      * destruct Hcurrent as [(Hcount & Hspread & Htime) Hlater].
        inversion Hlater as [| ? ? Hsim Hlater']; subst.
        destruct (IH bridges (Some (extend_bridge b sim)) Hrest Hbridges)
          as (H1 & H2 & H3).
        { split.
          - unfold bridge_ok. cbn [extend_bridge total_opportunities
                                     bridge_min_spread_bps bridge_max_spread_bps
                                     start_time end_time].
            split; [lia |]. split; [| lia].
            eapply Rle_trans; [apply Rmin_l |].
            eapply Rle_trans; [exact Hspread | apply Rmax_l].
          - cbn [extend_bridge end_time]. exact Hhead. }
        split; [exact H1 |]. split; [exact H2 |].
        rewrite H3. unfold viable_count. cbn [open_opportunities extend_bridge
                                               total_opportunities length]. lia.
      * destruct (IH bridges (Some (start_bridge sim)) Hrest Hbridges)
          as (H1 & H2 & H3).
        { split.
          - unfold bridge_ok. cbn [start_bridge total_opportunities
                                     bridge_min_spread_bps bridge_max_spread_bps
                                     start_time end_time].
            split; [lia |]. split; [lra | lia].
          - cbn [start_bridge end_time]. exact Hhead. }
        split; [exact H1 |]. split; [exact H2 |].
        rewrite H3. unfold viable_count. cbn [open_opportunities start_bridge
                                               total_opportunities length]. lia.
    + destruct current as [b |]; subst acc.
      * destruct Hcurrent as [Hok _].
        destruct (IH (bridges ++ [close_bridge b]) None Hrest) as (H1 & H2 & H3).
        { apply List.Forall_app. split; [assumption |].
          constructor; [apply close_bridge_ok; exact Hok | constructor]. }
        { exact I. }
        split; [exact H1 |]. split; [exact H2 |].
        rewrite H3, opportunities_in_app. unfold viable_count, opportunities_in.
        cbn [open_opportunities close_bridge total_opportunities fold_right]. lia.
      * destruct (IH bridges None Hrest Hbridges I) as (H1 & H2 & H3).
        split; [exact H1 |]. split; [exact H2 |].
        rewrite H3. unfold viable_count. cbn [open_opportunities]. lia.
Qed.

(** X17: the spread bridges of a history account for every viable
    simulation of the selected window exactly once, and every bridge
    returned counts at least one opportunity, has its smallest spread
    not above its largest, and does not end before it starts. *)
Theorem spread_bridges_account (cutoff_time : R) (token : option string)
    (history : list simulation) :
  opportunities_in (get_historical_spread_bridges cutoff_time token history)
  = viable_count (recent_simulations cutoff_time token history)
  /\ Forall bridge_ok (get_historical_spread_bridges cutoff_time token history).
Proof.
  unfold get_historical_spread_bridges.
  pose proof (bridge_loop (sort_by_time (recent_simulations cutoff_time token history))
                [] None (sort_by_time_sorted _) (List.Forall_nil _) I) as (H1 & H2 & H3).
  destruct (fold_left bridge_step _ ([], None)) as [bridges current].
  simpl in H1, H2, H3. rewrite viable_count_sort in H3.
  destruct current as [b |].
  - split.
    + rewrite opportunities_in_app. unfold opportunities_in at 2.
      cbn [fold_right close_bridge total_opportunities].
      simpl in H3. lia.
    + apply List.Forall_app. split; [assumption |].
      constructor; [apply close_bridge_ok; exact H2 | constructor].
  - split; [simpl in H3; lia | assumption].
Qed.

End SpreadBridges.

(** ** Arbitrage: the opportunity set *)

Section OpportunitySet.
Import Arbitrage.
Local Open Scope Q_scope.

(** X18: the profit estimate attached to an opportunity breaks even at a
    spread of 0.32%: for a positive notional the net profit is positive
    exactly when the absolute spread is above 0.32 (the two fee rates,
    0.3% and 0.02%), and the ROI on the 10% margin is ten times the
    spread in excess of 0.32. *)
Theorem profit_break_even (spread notional : Q) :
  0 < notional ->
  (0 < net_profit (_calculate_potential_profit spread notional) <-> 32 # 100 < spread)
  /\ roi_pct (_calculate_potential_profit spread notional) == (spread - (32 # 100)) * 10.
Proof.
  intros Hn. unfold _calculate_potential_profit. cbn [net_profit roi_pct].
  assert (Hnet : spread / 100 * notional
                 - (notional * (3 # 1000) + notional * (2 # 10000))
                 == notional * ((spread - (32 # 100)) / 100)) by field.
  split.
  - rewrite Hnet. split; intros H.
    + assert (H1 : 0 < (spread - (32 # 100)) / 100).
      { destruct (Qlt_le_dec 0 ((spread - (32 # 100)) / 100)) as [Hp | Hle];
          [exact Hp |].
        exfalso. apply (Qlt_not_le _ _ H).
        rewrite <- (Qmult_0_r notional).
        apply Qmult_le_l; assumption. }
      assert (H2 : (spread - (32 # 100)) / 100 == (spread - (32 # 100)) * (1 # 100))
        by field.
      rewrite H2 in H1. Lqa.lra.
    + apply Qmult_lt_0_compat; [assumption |].
      assert (H2 : (spread - (32 # 100)) / 100 == (spread - (32 # 100)) * (1 # 100))
        by field.
      rewrite H2. Lqa.lra.
  - destruct (Qlt_le_dec 0 (notional * (1 # 10))) as [_ | Hle].
    + field. intros Hz. rewrite Hz in Hn. exact (Qlt_irrefl 0 Hn).
    + exfalso. apply (Qlt_not_le 0 (notional * (1 # 10))); [| exact Hle].
      apply Qmult_lt_0_compat; [assumption | reflexivity].
Qed.

Lemma profit_break_even_witness :
  (0 < net_profit (_calculate_potential_profit (3 # 10) 1000) <-> 32 # 100 < 3 # 10)
  /\ roi_pct (_calculate_potential_profit (3 # 10) 1000) == ((3 # 10) - (32 # 100)) * 10.
Proof.
  apply (profit_break_even (3 # 10) 1000). reflexivity.
Defined.

Lemma opportunity_for_spec (s : service) (token : string) (o : opportunity) :
  opportunity_for s token = Some o ->
  opp_token o = token
  /\ min_spread_threshold s <= spread_abs o
  /\ spread_abs o = Qabs (spread_pct o)
  /\ potential_profit o = _calculate_potential_profit (spread_abs o) 1000.
Proof.
  unfold opportunity_for.
  destruct (price_data s !! token) as [td |]; [| discriminate].
  destruct (hyperliquid td) as [hl |]; [| discriminate].
  destruct (jupiter td) as [jd |]; [| discriminate].
  destruct (hl_empty hl || jup_empty jd)%bool; [discriminate |].
  destruct (Qlt_le_dec 0 (perp_price_of hl)); [| discriminate].
  destruct (Qlt_le_dec 0 (spot_price_of jd)); [| discriminate].
  destruct (Qle_bool _ _) eqn:Hthr; [| discriminate].
  intros H. injection H as <-. cbn. apply Qle_bool_iff in Hthr.
  repeat split; try reflexivity. exact Hthr.
Qed.

Lemma keys_dict_set {V : Type} (d : list (string * V)) (key : string) (v : V) :
  keys (dict_set d key v)
  = if existsb (String.eqb key) (keys d) then keys d else keys d ++ [key].
Proof.
  unfold keys. induction d as [| [k v0] rest IH]; simpl; [reflexivity |].
  destruct (String.eqb k key) eqn:E.
  - apply String.eqb_eq in E. subst k. rewrite String.eqb_refl. reflexivity.
  - rewrite String.eqb_sym, E. simpl. rewrite IH.
    destruct (existsb (String.eqb key) (map fst rest)); reflexivity.
Qed.

Lemma keys_record (s : service) (d : list (string * opportunity)) (token : string) :
  List.NoDup (keys d) ->
  List.NoDup (keys (record_opportunity s d token))
  /\ (length (record_opportunity s d token) <= S (length d))%nat.
Proof.
  intros Hnd. unfold record_opportunity.
  destruct (opportunity_for s token) as [o |]; [| split; [assumption | lia]].
  split.
  - rewrite keys_dict_set.
    destruct (existsb (String.eqb token) (keys d)) eqn:E; [assumption |].
    apply (Permutation_NoDup (l := token :: keys d)).
    + change (token :: keys d) with ([token] ++ keys d). apply Permutation_app_comm.
    + constructor; [| assumption].
      intros Hin. assert (Ht : existsb (String.eqb token) (keys d) = true).
      { apply existsb_exists. exists token. split; [assumption | apply String.eqb_refl]. }
      rewrite Ht in E. discriminate.
  - assert (Hlen : (length (keys (dict_set d token o)) <= S (length (keys d)))%nat).
    { rewrite keys_dict_set. destruct (existsb _ _); [lia |].
      rewrite List.length_app. simpl. lia. }
    unfold keys in Hlen. rewrite !List.length_map in Hlen. exact Hlen.
Qed.

Lemma fold_record_keys (s : service) (tokens : list string) :
  forall d : list (string * opportunity),
    List.NoDup (keys d) ->
    List.NoDup (keys (fold_left (record_opportunity s) tokens d))
    /\ (length (fold_left (record_opportunity s) tokens d)
        <= length d + length tokens)%nat.
Proof.
  induction tokens as [| t ts IH]; intros d Hnd; simpl.
  - split; [assumption | lia].
  - destruct (keys_record s d t Hnd) as [Hnd' Hlen'].
    destruct (IH _ Hnd') as [H1 H2]. split; [assumption | lia].
Qed.

Lemma dict_get_of_In {V : Type} (d : list (string * V)) (key : string) (v : V) :
  List.NoDup (keys d) -> In (key, v) d -> Py.dict_get d key = Some v.
Proof.
  unfold keys. induction d as [| [k v0] rest IH]; simpl; intros Hnd Hin; [contradiction |].
  inversion Hnd as [| ? ? Hnotin Hrest]; subst.
  destruct Hin as [Heq | Hin].
  - injection Heq as -> ->. rewrite String.eqb_refl. reflexivity.
  - destruct (String.eqb k key) eqn:E.
    + apply String.eqb_eq in E. subst k. exfalso. apply Hnotin.
      apply in_map_iff. exists (key, v). split; [reflexivity | assumption].
    + apply IH; assumption.
Qed.

Lemma opportunities_well_formed_aux (s : service) :
  (List.NoDup (keys (arbitrage_opportunities (_calculate_arbitrage_opportunities s)))
   /\ (length (arbitrage_opportunities (_calculate_arbitrage_opportunities s))
       <= length (supported_tokens s))%nat)
  /\ Forall (fun kv => In (fst kv) (supported_tokens s)
                       /\ opportunity_for s (fst kv) = Some (snd kv)
                       /\ opp_token (snd kv) = fst kv
                       /\ min_spread_threshold s <= spread_abs (snd kv))
            (arbitrage_opportunities (_calculate_arbitrage_opportunities s)).
Proof.
  unfold _calculate_arbitrage_opportunities. cbn [arbitrage_opportunities].
  destruct (fold_record_keys s (supported_tokens s) [] (List.NoDup_nil _)) as [Hnd Hlen].
  split; [split; [exact Hnd | simpl in Hlen; exact Hlen] |].
  apply List.Forall_forall. intros [k o] Hin. cbn [fst snd].
  pose proof (dict_get_of_In _ k o Hnd Hin) as Hget.
  rewrite fold_record_get in Hget.
  destruct (opportunity_for s k) as [o' |] eqn:Hfor; [| discriminate].
  destruct (existsb (String.eqb k) (supported_tokens s)) eqn:Hex; [| discriminate].
  injection Hget as ->.
  destruct (opportunity_for_spec s k o Hfor) as (Htok & Hthr & _).
  apply existsb_exists in Hex. destruct Hex as (t & Ht & Heq).
  apply String.eqb_eq in Heq. subst t.
  repeat split; assumption.
Qed.

(** X19: after a recalculation the opportunity dict has one entry per
    key and no more entries than there are tracked tokens, and every
    entry belongs to a tracked token, is the one the detector computes
    for that token, carries the token as its own, and has an absolute
    spread of at least the threshold. *)
Theorem opportunities_well_formed (s : service) :
  List.NoDup (keys (arbitrage_opportunities (_calculate_arbitrage_opportunities s)))
  /\ (length (arbitrage_opportunities (_calculate_arbitrage_opportunities s))
      <= length (supported_tokens s))%nat
  /\ Forall (fun kv => In (fst kv) (supported_tokens s)
                       /\ opportunity_for s (fst kv) = Some (snd kv)
                       /\ opp_token (snd kv) = fst kv
                       /\ min_spread_threshold s <= spread_abs (snd kv))
            (arbitrage_opportunities (_calculate_arbitrage_opportunities s)).
Proof.
  destruct (opportunities_well_formed_aux s) as [[H1 H2] H3].
  split; [exact H1 | split; [exact H2 | exact H3]].
Qed.

(** X20: with a minimum spread, [get_arbitrage_opportunities] returns
    exactly the stored opportunities whose absolute spread reaches it,
    so never more than without one; without one it returns all of them,
    rearranged. *)
Theorem min_spread_selects (s : service) (m : Q) (o : opportunity) :
  (In o (get_arbitrage_opportunities s (Some m))
   <-> In o (map snd (arbitrage_opportunities s)) /\ m <= spread_abs o)
  /\ (length (get_arbitrage_opportunities s (Some m))
      <= length (get_arbitrage_opportunities s None))%nat
  /\ Permutation (map snd (arbitrage_opportunities s))
                 (get_arbitrage_opportunities s None).
Proof.
  unfold get_arbitrage_opportunities.
  split; [| split].
  - split.
    + intros Hin.
      apply (Permutation_in _ (Permutation_sym (sort_by_spread_perm _))) in Hin.
      apply filter_In in Hin. destruct Hin as [Hin Hle].
      split; [assumption | apply Qle_bool_iff; assumption].
    + intros [Hin Hle].
      apply (Permutation_in _ (sort_by_spread_perm _)).
      apply filter_In. split; [assumption | apply Qle_bool_iff; assumption].
  - rewrite <- (Permutation_length (sort_by_spread_perm _)).
    rewrite <- (Permutation_length (sort_by_spread_perm _)).
    apply List.filter_length_le.
  - apply sort_by_spread_perm.
Qed.

End OpportunitySet.

(** ** Arbitrage: history and overview *)

Section HistoryOverview.
Import Arbitrage.
Local Open Scope Q_scope.

Lemma py_max_ge_init (l : list Q) : forall x, x <= py_max x l.
Proof.
  unfold py_max. induction l as [| y l IH]; intros x; simpl.
  - apply Qle_refl.
  - destruct (Qlt_le_dec x y) as [Hlt | Hle].
    + apply Qle_trans with y; [apply Qlt_le_weak; exact Hlt | apply IH].
    + apply IH.
Qed.

Lemma py_max_upper (l : list Q) : forall x, Forall (fun y => y <= py_max x l) l.
Proof.
  unfold py_max. induction l as [| y l IH]; intros x; simpl; constructor.
  - destruct (Qlt_le_dec x y) as [Hlt | Hle].
    + apply (py_max_ge_init l y).
    + apply Qle_trans with x; [exact Hle | apply (py_max_ge_init l x)].
  - apply IH.
Qed.

Lemma inject_length_succ (n : nat) :
  inject_Z (Z.of_nat (S n)) == inject_Z (Z.of_nat n) + 1.
Proof.
  rewrite Nat2Z.inj_succ. unfold Z.succ. rewrite inject_Z_plus. reflexivity.
Qed.

Lemma inject_length_nonneg (n : nat) : 0 <= inject_Z (Z.of_nat n).
Proof.
  change 0 with (inject_Z 0). rewrite <- Zle_Qle. lia.
Qed.

Lemma Qsum_bounds (lo hi : Q) (l : list Q) :
  Forall (fun y => lo <= y /\ y <= hi) l ->
  lo * inject_Z (Z.of_nat (length l)) <= Qsum l
  /\ Qsum l <= hi * inject_Z (Z.of_nat (length l)).
Proof.
  induction 1 as [| y l [Hlo Hhi] _ [IHlo IHhi]].
  - cbn [length Qsum fold_right]. change (inject_Z (Z.of_nat 0)) with 0.
    split; Lqa.lra.
  - cbn [length Qsum fold_right]. fold (Qsum l).
    rewrite inject_length_succ.
    split; Lqa.lra.
Qed.

Lemma q_mean_bounds (lo hi x : Q) (l : list Q) :
  Forall (fun y => lo <= y /\ y <= hi) (x :: l) ->
  lo <= q_mean (x :: l) /\ q_mean (x :: l) <= hi.
Proof.
  intros Hall. destruct (Qsum_bounds lo hi _ Hall) as [Hlo Hhi].
  assert (Hpos : 0 < inject_Z (Z.of_nat (length (x :: l)))).
  { cbn [length]. rewrite inject_length_succ.
    pose proof (inject_length_nonneg (length l)). Lqa.lra. }
  unfold q_mean. split.
  - apply Qle_shift_div_l; assumption.
  - apply Qle_shift_div_r; assumption.
Qed.

Lemma spreads_above_threshold (s : service) :
  Forall (fun y => min_spread_threshold s <= y)
         (spreads (_calculate_arbitrage_opportunities s)).
Proof.
  unfold spreads. apply List.Forall_map.
  destruct (opportunities_well_formed_aux s) as [_ H].
  eapply List.Forall_impl; [| exact H].
  intros kv (_ & _ & _ & Hthr). exact Hthr.
Qed.

(** X21: [_store_historical_data] appends one data point and keeps the
    last 1000: the new history ends with the new point and has
    min(len + 1, 1000) entries.  The point counts the opportunities;
    with none its maximum and average spread are 0, otherwise, right
    after a recalculation, threshold <= avg_spread <= max_spread. *)
Theorem history_point (now : Z) (s : service) (history : list data_point) :
  let s' := _calculate_arbitrage_opportunities s in
  exists front dp,
    _store_historical_data now s' history = front ++ [dp]
    /\ length (_store_historical_data now s' history)
       = Nat.min (S (length history)) 1000
    /\ dp_timestamp dp = now
    /\ dp_opportunities dp = length (arbitrage_opportunities s')
    /\ match arbitrage_opportunities s' with
       | [] => dp_max_spread dp = 0 /\ dp_avg_spread dp = 0
       | _ :: _ => min_spread_threshold s <= dp_avg_spread dp
                   /\ dp_avg_spread dp <= dp_max_spread dp
       end.
Proof.
  intros s'. unfold _store_historical_data.
  pose proof (spreads_above_threshold s) as Hthr. fold s' in Hthr.
  set (dp := match spreads s' with
             | [] => _
             | x :: rest => _
             end).
  assert (Hdp : dp_timestamp dp = now
                /\ dp_opportunities dp = length (arbitrage_opportunities s')
                /\ match arbitrage_opportunities s' with
                   | [] => dp_max_spread dp = 0 /\ dp_avg_spread dp = 0
                   | _ :: _ => min_spread_threshold s <= dp_avg_spread dp
                               /\ dp_avg_spread dp <= dp_max_spread dp
                   end).
  { subst dp. unfold spreads in *.
    destruct (arbitrage_opportunities s') as [| kv rest]; cbn [map].
    - repeat split.
    - cbn [dp_timestamp dp_opportunities dp_max_spread dp_avg_spread].
      split; [reflexivity |]. split; [reflexivity |].
      cbn [map] in Hthr.
      set (x := spread_abs (snd kv)) in *.
      set (l := map (fun kv0 => spread_abs (snd kv0)) rest) in *.
      apply (q_mean_bounds (min_spread_threshold s) (py_max x l) x l).
      inversion Hthr as [| ? ? Hx Hl]; subst.
      constructor.
      + split; [exact Hx | apply py_max_ge_init].
      + exact (List.Forall_and Hl (py_max_upper l x)). }
  clearbody dp. cbv zeta.
  destruct (1000 <? length (history ++ [dp]))%nat eqn:Hlen.
  - apply Nat.ltb_lt in Hlen.
    rewrite List.length_app in Hlen. cbn [length] in Hlen.
    destruct (last_n_snoc 1000 history dp) as [front Hfront]; [lia |].
    exists front, dp.
    split; [exact Hfront | split; [| exact Hdp]].
    rewrite last_n_length, List.length_app. cbn [length]. lia.
  - apply Nat.ltb_ge in Hlen.
    rewrite List.length_app in Hlen. cbn [length] in Hlen.
    exists history, dp.
    split; [reflexivity | split; [| exact Hdp]].
    rewrite List.length_app. cbn [length]. lia.
Qed.

Lemma hd_sort_cons (x : opportunity) (l : list opportunity) :
  hd_error (sort_by_spread (x :: l))
  = Some (match hd_error (sort_by_spread l) with
          | None => x
          | Some y => if Qle_bool (spread_abs y) (spread_abs x) then x else y
          end).
Proof.
  cbn [sort_by_spread fold_right]. fold (sort_by_spread l).
  destruct (sort_by_spread l) as [| y r]; simpl; [reflexivity |].
  destruct (Qle_bool (spread_abs y) (spread_abs x)); reflexivity.
Qed.

Lemma Qle_bool_false (a b : Q) : Qle_bool a b = false -> b < a.
Proof.
  intros H. apply Qnot_le_lt. intros Hle.
  apply Qle_bool_iff in Hle. rewrite Hle in H. discriminate.
Qed.

Lemma max_by_spread_hd (l : list opportunity) :
  forall best,
    max_by_spread best l
    = match hd_error (sort_by_spread l) with
      | None => best
      | Some y => if Qle_bool (spread_abs y) (spread_abs best) then best else y
      end.
Proof.
  induction l as [| z l IH]; intros best; [reflexivity |].
  rewrite hd_sort_cons.
  change (max_by_spread best (z :: l))
    with (max_by_spread (if Qlt_le_dec (spread_abs best) (spread_abs z)
                         then z else best) l).
  rewrite IH.
  destruct (hd_error (sort_by_spread l)) as [y |];
    destruct (Qlt_le_dec (spread_abs best) (spread_abs z)) as [A | A];
    cbv beta iota;
    repeat match goal with
           | |- context [Qle_bool (spread_abs ?u) (spread_abs ?v)] =>
               is_var u; is_var v;
               let E := fresh "E" in
               destruct (Qle_bool (spread_abs u) (spread_abs v)) eqn:E;
               [apply Qle_bool_iff in E | apply Qle_bool_false in E];
               cbv beta iota in *
           end;
    try reflexivity; exfalso; Lqa.lra.
Qed.

Lemma py_max_by_spread (l : list opportunity) :
  forall x, py_max (spread_abs x) (map spread_abs l) = spread_abs (max_by_spread x l).
Proof.
  unfold py_max, max_by_spread.
  induction l as [| y l IH]; intros x; simpl; [reflexivity |].
  destruct (Qlt_le_dec (spread_abs x) (spread_abs y)); apply IH.
Qed.

(** X22: the market overview agrees with the opportunity list: its
    top opportunity is the first item of [get_arbitrage_opportunities]
    (none when the list is empty), its maximum spread is that item's
    absolute spread (0 when there is none), and its total is the length
    of the list. *)
Theorem overview_top_is_first (s : service) :
  top_opportunity (get_market_overview s)
  = hd_error (get_arbitrage_opportunities s None)
  /\ max_spread_pct (get_market_overview s)
     = match hd_error (get_arbitrage_opportunities s None) with
       | Some o => spread_abs o
       | None => 0
       end
  /\ total_opportunities (get_market_overview s)
     = length (get_arbitrage_opportunities s None).
Proof.
  unfold get_market_overview, get_arbitrage_opportunities. cbv zeta.
  rewrite <- (Permutation_length (sort_by_spread_perm _)), List.length_map.
  destruct (map snd (arbitrage_opportunities s)) as [| x rest] eqn:Hvals.
  - destruct (arbitrage_opportunities s); [| discriminate].
    repeat split.
  - cbn [top_opportunity max_spread_pct total_opportunities].
    rewrite hd_sort_cons, <- (max_by_spread_hd rest x), py_max_by_spread.
    repeat split.
Qed.

End HistoryOverview.

(** ** Cache: the remote tier *)

Section CacheRemote.
Import Cache.
Local Open Scope Z_scope.

Variable V : Type.
Variable dumps : V -> option string.
Variable loads : string -> option V.

Lemma get_remote (c : cache V) (key : string) (now : Z) :
  redis_connected V c = true -> server_up V c = true ->
  local_cache V c !! key = None ->
  get V loads c key now
  = match redis_get V c key now with
    | Some value => if Py.truthy_str value then loads value else None
    | None => None
    end.
Proof.
  intros Hconn Hup Hlocal. unfold get, local_get.
  rewrite Hlocal, Hconn, Hup. reflexivity.
Qed.

Lemma set_connected (c : cache V) (key : string) (value : V) (json : string)
    (ttl : option Z) (now : Z) :
  redis_connected V c = true -> server_up V c = true ->
  dumps value = Some json -> 0 < ttl_or ttl (default_ttl V c) ->
  set V dumps c key value ttl now
  = (Returned true,
     with_redis_store V c
       (<[key := (json, now + ttl_or ttl (default_ttl V c))]> (redis_store V c))).
Proof.
  intros Hconn Hup Hdumps Httl. unfold set, with_redis_store.
  rewrite Hconn, Hdumps, Hup. cbv zeta.
  destruct (Z.leb_spec (ttl_or ttl (default_ttl V c)) 0); [lia | reflexivity].
Qed.

Lemma redis_get_stored (c : cache V) (store : gmap string (string * Z))
    (key : string) (now : Z) :
  redis_get V (with_redis_store V c store) key now
  = match store !! key with
    | Some (s, expires) => if now <? expires then Some s else None
    | None => None
    end.
Proof. reflexivity. Qed.

Lemma set_then_get (c : cache V) (key : string) (value : V)
    (json : string) (ttl : option Z) (now later : Z) :
  redis_connected V c = true -> server_up V c = true ->
  local_cache V c !! key = None ->
  dumps value = Some json -> Py.truthy_str json = true -> loads json = Some value ->
  0 < ttl_or ttl (default_ttl V c) ->
  fst (set V dumps c key value ttl now) = Returned true
  /\ (now <= later < now + ttl_or ttl (default_ttl V c) ->
      get V loads (snd (set V dumps c key value ttl now)) key later = Some value)
  /\ (now + ttl_or ttl (default_ttl V c) <= later ->
      get V loads (snd (set V dumps c key value ttl now)) key later = None)
  /\ (forall key', key' <> key ->
      get V loads (snd (set V dumps c key value ttl now)) key' later
      = get V loads c key' later).
Proof.
  intros Hconn Hup Hlocal Hdumps Htruthy Hloads Httl.
  rewrite (set_connected c key value json ttl now Hconn Hup Hdumps Httl).
  cbn [fst snd]. split; [reflexivity |].
  split; [| split].
  - intros Hlater.
    rewrite get_remote by assumption.
    rewrite redis_get_stored, lookup_insert_eq.
    destruct (Z.ltb_spec later (now + ttl_or ttl (default_ttl V c))); [| lia].
    rewrite Htruthy. exact Hloads.
  - intros Hlater.
    rewrite get_remote by assumption.
    rewrite redis_get_stored, lookup_insert_eq.
    destruct (Z.ltb_spec later (now + ttl_or ttl (default_ttl V c))); [lia |].
    reflexivity.
  - intros key' Hne. unfold get, local_get, redis_get.
    cbn [with_redis_store local_cache redis_store redis_connected server_up].
    rewrite lookup_insert_ne by congruence. reflexivity.
Qed.

(** X23: on a connected cache with a reachable server, a value whose
    JSON text loads back to it is returned by [get] from the moment it
    is [set] until its TTL (the given one, or the default when none or 0
    is given) has passed, and no longer from then on; the entries of
    other keys are not affected. *)
Theorem set_get_round_trip (c : cache V) (key : string) (value : V)
    (json : string) (ttl : option Z) (now later : Z) :
  redis_connected V c = true -> server_up V c = true ->
  local_cache V c !! key = None ->
  dumps value = Some json -> Py.truthy_str json = true -> loads json = Some value ->
  0 < ttl_or ttl (default_ttl V c) ->
  fst (set V dumps c key value ttl now) = Returned true
  /\ (now <= later < now + ttl_or ttl (default_ttl V c) ->
      get V loads (snd (set V dumps c key value ttl now)) key later = Some value)
  /\ (now + ttl_or ttl (default_ttl V c) <= later ->
      get V loads (snd (set V dumps c key value ttl now)) key later = None)
  /\ (forall key', key' <> key ->
      get V loads (snd (set V dumps c key value ttl now)) key' later
      = get V loads c key' later).
Proof. exact (set_then_get c key value json ttl now later). Qed.

(** X24: on a connected cache with a reachable server, [delete] tells
    whether the key was live, after it the key is neither found by
    [exists] nor returned by [get], and other keys are not affected;
    after [flush_all] no key is found. *)
Theorem delete_and_flush_remove (c : cache V) (key : string) (now later : Z) :
  redis_connected V c = true -> server_up V c = true ->
  local_cache V c = ∅ ->
  fst (delete V c key now) = exists_ V c key now
  /\ get V loads (snd (delete V c key now)) key later = None
  /\ exists_ V (snd (delete V c key now)) key later = false
  /\ (forall key', key' <> key ->
      get V loads (snd (delete V c key now)) key' later = get V loads c key' later)
  /\ fst (flush_all V c) = true
  /\ (forall key', get V loads (snd (flush_all V c)) key' later = None
                   /\ exists_ V (snd (flush_all V c)) key' later = false).
Proof.
  intros Hconn Hup Hlocal.
  unfold delete, exists_, flush_all. rewrite Hconn, Hup. cbn [negb fst snd].
  split; [reflexivity |].
  assert (Hl : forall k, local_cache V c !! k = None).
  { intros k. rewrite Hlocal. apply lookup_empty. }
  split; [| split; [| split; [| split; [reflexivity |]]]].
  - rewrite get_remote by (try assumption; apply Hl).
    rewrite redis_get_stored, lookup_delete_eq. reflexivity.
  - cbn [with_redis_store redis_connected server_up negb].
    rewrite Hconn, Hup. cbn [negb].
    rewrite redis_get_stored, lookup_delete_eq. reflexivity.
  - intros key' Hne. unfold get, local_get, redis_get.
    cbn [with_redis_store local_cache redis_store redis_connected server_up].
    rewrite lookup_delete_ne by congruence. reflexivity.
  - intros key'. split.
    + rewrite get_remote by (try assumption; apply Hl).
      rewrite redis_get_stored, lookup_empty. reflexivity.
    + cbn [with_redis_store redis_connected server_up negb].
      rewrite Hconn, Hup. cbn [negb].
      rewrite redis_get_stored, lookup_empty. reflexivity.
Qed.

(** X25: the wrapper of [with_cache] on a connected cache with a
    reachable server.  On a miss the function is called; a [None]
    result is returned and not stored; another result is returned and
    stored, and until its TTL has passed every later call returns it
    without calling the function, whatever the function would return
    then. *)
Theorem with_cache_hits_within_ttl (c : cache V) (cache_key : string)
    (result : V) (json : string) (ttl : option Z) (now later : Z)
    (func' : option V) :
  redis_connected V c = true -> server_up V c = true ->
  local_cache V c !! cache_key = None ->
  dumps result = Some json -> Py.truthy_str json = true -> loads json = Some result ->
  0 < ttl_or ttl (default_ttl V c) ->
  get V loads c cache_key now = None ->
  with_cache V dumps loads c cache_key ttl None now = (Miss V None, c)
  /\ fst (with_cache V dumps loads c cache_key ttl (Some result) now)
     = Miss V (Some result)
  /\ (now <= later < now + ttl_or ttl (default_ttl V c) ->
      with_cache V dumps loads
        (snd (with_cache V dumps loads c cache_key ttl (Some result) now))
        cache_key ttl func' later
      = (Hit V result,
         snd (with_cache V dumps loads c cache_key ttl (Some result) now))).
Proof.
  intros Hconn Hup Hlocal Hdumps Htruthy Hloads Httl Hmiss.
  destruct (set_then_get c cache_key result json ttl now later
              Hconn Hup Hlocal Hdumps Htruthy Hloads Httl) as (Hret & Hin & _).
  assert (Hfirst : with_cache V dumps loads c cache_key ttl (Some result) now
                   = (Miss V (Some result),
                      snd (set V dumps c cache_key result ttl now))).
  { unfold with_cache. rewrite Hmiss.
    destruct (set V dumps c cache_key result ttl now) as [r c'].
    cbn [fst] in Hret. subst r. reflexivity. }
  rewrite Hfirst. cbn [fst snd].
  split; [unfold with_cache; rewrite Hmiss; reflexivity |].
  split; [reflexivity |].
  intros Hlater. unfold with_cache. rewrite (Hin Hlater). reflexivity.
Qed.

End CacheRemote.

Lemma set_get_round_trip_witness :
  fst (Cache.set string Some (Cache.init_connected string 7) "prices:SOL" "150" None 0)
  = Cache.Returned true
  /\ Cache.get string Some
       (snd (Cache.set string Some (Cache.init_connected string 7)
               "prices:SOL" "150" None 0)) "prices:SOL" 6
     = Some "150"%string.
Proof.
  destruct (set_get_round_trip string Some Some (Cache.init_connected string 7)
              "prices:SOL" "150" "150" None 0 6) as (H1 & H2 & _);
    try reflexivity.
  split; [exact H1 | apply H2; split; [vm_compute; discriminate | reflexivity]].
Defined.

Lemma delete_and_flush_remove_witness :
  Cache.get string Some
    (snd (Cache.delete string (Cache.init_connected string 7) "prices:SOL" 0))
    "prices:SOL" 1 = None.
Proof.
  exact (proj1 (proj2 (delete_and_flush_remove string Some
                         (Cache.init_connected string 7) "prices:SOL" 0 1
                         eq_refl eq_refl eq_refl))).
Defined.

Lemma with_cache_hits_within_ttl_witness :
  Cache.with_cache string Some Some
    (snd (Cache.with_cache string Some Some (Cache.init_connected string 7)
            "api:get_price:1" None (Some "150"%string) 0))
    "api:get_price:1" None (Some "151"%string) 6
  = (Cache.Hit string "150",
     snd (Cache.with_cache string Some Some (Cache.init_connected string 7)
            "api:get_price:1" None (Some "150"%string) 0)).
Proof.
  destruct (with_cache_hits_within_ttl string Some Some
              (Cache.init_connected string 7) "api:get_price:1" "150" "150"
              None 0 6 (Some "151"%string)
              eq_refl eq_refl eq_refl eq_refl eq_refl eq_refl eq_refl eq_refl)
    as (_ & _ & H).
  apply H. split; [vm_compute; discriminate | reflexivity].
Defined.

(** ** Retry with exponential backoff *)

Section BackoffWrapper.
Import Backoff.
Local Open Scope R_scope.

Variable A : Type.
Variable max_retries : Z.
Variables base_delay max_delay : R.
Variable jitter : bool.
Variable func : nat -> option A.
Variable random : nat -> R.

Local Abbreviation loop :=
  (loop A max_retries base_delay max_delay jitter func random).
Local Abbreviation wrapper :=
  (wrapper A max_retries base_delay max_delay jitter func random).
Local Abbreviation delay_for := (delay_for base_delay max_delay jitter random).



Lemma loop_sleeps (P : R -> Prop) :
  (forall i, P (delay_for i)) ->
  forall fuel attempt : nat,
    (fuel = 0%nat \/ Z.of_nat attempt + Z.of_nat fuel = max_retries + 1)%Z ->
    Forall P (snd (loop fuel attempt))
    /\ (length (snd (loop fuel attempt)) <= fuel - 1)%nat.
Proof.
  intros HP. induction fuel as [| fuel IH]; intros attempt Hsum.
  - split; [constructor | simpl; lia].
  - destruct Hsum as [Hz | Hsum]; [discriminate |].
    cbn [Backoff.loop].
    destruct (func attempt); [split; [constructor | simpl; lia] |].
    destruct (Z.eqb_spec (Z.of_nat attempt) max_retries) as [Heq | Hne];
      [split; [constructor | simpl; lia] |].
    destruct (1024 <=? attempt)%nat; [split; [constructor | simpl; lia] |].
    cbv zeta.
    destruct (Rlt_dec (delay_for attempt) 0);
      [split; [constructor | simpl; lia] |].
    destruct (IH (S attempt)) as [Hall Hlen]; [right; lia |].
    destruct (Backoff.loop _ _ _ _ _ _ _ fuel (S attempt)) as [r slept].
    cbn [snd length] in *. split; [constructor; [apply HP | exact Hall] |].
    destruct fuel as [| fuel]; lia.
Qed.

Lemma delay_for_range (i : nat) :
  0 <= base_delay -> 0 <= max_delay -> 0 <= random i < 1 ->
  0 <= delay_for i <= max_delay.
Proof.
  intros Hbase Hmax Hrand. unfold Backoff.delay_for. cbv zeta.
  assert (Hpow : 0 <= base_delay * 2 ^ i).
  { apply Rmult_le_pos; [assumption |]. apply pow_le. lra. }
  assert (Hd : 0 <= Rmin (base_delay * 2 ^ i) max_delay <= max_delay).
  { split; [apply Rmin_glb; assumption | apply Rmin_r]. }
  destruct jitter; [| exact Hd].
  split; nra.
Qed.


(** X27: whatever the wrapped function does, the wrapper of
    [with_exponential_backoff] sleeps at most max_retries times, and
    with non-negative base and maximum delay each sleep lasts between
    0 and max_delay; without jitter the delay after attempt i is
    min(base_delay * 2^i, max_delay), which does not decrease with i. *)
Theorem backoff_delays_bounded :
  0 <= base_delay -> 0 <= max_delay -> (forall i, 0 <= random i < 1) ->
  Forall (fun d => 0 <= d <= max_delay) (snd wrapper)
  /\ (length (snd wrapper) <= Z.to_nat max_retries)%nat
  /\ (jitter = false ->
      forall i, delay_for i = Rmin (base_delay * 2 ^ i) max_delay
                /\ delay_for i <= delay_for (S i)).
Proof.
  intros Hbase Hmax Hrand.
  destruct (loop_sleeps (fun d => 0 <= d <= max_delay)
              (fun i => delay_for_range i Hbase Hmax (Hrand i))
              (Z.to_nat (max_retries + 1)) 0%nat) as [Hall Hlen].
  { destruct (Z.lt_ge_cases max_retries 0); [left | right]; lia. }
  split; [exact Hall |]. split; [unfold Backoff.wrapper; lia |].
  intros Hjit i. unfold Backoff.delay_for. rewrite Hjit. cbv zeta.
  split; [reflexivity |].
  apply Rle_min_compat_r. cbn [pow].
  assert (Hpow : 0 <= 2 ^ i) by (apply pow_le; lra).
  nra.
Qed.

End BackoffWrapper.


Lemma backoff_delays_bounded_witness :
  (length (snd (Backoff.wrapper nat 3 1 60 true (fun _ => None) (fun _ => 0%R)))
   <= Z.to_nat 3)%nat.
Proof.
  apply (backoff_delays_bounded nat 3 1 60 true (fun _ => None) (fun _ => 0%R)).
  - lra.
  - lra.
  - intros i. lra.
Defined.

(** ** Listener: reconnection *)

Section ReconnectionLoop.
Import Listener.
Local Open Scope Z_scope.

Ltac listener_cases :=
  unfold iteration, on_exception, on_connection_closed, on_connected,
    double_delay, _handle_reconnection, fallback_switch,
    max_reconnect_attempts, base_delay, max_delay in *;
  cbn [negb andb ws_url use_testnet_fallback running reconnect_attempts delay] in *;
  repeat (match goal with
          | |- context [Z.ltb ?a ?b] => destruct (Z.ltb_spec a b)
          | |- context [Z.leb ?a ?b] => destruct (Z.leb_spec a b)
          end;
          cbn [negb andb ws_url use_testnet_fallback running reconnect_attempts
               delay] in *).

Lemma iteration_ok (l : listener) (a : attempt) :
  listener_ok l -> listener_ok (iteration l a).
Proof.
  unfold listener_ok. intros (Hatt & Hdelay & Hurl & Hrun).
  destruct l as [url flag run n d].
  cbn [ws_url use_testnet_fallback running reconnect_attempts delay] in *.
  destruct run, flag, a; listener_cases;
    (split; [lia |]); (split; [lia |]);
    (split; [first [exact Hurl | right; split; reflexivity] |]);
    first [left; reflexivity | right; lia].
Qed.

Lemma connect_ok (attempts : list attempt) :
  forall l, listener_ok l -> listener_ok (connect attempts l).
Proof.
  unfold connect. induction attempts as [| a rest IH]; intros l Hl; [exact Hl |].
  simpl. apply IH, iteration_ok, Hl.
Qed.

(** X28: whatever happens to the connection attempts of a started
    listener, the attempt counter stays within 0..10 and the delay
    within 1..60 seconds, the URL is the mainnet one exactly as long
    as the fallback flag is off and the testnet one afterwards, and the
    loop only stops running with the counter at 10. *)
Theorem listener_invariant (attempts : list attempt) :
  0 <= reconnect_attempts (connect attempts started) <= 10
  /\ 1 <= delay (connect attempts started) <= 60
  /\ ((use_testnet_fallback (connect attempts started) = false
       /\ ws_url (connect attempts started) = mainnet_ws_url)
      \/ (use_testnet_fallback (connect attempts started) = true
          /\ ws_url (connect attempts started) = testnet_ws_url))
  /\ (running (connect attempts started) = true
      \/ reconnect_attempts (connect attempts started) = 10).
Proof.
  apply (connect_ok attempts started).
  unfold listener_ok, started, max_reconnect_attempts, base_delay, max_delay.
  cbn. repeat split; try lia; left; split; reflexivity.
Qed.

Lemma connect_stopped (attempts : list attempt) (l : listener) :
  running l = false -> connect attempts l = l.
Proof.
  intros Hstop. unfold connect.
  induction attempts as [| a rest IH]; [reflexivity |].
  simpl. unfold iteration at 2. rewrite Hstop. exact IH.
Qed.

Lemma connect_app (xs ys : list attempt) (l : listener) :
  connect (xs ++ ys) l = connect ys (connect xs l).
Proof. unfold connect. apply fold_left_app. Qed.

(** X29: a started listener whose connection attempts all fail makes
    13 of them, 4 on the mainnet endpoint and 9 on the testnet one, and
    then stops: after n failures it is still running iff n < 13, it is
    on the testnet endpoint iff n >= 4, the counter is n before the
    switch, n - 3 after it and 10 at the end, and the delay is
    min(2^n, 60). *)
Theorem never_connecting (n : nat) :
  running (connect (repeat ConnectError n) started) = (n <? 13)%nat
  /\ use_testnet_fallback (connect (repeat ConnectError n) started) = (4 <=? n)%nat
  /\ reconnect_attempts (connect (repeat ConnectError n) started)
     = (if (n <? 4)%nat then Z.of_nat n
        else if (n <? 13)%nat then Z.of_nat n - 3 else 10)
  /\ delay (connect (repeat ConnectError n) started) = Z.min (2 ^ Z.of_nat n) 60.
Proof.
  do 14 (destruct n as [| n]; [vm_compute; repeat split |]).
  replace (S (S (S (S (S (S (S (S (S (S (S (S (S (S n))))))))))))))
    with (13 + S n)%nat by lia.
  rewrite repeat_app, connect_app.
  rewrite (connect_stopped (repeat ConnectError (S n))) by reflexivity.
  assert (Hpow : 2 ^ 13 <= 2 ^ Z.of_nat (13 + S n)).
  { apply Z.pow_le_mono_r; lia. }
  change (2 ^ 13) with 8192 in Hpow.
  replace ((13 + S n <? 13)%nat) with false by (symmetry; apply Nat.ltb_ge; lia).
  replace ((13 + S n <? 4)%nat) with false by (symmetry; apply Nat.ltb_ge; lia).
  replace ((4 <=? 13 + S n)%nat) with true by (symmetry; apply Nat.leb_le; lia).
  rewrite Z.min_r by lia.
  vm_compute. repeat split.
Qed.

Lemma flapping_iteration (l : listener) (a : attempt) :
  a <> ConnectError -> flapping_ok l -> flapping_ok (iteration l a).
Proof.
  unfold flapping_ok. intros Ha (Hrun & Hflag & Hurl & Hatt & Hdelay).
  destruct l as [url flag run n d].
  cbn [ws_url use_testnet_fallback running reconnect_attempts delay] in *.
  subst run flag url.
  destruct a; [contradiction | | |]; listener_cases;
    repeat split; first [reflexivity | lia].
Qed.

(** X30: a listener that connects every time and loses the session
    again (closed, failed or ended) never gives up and never leaves the
    mainnet endpoint: it keeps running, the counter stays at 0 or 1
    and the delay at 1 or 2 seconds. *)
Theorem sessions_never_give_up (attempts : list attempt) :
  Forall (fun a => a <> ConnectError) attempts ->
  running (connect attempts started) = true
  /\ use_testnet_fallback (connect attempts started) = false
  /\ ws_url (connect attempts started) = mainnet_ws_url
  /\ 0 <= reconnect_attempts (connect attempts started) <= 1
  /\ 1 <= delay (connect attempts started) <= 2.
Proof.
  intros Hall.
  assert (H : forall l, flapping_ok l -> flapping_ok (connect attempts l)).
  { unfold connect. induction Hall as [| a rest Ha _ IH]; intros l Hl; [exact Hl |].
    simpl. apply IH, flapping_iteration; assumption. }
  apply (H started). unfold flapping_ok, started, base_delay.
  cbn. repeat split; lia.
Qed.

Lemma sessions_never_give_up_witness :
  running (connect [SessionClosed; SessionError; SessionEnded] started) = true
  /\ use_testnet_fallback (connect [SessionClosed; SessionError; SessionEnded] started)
     = false
  /\ ws_url (connect [SessionClosed; SessionError; SessionEnded] started)
     = mainnet_ws_url
  /\ 0 <= reconnect_attempts (connect [SessionClosed; SessionError; SessionEnded] started)
     <= 1
  /\ 1 <= delay (connect [SessionClosed; SessionError; SessionEnded] started) <= 2.
Proof.
  apply (sessions_never_give_up [SessionClosed; SessionError; SessionEnded]).
  repeat constructor; discriminate.
Defined.

End ReconnectionLoop.
